(** * Geometric integrity analysis of DXF drawings

    A shallow embedding of the analysis functions of
    [Analisador_DXF_Engenharia-V22.py]: the entity flattener, the duplicate
    line detector, the closed-contour verifier, the hole symmetry checker,
    the bounding-box calculator, the drawing-check orchestrator and the
    contour repair routine, and of the window methods that compute what is
    shown: the status of a file, the summary dashboard, the hole summary,
    the plot view, the batch analysis and the search by status; followed by
    the properties established for them.

    Conventions of the embedding.
    - Python floats are modelled by exact rationals ([Q]); the two infinities
      used to initialise the bounding box and NaN are added explicitly
      ([pyfloat]).
      Binary rounding error and overflow are not modelled: a sum of two
      rationals is exact and finite.
    - A Python exception is a value of type [exn]; a computation that may
      raise has type [M A = exn + A].  A [try ... except Exception] block is
      [try_except].
    - The drawing library is outside the program.  An entity is modelled by
      what the program reads from it: its [dxftype], its layer, the value of
      the [dxf] attributes it uses ([None] when the attribute is absent) and
      the outcome of the methods it calls ([flattening], [get_points],
      [virtual_entities]).  A vector is a triple of coordinates that can be
      indexed and iterated ([p[0]], [for c in p]) but not sliced: [p[:2]]
      raises [TypeError].  The library fills an attribute that a file
      leaves out with its default, so an entity read from a file has every
      attribute; [None] stands for an attribute without value, and using
      it where a vector is expected raises.
    - Entities are Python objects compared by identity; where the program
      collects entities in a set, the model collects their positions in
      the list they are taken from.
    - Python [set]s iterate in an order the program does not control; where
      a result is built from a set, the model fixes insertion order and the
      theorems speak about the result up to permutation.
    - A window method is modelled by what it reads from the widgets and what
      it hands to them: the texts and states it sets, the calls it makes on
      the axes, the row it selects.  The text of a float ([f"{x}"],
      [f"{x:.2f}"]) is a parameter of the functions that print one. *)

From Stdlib Require Import ZArith QArith Qabs Lia Lqa String Ascii
  DecimalString Bool Arith PeanoNat List Permutation Sorted.
Import ListNotations.

#[local] Set Warnings "-register-all".
#[local] Open Scope list_scope.

(** ** Exceptions *)

Inductive exn_class : Type :=
| AttributeError
| TypeError
| IndexError
| ZeroDivisionError
| ValueError
| KeyError
| OSError.

Record exn : Type := Exn { exn_kind : exn_class; exn_msg : string }.

Definition M (A : Type) : Type := (exn + A)%type.

Definition ret {A : Type} (a : A) : M A := inr a.
Definition raise {A : Type} (k : exn_class) (msg : string) : M A :=
  inl (Exn k msg).

Definition bind {A B : Type} (m : M A) (f : A -> M B) : M B :=
  match m with
  | inl e => inl e
  | inr a => f a
  end.

Notation "x <- m ;; k" := (bind m (fun x => k))
  (at level 61, m at next level, right associativity).

(** [try: body; except Exception as e: handler e] *)
Definition try_except {A : Type} (body : M A) (handler : exn -> A) : A :=
  match body with
  | inl e => handler e
  | inr a => a
  end.

(** ** Numbers *)

(** Python's [round(x)]: nearest integer, ties to the even one. *)
Definition py_round (q : Q) : Z :=
  let n := Qnum q in
  let d := Zpos (Qden q) in
  let f := (n / d)%Z in
  let r := (n mod d)%Z in
  match (2 * r ?= d)%Z with
  | Lt => f
  | Gt => (f + 1)%Z
  | Eq => if Z.even f then f else (f + 1)%Z
  end.

(** Python's [round(x, ndigits)] on a float. *)
Definition py_round_nd (c : Q) (precision : Z) : Q :=
  if (0 <=? precision)%Z
  then inject_Z (py_round (c * inject_Z (10 ^ precision)))
       / inject_Z (10 ^ precision)
  else inject_Z (py_round (c / inject_Z (10 ^ (- precision))))
       * inject_Z (10 ^ (- precision)).

Definition Qltb (a b : Q) : bool :=
  match Qcompare a b with Lt => true | _ => false end.

(** Python floats: a rational, one of the two infinities, or NaN. *)
Inductive pyfloat : Type :=
| NaN
| NegInf
| Fin (q : Q)
| PosInf.

(** [a < b] *)
Definition fltb (a b : pyfloat) : bool :=
  match a, b with
  | NaN, _ | _, NaN => false
  | NegInf, NegInf => false
  | NegInf, _ => true
  | Fin _, NegInf => false
  | Fin p, Fin q => Qltb p q
  | Fin _, PosInf => true
  | PosInf, _ => false
  end.

(** [min(a, b)] and [max(a, b)]: the first argument unless the second one
    is strictly smaller (resp. larger). *)
Definition py_min (a b : pyfloat) : pyfloat := if fltb b a then b else a.
Definition py_max (a b : pyfloat) : pyfloat := if fltb a b then b else a.

Definition fneg (a : pyfloat) : pyfloat :=
  match a with
  | NaN => NaN
  | NegInf => PosInf
  | Fin q => Fin (- q)
  | PosInf => NegInf
  end.

Definition fadd (a b : pyfloat) : pyfloat :=
  match a, b with
  | NaN, _ | _, NaN => NaN
  | Fin p, Fin q => Fin (p + q)
  | PosInf, NegInf | NegInf, PosInf => NaN
  | PosInf, _ | _, PosInf => PosInf
  | NegInf, _ | _, NegInf => NegInf
  end.

Definition fsub (a b : pyfloat) : pyfloat := fadd a (fneg b).

(** [a / 2] *)
Definition fhalf (a : pyfloat) : pyfloat :=
  match a with
  | Fin q => Fin (q / 2)
  | other => other
  end.

Definition fabs (a : pyfloat) : pyfloat :=
  match a with
  | NaN => NaN
  | NegInf | PosInf => PosInf
  | Fin q => Fin (Qabs q)
  end.

(** ** Points and entities *)

Record Vec3 : Type := V3 { vx : Q; vy : Q; vz : Q }.

Definition Point2 : Type := (Q * Q)%type.

Definition xy (p : Vec3) : Point2 := (vx p, vy p).

Inductive dxftype_t : Type :=
| T_LINE
| T_CIRCLE
| T_LWPOLYLINE
| T_POLYLINE
| T_ARC
| T_SPLINE
| T_ELLIPSE
| T_INSERT
| T_OTHER (name : string).

Definition dxftype_eqb (a b : dxftype_t) : bool :=
  match a, b with
  | T_LINE, T_LINE | T_CIRCLE, T_CIRCLE | T_LWPOLYLINE, T_LWPOLYLINE
  | T_POLYLINE, T_POLYLINE | T_ARC, T_ARC | T_SPLINE, T_SPLINE
  | T_ELLIPSE, T_ELLIPSE | T_INSERT, T_INSERT => true
  | T_OTHER n, T_OTHER m => String.eqb n m
  | _, _ => false
  end.

Definition dxftype_name (t : dxftype_t) : string :=
  (match t with
  | T_LINE => "LINE"
  | T_CIRCLE => "CIRCLE"
  | T_LWPOLYLINE => "LWPOLYLINE"
  | T_POLYLINE => "POLYLINE"
  | T_ARC => "ARC"
  | T_SPLINE => "SPLINE"
  | T_ELLIPSE => "ELLIPSE"
  | T_INSERT => "INSERT"
  | T_OTHER n => n
  end)%string.

Inductive curve_kind : Type := ARC | SPLINE | ELLIPSE.
Inductive poly_kind : Type := LWPOLYLINE | POLYLINE.

(** An entity of the drawing.
    - [Line]: the [dxf.start] and [dxf.end] attributes.
    - [Circle]: the [dxf.center] and [dxf.radius] attributes.
      An attribute is [None] when it has no value.  The library gives an
      attribute that a file leaves out its default ((0, 0, 0) for a point,
      1 for a radius), so the entities read from a file carry them all.
    - [Curve]: the outcome of [list(entity.flattening(distance=0.1))].
    - [Poly]: the outcome of [list(entity.get_points('xy'))] and the closed
      flag.
    - [Insert]: the outcome of iterating [entity.virtual_entities()]: the
      entities of the referenced block, transformed, in the order they are
      yielded, and the exception that interrupted the iteration, if any.
      A block reference placed inside a block is yielded as an [Insert].
    - [Other]: any other kind (text, dimension, hatch, ...). *)
Inductive entity : Type :=
| Line (layer : string) (start end_ : option Vec3)
| Circle (layer : string) (center : option Vec3) (radius : option Q)
| Curve (k : curve_kind) (layer : string) (flattening : M (list Vec3))
| Poly (k : poly_kind) (layer : string) (get_points : M (list Point2))
    (closed : bool)
| Insert (layer : string) (virtual_entities : list entity * option exn)
| Other (name : string) (layer : string).

Definition dxftype (e : entity) : dxftype_t :=
  match e with
  | Line _ _ _ => T_LINE
  | Circle _ _ _ => T_CIRCLE
  | Curve ARC _ _ => T_ARC
  | Curve SPLINE _ _ => T_SPLINE
  | Curve ELLIPSE _ _ => T_ELLIPSE
  | Poly LWPOLYLINE _ _ _ => T_LWPOLYLINE
  | Poly POLYLINE _ _ _ => T_POLYLINE
  | Insert _ _ => T_INSERT
  | Other n _ => T_OTHER n
  end.

Definition entity_layer (e : entity) : string :=
  match e with
  | Line l _ _ | Circle l _ _ | Curve _ l _ | Poly _ l _ _ | Insert l _
  | Other _ l => l
  end.

Definition is_type (t : dxftype_t) (e : entity) : bool :=
  dxftype_eqb (dxftype e) t.

(** The model space: the top-level entities, in iteration order. *)
Definition modelspace : Type := list entity.

Record document : Type := Document {
  doc_layers : list string;
  doc_modelspace : modelspace
}.

(** ** Check results *)

Inductive status_t : Type := OK | ALERTA | ERRO | FURO_SEM_SIMETRIA.

Inductive data_t : Type :=
| DNone
| DNames (names : list string)
| DCounts (counts : list (dxftype_t * nat))
| DEntities (entities : list entity)
| DPoints (points : list (option Vec3)).

Record CheckResult : Type := Result {
  status : status_t;
  details : string;
  data : data_t
}.

Definition str_of_nat (n : nat) : string :=
  NilZero.string_of_uint (Nat.to_uint n).

(** ** Entity flattener *)

Definition TOLERANCIA_GEOMETRIA : Q := 1e-4.

(** [get_flattend_entities]: one pass over the model space; a block
    reference is replaced by what its [virtual_entities()] yields, and kept
    (after whatever was already yielded) when the iteration raises. *)
Definition get_flattend_entities (msp : option modelspace) : list entity :=
  match msp with
  | None => []
  | Some ents =>
      flat_map
        (fun entity =>
           match entity with
           | Insert _ (yielded, None) => yielded
           | Insert _ (yielded, Some _) => yielded ++ [entity]
           | _ => [entity]
           end)
        ents
  end.

(** ** Python containers *)

(** Truth value of a list ([if xs:]). *)
Definition truthy {A : Type} (l : list A) : bool :=
  match l with
  | [] => false
  | _ :: _ => true
  end.

Section Containers.
Context {K : Type} (eqb : K -> K -> bool).

Definition count (k : K) (l : list K) : nat := length (filter (eqb k) l).

(** The distinct elements of [l], in order of first occurrence. *)
Fixpoint uniq (l : list K) : list K :=
  match l with
  | [] => []
  | x :: r => x :: filter (fun y => negb (eqb x y)) (uniq r)
  end.

(** [collections.Counter(l)] as its list of items. *)
Definition Counter (l : list K) : list (K * nat) :=
  map (fun k => (k, count k l)) (uniq l).

Context {V : Type}.

(** [d[k] = v] *)
Fixpoint dict_set (k : K) (v : V) (d : list (K * V)) : list (K * V) :=
  match d with
  | [] => [(k, v)]
  | (k', v') :: d' =>
      if eqb k' k then (k', v) :: d' else (k', v') :: dict_set k v d'
  end.

(** [d[k]] *)
Fixpoint dict_get (k : K) (d : list (K * V)) : M V :=
  match d with
  | [] => raise KeyError "key not found"
  | (k', v') :: d' => if eqb k' k then ret v' else dict_get k d'
  end.

(** [s.add(k)] on a set kept as a duplicate-free list. *)
Definition set_add (k : K) (s : list K) : list K :=
  if existsb (eqb k) s then s else s ++ [k].
End Containers.

(** [[f(x) for x in xs]] where [f] may raise. *)
Fixpoint mapM {A B : Type} (f : A -> M B) (l : list A) : M (list B) :=
  match l with
  | [] => ret []
  | a :: r => b <- f a ;; bs <- mapM f r ;; ret (b :: bs)
  end.

(** [str.lower], on ASCII letters. *)
Definition lower_ascii (c : ascii) : ascii :=
  let n := nat_of_ascii c in
  if ((65 <=? n) && (n <=? 90))%nat then ascii_of_nat (n + 32) else c.

Fixpoint lower (s : string) : string :=
  match s with
  | EmptyString => EmptyString
  | String c r => String (lower_ascii c) (lower r)
  end.

(** ** Attribute access

    [entity.dxf.start] and the like; each is applied only to entities of the
    kind that carries the attribute. *)

Definition dxf_start (e : entity) : option Vec3 :=
  match e with Line _ s _ => s | _ => None end.
Definition dxf_end (e : entity) : option Vec3 :=
  match e with Line _ _ t => t | _ => None end.
Definition dxf_center (e : entity) : option Vec3 :=
  match e with Circle _ c _ => c | _ => None end.
Definition dxf_radius (e : entity) : option Q :=
  match e with Circle _ _ r => r | _ => None end.

Definition no_entity : entity := Other EmptyString EmptyString.

(** [lines[i]] for an index in range. *)
Definition item (l : list entity) (i : nat) : entity := nth i l no_entity.

(** ** Layer analysis *)

(** [msp.query('*[layer=="name"]')] *)
Definition query_layer (msp : modelspace) (name : string) : list entity :=
  filter (fun e => String.eqb (entity_layer e) name) msp.

Definition analyze_layers (doc : document) (msp : modelspace) : CheckResult :=
  try_except
    (let all_layers := doc_layers doc in
     let empty_layers :=
       filter
         (fun name =>
            negb (existsb (String.eqb (lower name)) ["0"; "defpoints"]%string)
            && negb (truthy (query_layer msp name)))
         all_layers in
     ret (if truthy empty_layers
          then Result ALERTA
                 ("Encontradas " ++ str_of_nat (length empty_layers)
                  ++ " camadas vazias.")%string
                 (DNames empty_layers)
          else Result OK
                 ("Nenhuma camada vazia encontrada ("
                  ++ str_of_nat (length all_layers) ++ " total).")%string
                 DNone))
    (fun e => Result ERRO ("Falha: " ++ exn_msg e)%string DNone).

(** ** Entity summary *)

Definition summarize_entities (msp : modelspace) : CheckResult :=
  try_except
    (let all_entities := get_flattend_entities (Some msp) in
     let entity_counts := Counter dxftype_eqb (map dxftype all_entities) in
     ret (if negb (truthy entity_counts)
          then Result ALERTA "O desenho não possui elementos." DNone
          else
            let total_entities := list_sum (map snd entity_counts) in
            Result OK
              ("A peça é composta por " ++ str_of_nat total_entities
               ++ " elementos.")%string
              (DCounts entity_counts)))
    (fun e => Result ERRO ("Falha: " ++ exn_msg e)%string DNone).

(** ** Duplicate line detector *)

Definition T3 : Type := (Q * Q * Q)%type.

(** [tuple(round(c, precision) for c in p)] *)
Definition round_point (precision : Z) (p : option Vec3) : M T3 :=
  match p with
  | None => raise TypeError "'NoneType' object is not iterable"
  | Some v =>
      ret (py_round_nd (vx v) precision,
           py_round_nd (vy v) precision,
           py_round_nd (vz v) precision)
  end.

(** [==] and [<] on tuples of three floats. *)
Definition t3_eqb (a b : T3) : bool :=
  let '(a1, a2, a3) := a in
  let '(b1, b2, b3) := b in
  Qeq_bool a1 b1 && Qeq_bool a2 b2 && Qeq_bool a3 b3.

Definition t3_ltb (a b : T3) : bool :=
  let '(a1, a2, a3) := a in
  let '(b1, b2, b3) := b in
  if negb (Qeq_bool a1 b1) then Qltb a1 b1
  else if negb (Qeq_bool a2 b2) then Qltb a2 b2
  else Qltb a3 b3.

(** [tuple(sorted((a, b)))] *)
Definition sorted2 (a b : T3) : T3 * T3 :=
  if t3_ltb b a then (b, a) else (a, b).

Definition sig_eqb (s1 s2 : T3 * T3) : bool :=
  t3_eqb (fst s1) (fst s2) && t3_eqb (snd s1) (snd s2).

Definition signature (precision : Z) (line : entity) : M (T3 * T3) :=
  p_start <- round_point precision (dxf_start line) ;;
  p_end <- round_point precision (dxf_end line) ;;
  ret (sorted2 p_start p_end).

(** The body of [for j in range(i + 1, len(lines))]; [duplicate_entities]
    holds the positions in [lines] of the entities added to the set. *)
Fixpoint dup_inner (precision : Z) (lines : list entity) (i : nat)
    (js : list nat) (duplicate_entities : list nat) : M (list nat) :=
  match js with
  | [] => ret duplicate_entities
  | j :: js' =>
      let line1 := item lines i in
      let line2 := item lines j in
      signature1 <- signature precision line1 ;;
      signature2 <- signature precision line2 ;;
      dup_inner precision lines i js'
        (if sig_eqb signature1 signature2
         then set_add Nat.eqb j (set_add Nat.eqb i duplicate_entities)
         else duplicate_entities)
  end.

(** The body of [for i in range(len(lines))]. *)
Fixpoint dup_outer (precision : Z) (lines : list entity) (is_ : list nat)
    (duplicate_entities : list nat) : M (list nat) :=
  match is_ with
  | [] => ret duplicate_entities
  | i :: is' =>
      d <- dup_inner precision lines i
             (seq (i + 1) (length lines - (i + 1))) duplicate_entities ;;
      dup_outer precision lines is' d
  end.

Definition duplicate_line_indices (precision : Z) (lines : list entity)
  : M (list nat) :=
  dup_outer precision lines (seq 0 (length lines)) [].

(** [duplicate_entities] is a set of entities: the order of
    [list(duplicate_entities)] is not the program's to choose.  The model
    lists the entities in the order they were added; the properties speak
    of the list up to permutation. *)
Definition find_duplicate_lines (msp : modelspace) (precision : Z)
  : CheckResult :=
  try_except
    (let all_entities := get_flattend_entities (Some msp) in
     let lines := filter (is_type T_LINE) all_entities in
     duplicate_entities <- duplicate_line_indices precision lines ;;
     ret (if truthy duplicate_entities
          then Result ERRO
                 ("Encontrada(s) " ++ str_of_nat (length duplicate_entities)
                  ++ " linha(s) envolvida(s) em duplicação.")%string
                 (DEntities (map (item lines) duplicate_entities))
          else Result OK "Nenhuma linha sobreposta encontrada." DNone))
    (fun e =>
       Result ERRO ("Falha na análise de duplicatas: " ++ exn_msg e)%string
         DNone).

(** ** Closed-contour verifier *)

Definition key : Type := (Z * Z)%type.

Definition key_eqb (a b : key) : bool :=
  ((fst a =? fst b) && (snd a =? snd b))%Z.

(** [p[:2]]: [None] cannot be subscripted, and a vector of the drawing
    library takes an index, not a slice. *)
Definition slice2 (p : option Vec3) : M (Q * Q) :=
  match p with
  | None => raise TypeError "'NoneType' object is not subscriptable"
  | Some _ => raise TypeError "slicing not supported"
  end.

(** [tuple(round(coord / tolerance) for coord in p[:2])] *)
Definition normalize_point (tolerance : Q) (p : option Vec3) : M key :=
  coords <- slice2 p ;;
  if Qeq_bool tolerance 0
  then raise ZeroDivisionError "float division by zero"
  else ret (py_round (fst coords / tolerance),
            py_round (snd coords / tolerance)).

(** The body of [for entity in entities_to_check]. *)
Fixpoint collect_endpoints (tolerance : Q) (entities_to_check : list entity)
    (endpoints : list key) (all_points : list (key * option Vec3))
  : M (list key * list (key * option Vec3)) :=
  match entities_to_check with
  | [] => ret (endpoints, all_points)
  | entity :: rest =>
      if is_type T_LINE entity then
        let start := dxf_start entity in
        let end_ := dxf_end entity in
        norm_start <- normalize_point tolerance start ;;
        norm_end <- normalize_point tolerance end_ ;;
        collect_endpoints tolerance rest
          (endpoints ++ [norm_start; norm_end])
          (dict_set key_eqb norm_end end_
             (dict_set key_eqb norm_start start all_points))
      else collect_endpoints tolerance rest endpoints all_points
  end.

(** [{p for p, count in endpoint_counts.items() if count % 2 != 0}] *)
Definition odd_keys (endpoint_counts : list (key * nat)) : list key :=
  map fst (filter (fun pc => negb (snd pc mod 2 =? 0)%nat) endpoint_counts).

Definition check_closed_geometry (msp : modelspace) (tolerance : Q)
  : CheckResult :=
  try_except
    (let all_entities := get_flattend_entities (Some msp) in
     let entities_to_check :=
       filter (fun e => is_type T_LINE e || is_type T_LWPOLYLINE e)
         all_entities in
     if negb (truthy entities_to_check)
     then ret (Result ALERTA "Nenhum contorno para analisar." DNone)
     else
       collected <- collect_endpoints tolerance entities_to_check [] [] ;;
       let endpoints := fst collected in
       let all_points := snd collected in
       let endpoint_counts := Counter key_eqb endpoints in
       let open_normalized_points := odd_keys endpoint_counts in
       if truthy open_normalized_points
       then
         open_points_coords <-
           mapM (fun p => dict_get key_eqb p all_points)
             open_normalized_points ;;
         ret (Result ERRO
                ("Contorno aberto! "
                 ++ str_of_nat (length open_points_coords)
                 ++ " pontos soltos.")%string
                (DPoints open_points_coords))
       else ret (Result OK "O contorno da peça está fechado." DNone))
    (fun e => Result ERRO ("Falha: " ++ exn_msg e)%string DNone).

(** ** Geometry extent calculator *)

Definition bbox_t : Type := (pyfloat * pyfloat * pyfloat * pyfloat)%type.

(** [except (AttributeError, TypeError, IndexError)] *)
Definition trapped_by_bbox (e : exn) : bool :=
  match exn_kind e with
  | AttributeError | TypeError | IndexError => true
  | _ => false
  end.

(** The [if]/[elif] chain computing [points]; [None] is the final
    [else: continue]. A missing line endpoint is an element [None] of the
    list, a missing centre or radius makes the arithmetic raise. *)
Definition entity_points (entity : entity)
  : option (M (list (option Point2))) :=
  match entity with
  | Curve _ _ flattening =>
      Some (pts <- flattening ;; ret (map (fun p => Some (xy p)) pts))
  | Line _ start end_ =>
      Some (ret [option_map xy start; option_map xy end_])
  | Poly _ _ get_points _ =>
      Some (pts <- get_points ;; ret (map Some pts))
  | Circle _ center radius =>
      Some
        match center, radius with
        | None, _ =>
            raise AttributeError "'NoneType' object has no attribute 'x'"
        | Some _, None =>
            raise TypeError "unsupported operand type(s) for -"
        | Some c, Some r =>
            ret [Some (vx c - r, vy c - r); Some (vx c + r, vy c + r)]
        end
  | Insert _ _ | Other _ _ => None
  end.

(** The body of [for p in points]: the box reached when the loop stops, and
    the exception that stopped it, if any. *)
Fixpoint extend_bbox (points : list (option Point2)) (b : bbox_t)
  : bbox_t * option exn :=
  match points with
  | [] => (b, None)
  | None :: _ =>
      (b, Some (Exn TypeError "'NoneType' object is not subscriptable"))
  | Some (p0, p1) :: rest =>
      let '(min_x, max_x, min_y, max_y) := b in
      extend_bbox rest
        (py_min min_x (Fin p0), py_max max_x (Fin p0),
         py_min min_y (Fin p1), py_max max_y (Fin p1))
  end.

(** The body of [for entity in all_entities], with its [try]. *)
Fixpoint bbox_loop (all_entities : list entity) (b : bbox_t)
    (has_data : bool) : M (bbox_t * bool) :=
  match all_entities with
  | [] => ret (b, has_data)
  | entity :: rest =>
      match entity_points entity with
      | None => bbox_loop rest b has_data
      | Some (inl e) =>
          if trapped_by_bbox e then bbox_loop rest b has_data else inl e
      | Some (inr points) =>
          match extend_bbox points b with
          | (b', None) => bbox_loop rest b' true
          | (b', Some e) =>
              if trapped_by_bbox e then bbox_loop rest b' true else inl e
          end
      end
  end.

Definition _calculate_manual_bbox (msp : modelspace) : M (option bbox_t) :=
  let all_entities := get_flattend_entities (Some msp) in
  if negb (truthy all_entities) then ret None
  else
    r <- bbox_loop all_entities (PosInf, NegInf, PosInf, NegInf) false ;;
    ret (if snd r then Some (fst r) else None).

Record props_t : Type := Props {
  width : pyfloat;
  height : pyfloat;
  extents : option bbox_t
}.

Definition _get_geometric_properties (msp : modelspace) : M props_t :=
  let props := Props (Fin 0) (Fin 0) None in
  extents_data <- _calculate_manual_bbox msp ;;
  match extents_data with
  | None => ret props
  | Some (min_x, max_x, min_y, max_y) =>
      ret (Props (fsub max_x min_x) (fsub max_y min_y) extents_data)
  end.

(** ** Hole symmetry checker *)

Definition position : Type := (pyfloat * pyfloat)%type.

Definition no_position : position := (NaN, NaN).

(** [hole.dxf.center.x - center_x], [hole.dxf.center.y - center_y] *)
Definition hole_position (center_x center_y : pyfloat) (hole : entity)
  : M position :=
  match dxf_center hole with
  | None => raise AttributeError "'NoneType' object has no attribute 'x'"
  | Some c => ret (fsub (Fin (vx c)) center_x, fsub (Fin (vy c)) center_y)
  end.

Definition is_symmetric_pair (tolerance : Q) (p1 p2 : position) : bool :=
  fltb (fabs (fadd (fst p1) (fst p2))) (Fin tolerance)
  && fltb (fabs (fadd (snd p1) (snd p2))) (Fin tolerance).

Definition is_at_center (tolerance : Q) (p1 : position) : bool :=
  fltb (fabs (fst p1)) (Fin tolerance) && fltb (fabs (snd p1)) (Fin tolerance).

(** [x['matched'] = True] for the entry at position [i]. *)
Fixpoint mark (i : nat) (matched : list bool) : list bool :=
  match matched, i with
  | [], _ => []
  | _ :: r, O => true :: r
  | m :: r, S i' => m :: mark i' r
  end.

(** The inner loop [for j, p2 in enumerate(relative_positions)]: the first
    [j] it breaks at, if any. *)
Fixpoint find_match (tolerance : Q) (relative_positions : list position)
    (matched : list bool) (i : nat) (js : list nat) : option nat :=
  match js with
  | [] => None
  | j :: js' =>
      if (i =? j)%nat || nth j matched false
      then find_match tolerance relative_positions matched i js'
      else if is_symmetric_pair tolerance
                (nth i relative_positions no_position)
                (nth j relative_positions no_position)
      then Some j
      else find_match tolerance relative_positions matched i js'
  end.

(** The outer loop [for i, p1 in enumerate(relative_positions)]; returns the
    final [matched] flags and the positions of the entries appended to
    [asymmetric_holes]. *)
Fixpoint pairing_loop (tolerance : Q) (relative_positions : list position)
    (is_ : list nat) (matched : list bool) (asymmetric_holes : list nat)
  : list bool * list nat :=
  match is_ with
  | [] => (matched, asymmetric_holes)
  | i :: is' =>
      if nth i matched false
      then pairing_loop tolerance relative_positions is' matched
             asymmetric_holes
      else
        match find_match tolerance relative_positions matched i
                (seq 0 (length relative_positions)) with
        | Some j =>
            pairing_loop tolerance relative_positions is'
              (mark j (mark i matched)) asymmetric_holes
        | None =>
            pairing_loop tolerance relative_positions is' matched
              (if is_at_center tolerance
                    (nth i relative_positions no_position)
               then asymmetric_holes
               else asymmetric_holes ++ [i])
        end
  end.

Definition pairing_pass (tolerance : Q) (relative_positions : list position)
  : list bool * list nat :=
  let n := length relative_positions in
  pairing_loop tolerance relative_positions (seq 0 n) (repeat false n) [].

Definition check_hole_symmetry (msp : modelspace) (tolerance : Q)
  : M CheckResult :=
  let all_entities := get_flattend_entities (Some msp) in
  let holes := filter (is_type T_CIRCLE) all_entities in
  if (length holes <? 2)%nat
  then ret (Result OK "Não há furos suficientes para análise de simetria."
              DNone)
  else
    bbox <- _calculate_manual_bbox msp ;;
    match bbox with
    | None =>
        ret (Result ALERTA "Não foi possível determinar o centro da peça."
               DNone)
    | Some (min_x, max_x, min_y, max_y) =>
        let center_x := fhalf (fadd min_x max_x) in
        let center_y := fhalf (fadd min_y max_y) in
        relative_positions <- mapM (hole_position center_x center_y) holes ;;
        let asymmetric_holes :=
          snd (pairing_pass tolerance relative_positions) in
        ret (if negb (truthy asymmetric_holes)
             then Result OK "A furação da peça é simétrica." DNone
             else Result FURO_SEM_SIMETRIA
                    (str_of_nat (length asymmetric_holes)
                     ++ " furo(s) quebra(m) a simetria.")%string
                    (DEntities (map (item holes) asymmetric_holes)))
    end.

(** ** Files *)

Record Path : Type := MkPath { path_parent : string; path_name : string }.

Definition path_eqb (p q : Path) : bool :=
  String.eqb (path_parent p) (path_parent q)
  && String.eqb (path_name p) (path_name q).

(** The drawings stored on disk. *)
Definition filesystem : Type := Path -> option document.

(** [ezdxf.readfile(filepath)] *)
Definition readfile (fs : filesystem) (filepath : Path) : M document :=
  match fs filepath with
  | None => raise OSError "file not found or not a DXF file"
  | Some doc => ret doc
  end.

(** [doc.saveas(new_filepath)] *)
Definition saveas (doc : document) (new_filepath : Path) (fs : filesystem)
  : filesystem :=
  fun q => if path_eqb q new_filepath then Some doc else fs q.

(** ** Drawing check orchestrator *)

Inductive result_value : Type :=
| Check (r : CheckResult)
| Message (s : string).

Definition check_drawing (fs : filesystem) (filepath : Path)
  : M (list (string * result_value)) :=
  match readfile fs filepath with
  | inl e =>
      ret [("load_error"%string,
            Message ("Falha Crítica ao carregar: " ++ exn_msg e)%string)]
  | inr doc =>
      let msp := doc_modelspace doc in
      let r1 := summarize_entities msp in
      let r2 := analyze_layers doc msp in
      let r3 := find_duplicate_lines msp 4 in
      let r4 := check_closed_geometry msp TOLERANCIA_GEOMETRIA in
      r5 <- check_hole_symmetry msp 1e-2 ;;
      ret [("Composição do Desenho"%string, Check r1);
           ("Análise de Camadas"%string, Check r2);
           ("Linhas Sobrepostas"%string, Check r3);
           ("Verificação de Contorno"%string, Check r4);
           ("Verificação de Furos"%string, Check r5)]
  end.

(** ** Contour repair *)

(** [Vec3(p)]: the constructor rejects [None]. *)
Definition Vec3_of (p : option Vec3) : M Vec3 :=
  match p with
  | None => raise TypeError "invalid argument for Vec3"
  | Some v => ret v
  end.

Definition Qmaxb (a b : Q) : Q := if Qltb a b then b else a.

(** [math.isclose(a, b, rel_tol=rel_tol, abs_tol=abs_tol)] *)
Definition math_isclose (a b rel_tol abs_tol : Q) : bool :=
  Qle_bool (Qabs (a - b))
    (Qmaxb (rel_tol * Qmaxb (Qabs a) (Qabs b)) abs_tol).

(** [a.isclose(b)] with the default tolerances of the vector class. *)
Definition isclose (a b : Vec3) : bool :=
  math_isclose (vx a) (vx b) 1e-9 1e-12
  && math_isclose (vy a) (vy b) 1e-9 1e-12
  && math_isclose (vz a) (vz b) 1e-9 1e-12.

(** [l.pop(i)] *)
Definition remove_at {A : Type} (i : nat) (l : list A) : list A :=
  firstn i l ++ skipn (S i) l.

(** The inner loop [for i, next_line in enumerate(remaining_lines)]: the
    point to append and the index to pop, when a line continues the path. *)
Fixpoint find_next (last_point : Vec3) (remaining_lines : list entity)
    (i : nat) : M (option (option Vec3 * nat)) :=
  match remaining_lines with
  | [] => ret None
  | next_line :: rest =>
      s <- Vec3_of (dxf_start next_line) ;;
      if isclose last_point s
      then ret (Some (dxf_end next_line, i))
      else
        e <- Vec3_of (dxf_end next_line) ;;
        if isclose last_point e
        then ret (Some (dxf_start next_line, i))
        else find_next last_point rest (S i)
  end.

(** The loop [for _ in range(len(remaining_lines) * 2)]; [iterations] is
    the number of iterations left. *)
Fixpoint stitch (iterations : nat) (path_points : list (option Vec3))
    (remaining_lines : list entity)
  : M (list (option Vec3) * list entity) :=
  match iterations with
  | O => ret (path_points, remaining_lines)
  | S iterations' =>
      last_point <- Vec3_of (last path_points None) ;;
      found <- find_next last_point remaining_lines 0 ;;
      match found with
      | Some (p, i) =>
          stitch iterations' (path_points ++ [p])
            (remove_at i remaining_lines)
      | None => ret (path_points, remaining_lines)
      end
  end.

(** [msp.add_lwpolyline(points, close=close)] *)
Definition add_lwpolyline (points : list (option Vec3)) (close : bool)
    (msp : modelspace) : M modelspace :=
  pts <- mapM Vec3_of points ;;
  ret (msp ++ [Poly LWPOLYLINE "0" (ret (map xy pts)) close]).

(** [for line in msp.query('LINE'): msp.delete_entity(line)] *)
Definition delete_lines (msp : modelspace) : modelspace :=
  filter (fun e => negb (is_type T_LINE e)) msp.

(** Index of the last occurrence of [c] in [s] ([str.rfind]). *)
Fixpoint rfind (c : ascii) (s : string) : option nat :=
  match s with
  | EmptyString => None
  | String a r =>
      match rfind c r with
      | Some i => Some (S i)
      | None => if Ascii.eqb a c then Some 0%nat else None
      end
  end.

(** [PurePath.stem]: the name without its last suffix. *)
Definition stem (name : string) : string :=
  match rfind "." name with
  | Some i =>
      if ((0 <? i) && (i <? String.length name - 1))%nat
      then substring 0 i name
      else name
  | None => name
  end.

(** [PurePath.with_name] *)
Definition with_name (p : Path) (name : string) : M Path :=
  if String.eqb (path_name p) EmptyString
  then raise ValueError "path has an empty name"
  else ret (MkPath (path_parent p) name).

Definition corrected_name (name : string) : string :=
  (stem name ++ "_corrigido.dxf")%string.

(** What the routine reads from the window: the focused row of the tree,
    the parent of a row (empty for a top-level row) and the file of a row. *)
Record tree_state : Type := Tree {
  tree_focus : string;
  tree_parent : string -> string;
  tree_item_to_path : string -> option Path
}.

Inductive dialog : Type :=
| ShowWarning (title message : string)
| ShowInfo (title message : string)
| ShowError (title message : string).

(** What the routine leaves behind: the files, the dialogs shown and whether
    a new analysis was started. *)
Record outcome : Type := Outcome {
  fs_after : filesystem;
  dialogs : list dialog;
  reanalysis : bool
}.

Definition newline : string := String (ascii_of_nat 10) EmptyString.

Definition fix_open_contour (tree : tree_state) (fs : filesystem) : outcome :=
  let selected_iid := tree_focus tree in
  if String.eqb selected_iid EmptyString
  then Outcome fs [ShowWarning "Ação Inválida" "Nenhum arquivo selecionado."]
         false
  else
    let parent_iid :=
      if String.eqb (tree_parent tree selected_iid) EmptyString
      then selected_iid
      else tree_parent tree selected_iid in
    match tree_item_to_path tree parent_iid with
    | None => Outcome fs [] false
    | Some filepath =>
        try_except
          (doc <- readfile fs filepath ;;
           let msp := doc_modelspace doc in
           let all_entities := get_flattend_entities (Some msp) in
           let lines := filter (is_type T_LINE) all_entities in
           match lines with
           | [] =>
               ret (Outcome fs
                      [ShowInfo "Informação"
                         "Nenhuma linha encontrada para unir."]
                      false)
           | current_line :: remaining_lines =>
               stitched <-
                 stitch (length remaining_lines * 2)
                   [dxf_start current_line; dxf_end current_line]
                   remaining_lines ;;
               let path_points := fst stitched in
               msp' <- add_lwpolyline path_points true (delete_lines msp) ;;
               new_filepath <-
                 with_name filepath (corrected_name (path_name filepath)) ;;
               let fs' :=
                 saveas (Document (doc_layers doc) msp') new_filepath fs in
               ret (Outcome fs'
                      [ShowInfo "Sucesso"
                         ("Contorno corrigido com sucesso!" ++ newline
                          ++ "Novo arquivo salvo como:" ++ newline
                          ++ path_name new_filepath)%string]
                      true)
           end)
          (fun e =>
             Outcome fs
               [ShowError "Erro na Correção"
                  ("Não foi possível corrigir o contorno:" ++ newline
                   ++ exn_msg e)%string]
               false)
    end.

(** ** Vocabulary of the properties *)

Definition point (x y : Q) : Vec3 := V3 x y 0.
Definition line (a b : Vec3) : entity := Line "0" (Some a) (Some b).
Definition circle (x y r : Q) : entity :=
  Circle "0" (Some (point x y)) (Some r).

(** A block reference whose expansion yields [content] without raising. *)
Definition block (content : list entity) : entity :=
  Insert "0" (content, None).

Definition resolves (e : entity) : bool :=
  match e with
  | Insert _ (_, Some _) => false
  | _ => true
  end.

(** What the block references of a list yield. *)
Definition yielded_by (e : entity) : list entity :=
  match e with
  | Insert _ (content, _) => content
  | _ => []
  end.

(** A block placed inside a block. *)
Definition nested_blocks : modelspace :=
  [block [block [line (point 0 0) (point 1 0)]]].

Definition has_endpoints (e : entity) : bool :=
  match e with
  | Line _ (Some _) (Some _) => true
  | _ => false
  end.

Definition valid_circle (e : entity) : bool :=
  match e with
  | Circle _ (Some _) (Some _) => true
  | _ => false
  end.

(** The entity makes [_calculate_manual_bbox] raise past its [except]. *)
Definition escapes_bbox (e : entity) : bool :=
  match entity_points e with
  | Some (inl ex) => negb (trapped_by_bbox ex)
  | _ => false
  end.

Definition empty_polyline : entity := Poly LWPOLYLINE "0" (ret []) false.

Definition broken_spline : entity :=
  Curve SPLINE "0" (raise ValueError "spline without control points").

Definition one_file (doc : document) : filesystem := fun _ => Some doc.

Definition some_path : Path := MkPath "/desenhos" "peca.dxf".

(** Two holes, the second without a centre. *)
Definition hole_without_center : document :=
  Document ["0"%string] [circle 0 0 1; Circle "0" None (Some 1)].

(** Two sound holes and a spline that cannot be sampled. *)
Definition holes_and_broken_spline : document :=
  Document ["0"%string] [circle 5 0 1; circle (-5) 0 1; broken_spline].

(** Entities the contour verifier keeps in [entities_to_check]. *)
Definition contour_eligible (e : entity) : bool :=
  is_type T_LINE e || is_type T_LWPOLYLINE e.

(** The entity is skipped before [has_data] is set. *)
Definition skipped_by_bbox (e : entity) : bool :=
  match entity_points e with
  | None => true
  | Some (inl ex) => trapped_by_bbox ex
  | Some (inr _) => false
  end.

(** The file the repair routine works on, when the selection names one. *)
Definition selected_path (tree : tree_state) : option Path :=
  if String.eqb (tree_focus tree) EmptyString then None
  else
    tree_item_to_path tree
      (if String.eqb (tree_parent tree (tree_focus tree)) EmptyString
       then tree_focus tree
       else tree_parent tree (tree_focus tree)).

(** The path the repaired drawing is saved under. *)
Definition corrected_path (filepath : Path) : Path :=
  MkPath (path_parent filepath) (corrected_name (path_name filepath)).

(** The drawing the repair routine saves: the [LINE] entities of the model
    space are gone and one closed polyline through [path_points] is added. *)
Definition repaired_document (doc : document) (path_points : list Vec3)
  : document :=
  Document (doc_layers doc)
    (delete_lines (doc_modelspace doc)
     ++ [Poly LWPOLYLINE "0" (ret (map xy path_points)) true]).

Definition vec_eqb (a b : Vec3) : bool :=
  Qeq_bool (vx a) (vx b) && Qeq_bool (vy a) (vy b) && Qeq_bool (vz a) (vz b).

(** The lines follow one another, each starting where the previous one
    ended, up to the point [last]. *)
Fixpoint chained (last : Vec3) (lines : list entity) : option Vec3 :=
  match lines with
  | [] => Some last
  | Line _ (Some a) (Some b) :: rest =>
      if vec_eqb last a then chained b rest else None
  | _ :: _ => None
  end.

(** A single connected chain of at least one line whose two ends differ. *)
Definition single_open_chain (lines : list entity) : bool :=
  match lines with
  | Line _ (Some a) (Some b) :: rest =>
      match chained b rest with
      | Some z => negb (vec_eqb a z)
      | None => false
      end
  | _ => false
  end.

(** An open chain of two lines, supplied through a block reference. *)
Definition chain_in_block : document :=
  Document ["0"%string]
    [block [line (point 0 0) (point 1 0); line (point 1 0) (point 1 1)]].

(** An open chain of two lines placed directly in the model space. *)
Definition chain_in_modelspace : document :=
  Document ["0"%string]
    [line (point 0 0) (point 1 0); line (point 1 0) (point 1 1);
     circle 0 0 1].

(** A window whose focused row is the row of [some_path]. *)
Definition tree_on_some_path : tree_state :=
  Tree "I001" (fun _ => EmptyString) (fun _ => Some some_path).

(** The two lines have equal signatures. *)
Definition same_signature (precision : Z) (l1 l2 : entity) : bool :=
  match signature precision l1, signature precision l2 with
  | inr s1, inr s2 => sig_eqb s1 s2
  | _, _ => false
  end.

(** The two lines of the example: (0,0,0)-(10,0,0) and its reverse. *)
Definition line_and_reverse : modelspace :=
  [line (V3 0 0 0) (V3 10 0 0); line (V3 10 0 0) (V3 0 0 0)].

Definition rot1 {A : Type} (l : list A) : list A :=
  match l with
  | [] => []
  | v :: r => r ++ [v]
  end.

(** The segments of the closed polygon through the vertices [vs]: each
    vertex joined to the next one, the last one to the first. *)
Definition loop_segments (vs : list Vec3) : list (Vec3 * Vec3) :=
  combine vs (rot1 vs).

Definition line_ends (e : entity) : option Vec3 * option Vec3 :=
  (dxf_start e, dxf_end e).

Definition segment_ends (s : Vec3 * Vec3) : option Vec3 * option Vec3 :=
  (Some (fst s), Some (snd s)).

(** Twice the signed area of the triangle [a b c]. *)
Definition orient (a b c : Vec3) : Q :=
  (vx b - vx a) * (vy c - vy a) - (vy b - vy a) * (vx c - vx a).

Definition between (a b c : Q) : bool :=
  (Qle_bool a c && Qle_bool c b) || (Qle_bool b c && Qle_bool c a).

(** [c] lies on the closed segment [a b]. *)
Definition on_segment (a b c : Vec3) : bool :=
  Qeq_bool (orient a b c) 0
  && between (vx a) (vx b) (vx c) && between (vy a) (vy b) (vy c).

(** The closed segments [a b] and [c d] have a common point. *)
Definition segments_meet (a b c d : Vec3) : bool :=
  (Qltb (orient c d a * orient c d b) 0
   && Qltb (orient a b c * orient a b d) 0)
  || on_segment c d a || on_segment c d b
  || on_segment a b c || on_segment a b d.

(** Consecutive segments [a b] and [b c] share the point [b] only. *)
Definition meet_at_joint_only (s t : Vec3 * Vec3) : bool :=
  negb (on_segment (fst s) (snd s) (snd t))
  && negb (on_segment (fst t) (snd t) (fst s)).

Definition segment_at (segs : list (Vec3 * Vec3)) (i : nat) : Vec3 * Vec3 :=
  nth i segs (V3 0 0 0, V3 0 0 0).

(** The closed polygon through [vs] has at least three sides and does not
    intersect itself: consecutive sides share their joint only, other
    sides do not meet. *)
Definition simple_polygon (vs : list Vec3) : bool :=
  let segs := loop_segments vs in
  let n := length segs in
  (3 <=? n)%nat
  && forallb
       (fun i =>
          forallb
            (fun j =>
               if (j =? i + 1)%nat
               then meet_at_joint_only (segment_at segs i) (segment_at segs j)
               else if ((i =? 0) && (j =? n - 1))%nat
               then meet_at_joint_only (segment_at segs j) (segment_at segs i)
               else negb (segments_meet
                            (fst (segment_at segs i)) (snd (segment_at segs i))
                            (fst (segment_at segs j))
                            (snd (segment_at segs j))))
            (seq (i + 1) (n - (i + 1))))
       (seq 0 n).

Definition square : list Vec3 :=
  [point 0 0; point 10 0; point 10 10; point 0 10].

Definition segment_lines (segs : list (Vec3 * Vec3)) : modelspace :=
  map (fun s => line (fst s) (snd s)) segs.

(** The pairing pass in the words of the specification: the circles are
    visited in their original order, and an unmatched circle looks for a
    partner among the unmatched circles that come after it only. *)
Fixpoint greedy_matching (tolerance : Q) (relative_positions : list position)
    (is_ : list nat) (matched : list bool) : list bool :=
  match is_ with
  | [] => matched
  | i :: is' =>
      if nth i matched false
      then greedy_matching tolerance relative_positions is' matched
      else
        match find_match tolerance relative_positions matched i
                (seq (i + 1) (length relative_positions - (i + 1))) with
        | Some j =>
            greedy_matching tolerance relative_positions is'
              (mark j (mark i matched))
        | None => greedy_matching tolerance relative_positions is' matched
        end
  end.

(** The circles reported in the words of the specification: those left
    unmatched by the greedy pass and not on the centre. *)
Definition symmetry_breaking (tolerance : Q)
    (relative_positions : list position) : list bool * list nat :=
  let n := length relative_positions in
  let matched :=
    greedy_matching tolerance relative_positions (seq 0 n) (repeat false n) in
  (matched,
   filter
     (fun i =>
        negb (nth i matched false)
        && negb (is_at_center tolerance (nth i relative_positions no_position)))
     (seq 0 n)).

(** No unmatched circle before [i] has a symmetric partner among the
    unmatched circles. *)
Definition settled (tolerance : Q) (relative_positions : list position)
    (i : nat) (matched : list bool) : Prop :=
  forall j k,
    (j < i)%nat -> (k < length relative_positions)%nat -> k <> j ->
    nth j matched false = false -> nth k matched false = false ->
    is_symmetric_pair tolerance (nth j relative_positions no_position)
      (nth k relative_positions no_position) = false.

(** Four holes at (+-5, +-5) around the centre of a square plate. *)
Definition four_holes : modelspace :=
  [circle 5 5 1; circle (-5) 5 1; circle 5 (-5) 1; circle (-5) (-5) 1].

Definition plate_outline : modelspace :=
  segment_lines
    (loop_segments
       [point (-10) (-10); point 10 (-10); point 10 10; point (-10) 10]).

(** The same plate with a fifth hole at (3, 7). *)
Definition five_holes : modelspace :=
  plate_outline ++ four_holes ++ [circle 3 7 1].

(** The relative positions of the two examples. *)
Definition four_positions : list position :=
  [(Fin 5, Fin 5); (Fin (-5), Fin 5); (Fin 5, Fin (-5)); (Fin (-5), Fin (-5))].

Definition five_positions : list position :=
  four_positions ++ [(Fin 3, Fin 7)].

(** A quadrilateral whose sides cross. *)
Definition bowtie : list Vec3 :=
  [point 0 0; point 10 10; point 10 0; point 0 10].

(** The elements of the list are pairwise different for [eqb]. *)
Fixpoint pairwise_distinct {K : Type} (eqb : K -> K -> bool) (u : list K)
  : Prop :=
  match u with
  | [] => True
  | x :: r => (forall k, In k r -> eqb x k = false) /\ pairwise_distinct eqb r
  end.

(** The layer can be reported as empty: it is none of the reserved ones. *)
Definition reportable_layer (name : string) : bool :=
  negb (existsb (String.eqb (lower name)) ["0"; "defpoints"]%string).

(** A layer declared in a drawing whose only entity on it sits inside a
    block placed on layer 0. *)
Definition layer_used_in_block : document :=
  Document ["0"; "Defpoints"; "FUROS"]%string
    [Insert "0" ([Circle "FUROS" (Some (point 0 0)) (Some 1)], None)].

(** The points of the list up to the first absent one: those the loop over
    the points folds into the box before it is interrupted. *)
Fixpoint present_prefix (points : list (option Point2)) : list Point2 :=
  match points with
  | Some p :: rest => p :: present_prefix rest
  | _ => []
  end.

(** The points an entity adds to the box. *)
Definition contributed_points (e : entity) : list Point2 :=
  match entity_points e with
  | Some (inr points) => present_prefix points
  | _ => []
  end.

Definition initial_box : bbox_t := (PosInf, NegInf, PosInf, NegInf).

(** One round of the loop over the points. *)
Definition grow (b : bbox_t) (p : Point2) : bbox_t :=
  let '(min_x, max_x, min_y, max_y) := b in
  (py_min min_x (Fin (fst p)), py_max max_x (Fin (fst p)),
   py_min min_y (Fin (snd p)), py_max max_y (Fin (snd p))).

(** The box is finite, holds every point of the list, and each of its
    four sides passes through a point of the list. *)
Definition spans (pts : list Point2) (b : bbox_t) : Prop :=
  exists x0 x1 y0 y1,
    b = (Fin x0, Fin x1, Fin y0, Fin y1)
    /\ (forall p, In p pts ->
                  x0 <= fst p /\ fst p <= x1 /\ y0 <= snd p /\ snd p <= y1)
    /\ (exists p, In p pts /\ fst p = x0)
    /\ (exists p, In p pts /\ fst p = x1)
    /\ (exists p, In p pts /\ snd p = y0)
    /\ (exists p, In p pts /\ snd p = y1).

(** A line, a polyline and a text to measure. *)
Definition lines_and_polyline : modelspace :=
  [line (point 0 0) (point 4 1);
   Poly LWPOLYLINE "0" (ret [(-3, 5); (1, 7)]) false; Other "TEXT" "0"].

(** Every matched circle has a matched partner symmetric to it. *)
Definition partnered (tolerance : Q) (relative_positions : list position)
    (matched : list bool) : Prop :=
  forall i,
    nth i matched false = true ->
    exists j,
      (j < length relative_positions)%nat /\ j <> i
      /\ nth j matched false = true
      /\ is_symmetric_pair tolerance
           (nth i relative_positions no_position)
           (nth j relative_positions no_position) = true.

(** A plate with two mirrored pairs of holes and one hole on the centre. *)
Definition centred_holes : modelspace :=
  plate_outline ++ four_holes ++ [circle 0 0 2].

Definition has_center (e : entity) : bool :=
  match e with
  | Circle _ (Some _) _ => true
  | _ => false
  end.

(** The drawings on which the hole check goes through: fewer than two
    circles, or no entity that raises past the [except] of the extent
    calculator and then either no entity with data or a centre on every
    circle. *)
Definition symmetry_check_returns (msp : modelspace) : bool :=
  let flat := get_flattend_entities (Some msp) in
  let holes := filter (is_type T_CIRCLE) flat in
  (length holes <? 2)%nat
  || (negb (existsb escapes_bbox flat)
      && (forallb skipped_by_bbox flat || forallb has_center holes)).

(** The names of the five checks, in the order of the report. *)
Definition check_names : list string :=
  ["Composição do Desenho"; "Análise de Camadas"; "Linhas Sobrepostas";
   "Verificação de Contorno"; "Verificação de Furos"]%string.

(** ** Status of a file and summary dashboard *)

Definition status_eqb (a b : status_t) : bool :=
  match a, b with
  | OK, OK | ALERTA, ALERTA | ERRO, ERRO
  | FURO_SEM_SIMETRIA, FURO_SEM_SIMETRIA => true
  | _, _ => false
  end.

(** [res['status']]: a check result is a dictionary; the message stored
    under [load_error] is a string, which cannot be indexed by a string. *)
Definition result_status (res : result_value) : M status_t :=
  match res with
  | Check r => ret (status r)
  | Message _ => raise TypeError "string indices must be integers, not 'str'"
  end.

(** [{res['status'] for res in file_results.values()}] *)
Definition statuses_of (file_results : list (string * result_value))
  : M (list status_t) :=
  mapM result_status (map snd file_results).

(** The status of a file, as [update_ui_with_results] and
    [export_to_excel] compute it from the results of its checks. *)
Definition overall_status (file_results : list (string * result_value))
  : M status_t :=
  statuses <- statuses_of file_results ;;
  ret (if existsb (status_eqb ERRO) statuses then ERRO
       else if existsb (status_eqb FURO_SEM_SIMETRIA) statuses
       then FURO_SEM_SIMETRIA
       else if existsb (status_eqb ALERTA) statuses then ALERTA
       else OK).

(** What [update_summary_dashboard] writes on the window: the label of the
    total, the text of the four buttons, whether the three search buttons
    are enabled, and the three search positions it resets. *)
Record dashboard : Type := Dashboard {
  total_var : string;
  ok_button_text : string;
  error_button_text : string;
  error_button_enabled : bool;
  alert_button_text : string;
  alert_button_enabled : bool;
  symmetry_button_text : string;
  symmetry_button_enabled : bool;
  last_error_iid : option string;
  last_alert_iid : option string;
  last_symmetry_iid : option string
}.

(** The loop [for results in self.analysis_data.values()]; the counters are
    [ok_count], [alert_count], [error_count] and [symmetry_count]. *)
Fixpoint count_files (values : list (list (string * result_value)))
    (counts : nat * nat * nat * nat) : M (nat * nat * nat * nat) :=
  match values with
  | [] => ret counts
  | results :: rest =>
      let '(ok_count, alert_count, error_count, symmetry_count) := counts in
      statuses <- statuses_of results ;;
      count_files rest
        (if existsb (status_eqb ERRO) statuses
         then (ok_count, alert_count, S error_count, symmetry_count)
         else if existsb (status_eqb FURO_SEM_SIMETRIA) statuses
         then (ok_count, alert_count, error_count, S symmetry_count)
         else if existsb (status_eqb ALERTA) statuses
         then (ok_count, S alert_count, error_count, symmetry_count)
         else (S ok_count, alert_count, error_count, symmetry_count))
  end.

Definition update_summary_dashboard
    (analysis_data : list (string * list (string * result_value)))
  : M dashboard :=
  let total_files := length analysis_data in
  counts <- count_files (map snd analysis_data) (0, 0, 0, 0)%nat ;;
  let '(ok_count, alert_count, error_count, symmetry_count) := counts in
  ret (Dashboard
         ("Analisados: " ++ str_of_nat total_files)%string
         ("✅ OK: " ++ str_of_nat ok_count)%string
         ("❌ Erros: " ++ str_of_nat error_count)%string
         (0 <? error_count)%nat
         ("⚠️ Atenção: " ++ str_of_nat alert_count)%string
         (0 <? alert_count)%nat
         ("🔵 Sem Simetria: " ++ str_of_nat symmetry_count)%string
         (0 <? symmetry_count)%nat
         None None None).

(** ** Batch analysis *)

Section Sorting.
Context {A : Type} (before : A -> A -> bool).

(** Insertion into a sorted list, after the elements that come strictly
    before [x]. *)
Fixpoint insert_sorted (x : A) (l : list A) : list A :=
  match l with
  | [] => [x]
  | y :: r => if before y x then y :: insert_sorted x r else x :: l
  end.

(** A stable sort, as [list.sort] and [sorted] are: elements that compare
    equal keep their order. *)
Fixpoint py_sorted (l : list A) : list A :=
  match l with
  | [] => []
  | x :: r => insert_sorted x (py_sorted r)
  end.
End Sorting.

(** The order of [dxf_files.sort(key=lambda p: p.stat().st_mtime,
    reverse=True)] on files paired with their modification time. *)
Definition newer_first (a b : Path * Q) : bool := Qltb (snd b) (snd a).

(** What the worker hands over to the window. *)
Inductive analysis_outcome : Type :=
| NoDxfFound
| ResultsForUi (all_results : list (Path * list (string * result_value))).

(** [run_analysis_logic]; [dxf_files] is what [path.glob('[!~$]*.dxf')]
    lists, each file with the modification time [stat] reports for it. *)
Definition run_analysis_logic (fs : filesystem) (dxf_files : list (Path * Q))
  : M analysis_outcome :=
  if negb (truthy dxf_files) then ret NoDxfFound
  else
    let dxf_files := py_sorted newer_first dxf_files in
    all_results_for_ui <-
      mapM (fun file =>
              file_results <- check_drawing fs (fst file) ;;
              ret (fst file, file_results))
        dxf_files ;;
    ret (ResultsForUi all_results_for_ui).

(** ** Hole summary and plot view *)

(** [sep.join(l)] *)
Fixpoint join (sep : string) (l : list string) : string :=
  match l with
  | [] => EmptyString
  | [s] => s
  | s :: r => (s ++ sep ++ join sep r)%string
  end.

(** [(d1, c1) < (d2, c2)] on the items of the counter of diameters. *)
Definition item_ltb (a b : Q * nat) : bool :=
  if negb (Qeq_bool (fst a) (fst b)) then Qltb (fst a) (fst b)
  else (snd a <? snd b)%nat.

(** [a * b] *)
Definition fmul (a b : pyfloat) : pyfloat :=
  match a, b with
  | NaN, _ | _, NaN => NaN
  | Fin p, Fin q => Fin (p * q)
  | Fin p, PosInf | PosInf, Fin p =>
      match Qcompare p 0 with Eq => NaN | Gt => PosInf | Lt => NegInf end
  | Fin p, NegInf | NegInf, Fin p =>
      match Qcompare p 0 with Eq => NaN | Gt => NegInf | Lt => PosInf end
  | PosInf, PosInf | NegInf, NegInf => PosInf
  | PosInf, NegInf | NegInf, PosInf => NegInf
  end.

(** What [_get_hole_summary] returns: a text for the plot, or the number of
    holes and the text of the diameters for the spreadsheet. *)
Inductive hole_summary : Type :=
| SummaryText (text : string)
| SummaryExcel (total_holes : nat) (diameter_str : string).

(** The calls [_adjust_plot_view] completes on the axes, in order; the
    colours, the font size and the padding are constants. *)
Inductive ax_call : Type :=
| set_title (label : string)
| set_xlim (left right : pyfloat)
| set_ylim (bottom top : pyfloat)
| set_aspect_equal
| tick_params
| set_edgecolor_of_spines.

(** [set_xlim] and [set_ylim] raise [ValueError] on a limit that is NaN
    or infinite. *)
Definition accepted_limits (a b : pyfloat) : bool :=
  match a, b with
  | Fin _, Fin _ => true
  | _, _ => false
  end.

Section Formatting.
(** [f"{diameter}"] on a float and [f"{x:.2f}"]. *)
Variable float_str : Q -> string.
Variable float_2f : pyfloat -> string.

Definition blank_summary (for_excel : bool) : hole_summary :=
  if negb for_excel then SummaryText EmptyString
  else SummaryExcel 0 EmptyString.

Definition _get_hole_summary (msp : modelspace) (for_excel : bool)
  : hole_summary :=
  try_except
    (let all_entities := get_flattend_entities (Some msp) in
     diameters <-
       mapM (fun entity =>
               match dxf_radius entity with
               | None =>
                   raise TypeError
                     "unsupported operand type(s) for *: 'NoneType' and 'int'"
               | Some radius => ret (py_round_nd (radius * 2) 2)
               end)
         (filter (is_type T_CIRCLE) all_entities) ;;
     if negb (truthy diameters) then ret (blank_summary for_excel)
     else
       let diameter_counts := Counter Qeq_bool diameters in
       if for_excel then
         let total_holes := list_sum (map snd diameter_counts) in
         let diameter_str :=
           join ", "
             (map (fun item =>
                     (str_of_nat (snd item) ++ "x" ++ float_str (fst item))
                     %string)
                (py_sorted item_ltb diameter_counts)) in
         ret (SummaryExcel total_holes diameter_str)
       else
         let summary_parts :=
           map (fun item =>
                  (str_of_nat (snd item) ++ "x Ø"
                   ++ float_2f (Fin (fst item)))%string)
             (py_sorted item_ltb diameter_counts) in
         ret (SummaryText ("Furos: " ++ join ", " summary_parts)%string))
    (fun _ => blank_summary for_excel).

Definition _adjust_plot_view (geo_props : props_t)
    (hole_summary_text piece_name : string) : list ax_call * option exn :=
  let title_lines :=
    [("Peça: " ++ piece_name)%string;
     ("Largura: " ++ float_2f (width geo_props) ++ " | Altura: "
      ++ float_2f (height geo_props))%string]
    ++ (if negb (String.eqb hole_summary_text EmptyString)
        then [hole_summary_text] else []) in
  let title := [set_title (join newline title_lines)] in
  let rest := [set_aspect_equal; tick_params; set_edgecolor_of_spines] in
  match extents geo_props with
  | Some (min_x, max_x, min_y, max_y) =>
      let width := width geo_props in
      let height := height geo_props in
      let center_x := fhalf (fadd min_x max_x) in
      let center_y := fhalf (fadd min_y max_y) in
      let view_size := py_max width height in
      let margin := fmul view_size (Fin 0.1) in
      let left := fsub (fsub center_x (fhalf view_size)) margin in
      let right := fadd (fadd center_x (fhalf view_size)) margin in
      let bottom := fsub (fsub center_y (fhalf view_size)) margin in
      let top := fadd (fadd center_y (fhalf view_size)) margin in
      if negb (accepted_limits left right)
      then (title, Some (Exn ValueError "Axis limits cannot be NaN or Inf"))
      else if negb (accepted_limits bottom top)
      then (title ++ [set_xlim left right],
            Some (Exn ValueError "Axis limits cannot be NaN or Inf"))
      else (title ++ [set_xlim left right; set_ylim bottom top] ++ rest,
            None)
  | None => (title ++ rest, None)
  end.
End Formatting.

(** ** Search by status *)

(** [needle in hay] on strings. *)
Fixpoint contains (needle hay : string) : bool :=
  if String.prefix needle hay then true
  else match hay with
       | EmptyString => false
       | String _ rest => contains needle rest
       end.

(** [l.index(x)] where [x] is in [l]. *)
Fixpoint index (x : string) (l : list string) : nat :=
  match l with
  | [] => 0
  | y :: r => if String.eqb y x then 0 else S (index x r)
  end.

(** The rows of the tree that [find_next_by_status] reads: the top-level
    rows in display order, each with the first column of its child rows. *)
Definition tree_rows : Type := list (string * list string).

(** The loop [for i in range(len(all_files))]: the row it stops at. *)
Fixpoint search_rows (tree : tree_rows) (status_to_find : string)
    (start_index : nat) (range : list nat) : option string :=
  match range with
  | [] => None
  | i :: rest =>
      let current_index := ((start_index + i) mod length tree)%nat in
      let parent := nth current_index tree (EmptyString, []) in
      if existsb (contains status_to_find) (snd parent)
      then Some (fst parent)
      else search_rows tree status_to_find start_index rest
  end.

(** [find_next_by_status]: the row it selects and stores as the last one
    found, [None] when it leaves the window as it is. *)
Definition find_next_by_status (tree : tree_rows) (status_to_find : string)
    (last_iid : option string) : option string :=
  let all_files := map fst tree in
  if negb (truthy all_files) then None
  else
    let start_index :=
      match last_iid with
      | Some iid =>
          if negb (String.eqb iid EmptyString)
             && existsb (String.eqb iid) all_files
          then ((index iid all_files + 1) mod length all_files)%nat
          else 0%nat
      | None => 0%nat
      end in
    search_rows tree status_to_find start_index (seq 0 (length all_files)).

(** The order of severity the status of a file follows. *)
Definition severity (s : status_t) : nat :=
  match s with
  | OK => 0
  | ALERTA => 1
  | FURO_SEM_SIMETRIA => 2
  | ERRO => 3
  end.

Definition is_check (v : result_value) : bool :=
  match v with
  | Check _ => true
  | Message _ => false
  end.

(** Every entry of the results of a file is the result of a check. *)
Definition all_checks (file_results : list (string * result_value)) : bool :=
  forallb (fun kv => is_check (snd kv)) file_results.

(** The worst of a set of statuses. *)
Definition worst (statuses : list status_t) : status_t :=
  if existsb (status_eqb ERRO) statuses then ERRO
  else if existsb (status_eqb FURO_SEM_SIMETRIA) statuses
  then FURO_SEM_SIMETRIA
  else if existsb (status_eqb ALERTA) statuses then ALERTA
  else OK.

(** The number of files whose status is [s]. *)
Definition files_with (s : status_t)
    (values : list (list (string * result_value))) : nat :=
  length (filter (fun results =>
                    match overall_status results with
                    | inr s' => status_eqb s s'
                    | inl _ => false
                    end)
            values).

Definition string_index_error : exn :=
  Exn TypeError "string indices must be integers, not 'str'".

(** The results of two checks of one file, and of three files. *)
Definition two_results : list (string * result_value) :=
  [("Linhas Sobrepostas"%string, Check (Result ALERTA "2 linha(s)" DNone));
   ("Verificação de Contorno"%string, Check (Result ERRO "aberto" DNone));
   ("Verificação de Furos"%string, Check (Result OK "simetria" DNone))].

Definition three_files : list (string * list (string * result_value)) :=
  [("a.dxf"%string, two_results);
   ("b.dxf"%string,
    [("Verificação de Furos"%string, Check (Result OK "simetria" DNone))]);
   ("c.dxf"%string,
    [("Verificação de Furos"%string,
      Check (Result FURO_SEM_SIMETRIA "1 furo" DNone))])].

(** A folder where no file can be read. *)
Definition unreadable : filesystem := fun _ => None.

(** The circles of a drawing, blocks expanded. *)
Definition holes_of (msp : modelspace) : list entity :=
  filter (is_type T_CIRCLE) (get_flattend_entities (Some msp)).

Definition has_radius (e : entity) : bool :=
  match dxf_radius e with
  | Some _ => true
  | None => false
  end.

(** [round(entity.dxf.radius * 2, 2)] for a circle that has a radius. *)
Definition rounded_diameter (e : entity) : Q :=
  match dxf_radius e with
  | Some radius => py_round_nd (radius * 2) 2
  | None => 0
  end.

(** Formatters to evaluate the examples with. They print a float with at
    most two decimals as Python does, the sign of a negative zero and the
    exponent form apart. *)
Definition two_digits (n : nat) : string :=
  (if (n <? 10)%nat then "0" ++ str_of_nat n else str_of_nat n)%string.

Definition sample_2f (x : pyfloat) : string :=
  (match x with
   | NaN => "nan"
   | PosInf => "inf"
   | NegInf => "-inf"
   | Fin q =>
       let c := py_round (q * 100) in
       let a := Z.to_nat (Z.abs c) in
       (if (c <? 0)%Z then "-" else EmptyString)
       ++ str_of_nat (a / 100) ++ "." ++ two_digits (a mod 100)
   end)%string.

Definition sample_str (q : Q) : string :=
  (let c := py_round (q * 100) in
   let a := Z.to_nat (Z.abs c) in
   (if (c <? 0)%Z then "-" else EmptyString)
   ++ str_of_nat (a / 100) ++ "."
   ++ (if (a mod 10 =? 0)%nat then str_of_nat (a mod 100 / 10)
       else two_digits (a mod 100)))%string.

Definition hollow_polyline : modelspace := [empty_polyline].

(** The files of a folder: a sound plate and a drawing whose spline cannot
    be sampled; [listing] names the plate and a file that cannot be read,
    with their modification times. *)
Definition plate_path : Path := MkPath "/desenhos" "chapa.dxf".
Definition broken_path : Path := MkPath "/desenhos" "furo.dxf".

Definition folder : filesystem :=
  fun p =>
    if path_eqb p plate_path then Some (Document ["0"%string] centred_holes)
    else if path_eqb p broken_path then Some holes_and_broken_spline
    else None.

Definition listing : list (Path * Q) :=
  [(plate_path, 100); (some_path, 300)].

(** Some child row of the file row shows the status. *)
Definition row_matches (status_to_find : string) (row : string * list string)
  : bool :=
  existsb (contains status_to_find) (snd row).

(** ** Rounding to four decimal places, in the words of the specification *)

(** [k] is the integer nearest to [y], the even one of the two when [y]
    lies half-way between two integers. *)
Definition nearest_integer (y : Q) (k : Z) : Prop :=
  Qabs (y - inject_Z k) <= 1 # 2
  /\ (Qabs (y - inject_Z k) == 1 # 2 -> Z.even k = true).

(** [k] ten-thousandths is the coordinate [x] rounded to four decimal
    places. *)
Definition rounds_to_4dp (x : Q) (k : Z) : Prop :=
  nearest_integer (x * 10000) k.

(** The three coordinates of a point, rounded. *)
Definition point_rounds_to (p : Vec3) (k : Z * Z * Z) : Prop :=
  rounds_to_4dp (vx p) (fst (fst k))
  /\ rounds_to_4dp (vy p) (snd (fst k))
  /\ rounds_to_4dp (vz p) (snd k).

(** The rounded end points of the two segments are the same unordered
    pair. *)
Definition duplicate_segments (s t : Vec3 * Vec3) : Prop :=
  exists a b c d,
    point_rounds_to (fst s) a /\ point_rounds_to (snd s) b
    /\ point_rounds_to (fst t) c /\ point_rounds_to (snd t) d
    /\ ((a = c /\ b = d) \/ (a = d /\ b = c)).

(** After rounding, each segment starts where the other one ends. *)
Definition reversed_segments (s t : Vec3 * Vec3) : Prop :=
  exists a b,
    point_rounds_to (fst s) a /\ point_rounds_to (snd s) b
    /\ point_rounds_to (fst t) b /\ point_rounds_to (snd t) a.

(** A line, a second one that is its reverse once the coordinates are
    rounded, and a third one that is not. *)
Definition near_reversed_lines : modelspace :=
  [line (V3 0.00001 0 0) (V3 10 0 0); line (V3 10.00004 0 0) (V3 0 0 0);
   line (V3 0 0 0) (V3 10.0002 0 0)].

(** The rounded coordinates of a point as the detector computes them, in
    ten-thousandths. *)
Definition key4 (v : Vec3) : Z * Z * Z :=
  (py_round (vx v * 10000), py_round (vy v * 10000), py_round (vz v * 10000)).

(** ** The pairing of holes, in the words of the specification *)

(** The position of a centre relative to the point ([cx], [cy]). *)
Definition relative_to (cx cy : Q) (c : Vec3) : Q * Q :=
  (vx c - cx, vy c - cy).

(** [q] is the negation of [p] within the tolerance on each axis. *)
Definition mirrored (tolerance : Q) (p q : Q * Q) : bool :=
  negb (Qle_bool tolerance (Qabs (fst p + fst q)))
  && negb (Qle_bool tolerance (Qabs (snd p + snd q))).

(** [p] is within the tolerance of the origin on each axis. *)
Definition on_centre (tolerance : Q) (p : Q * Q) : bool :=
  negb (Qle_bool tolerance (Qabs (fst p)))
  && negb (Qle_bool tolerance (Qabs (snd p))).

(** The first circle among [candidates] that is not paired yet and mirrors
    circle [i]. *)
Fixpoint first_partner (tolerance : Q) (positions : list (Q * Q))
    (paired : list nat) (i : nat) (candidates : list nat) : option nat :=
  match candidates with
  | [] => None
  | j :: rest =>
      if negb (existsb (Nat.eqb j) paired)
         && mirrored tolerance (nth i positions (0, 0))
              (nth j positions (0, 0))
      then Some j
      else first_partner tolerance positions paired i rest
  end.

(** The greedy pass: the circles are visited in their original order; a
    circle not paired yet takes the first later circle, not paired yet,
    that mirrors it.  The result lists the paired circles. *)
Fixpoint greedy_pairs (tolerance : Q) (positions : list (Q * Q))
    (order : list nat) (paired : list nat) : list nat :=
  match order with
  | [] => paired
  | i :: rest =>
      if existsb (Nat.eqb i) paired
      then greedy_pairs tolerance positions rest paired
      else
        match first_partner tolerance positions paired i
                (seq (i + 1) (length positions - (i + 1))) with
        | Some j => greedy_pairs tolerance positions rest (j :: i :: paired)
        | None => greedy_pairs tolerance positions rest paired
        end
  end.

(** The circles reported: those the greedy pass leaves unpaired and that
    are not on the centre. *)
Definition unpaired_off_centre (tolerance : Q) (positions : list (Q * Q))
  : list nat :=
  let n := length positions in
  let paired := greedy_pairs tolerance positions (seq 0 n) [] in
  filter
    (fun i =>
       negb (existsb (Nat.eqb i) paired)
       && negb (on_centre tolerance (nth i positions (0, 0))))
    (seq 0 n).

(** A plate from (100, 200) to (120, 220) with four holes at (+-5, +-5)
    from its centre, and the same plate with a fifth hole at (3, 7) from
    the centre. *)
Definition shifted_outline : modelspace :=
  segment_lines
    (loop_segments
       [point 100 200; point 120 200; point 120 220; point 100 220]).

Definition shifted_four_holes : modelspace :=
  shifted_outline
  ++ [circle 115 215 1; circle 105 215 1; circle 115 205 1;
      circle 105 205 1].

Definition shifted_five_holes : modelspace :=
  shifted_four_holes ++ [circle 113 217 1].

(** The positions of the model for rational positions. *)
Definition finite_position (p : Q * Q) : position :=
  (Fin (fst p), Fin (snd p)).

(** The flags of the model and the list of the specification mark the same
    circles among [n]. *)
Definition same_marks (n : nat) (matched : list bool) (paired : list nat)
  : Prop :=
  length matched = n
  /\ forall k, nth k matched false = existsb (Nat.eqb k) paired.

(** * Properties *)

(** ** Entity flattener *)

(** One level of block references is expanded. *)
Lemma flatten_one_level (msp : modelspace) :
  forallb resolves msp = true ->
  forallb (fun e => negb (is_type T_INSERT e)) (flat_map yielded_by msp)
    = true ->
  forallb (fun e => negb (is_type T_INSERT e))
    (get_flattend_entities (Some msp)) = true.
Proof.
  unfold get_flattend_entities.
  induction msp as [|e msp IH]; cbn [flat_map forallb]; intros Hres Hin;
    [reflexivity|].
  apply andb_prop in Hres as [He Hres].
  rewrite forallb_app in Hin. apply andb_prop in Hin as [Hy Hin].
  rewrite forallb_app, (IH Hres Hin), andb_true_r.
  destruct e as [l s t|l c r|k l f|k l g cl|l [content [ex|]]|n l];
    try reflexivity; try discriminate; try (destruct k; reflexivity).
  exact Hy.
Qed.

(** Flattening a model space without block references returns it. *)
Lemma flatten_without_blocks (msp : modelspace) :
  forallb (fun e => negb (is_type T_INSERT e)) msp = true ->
  get_flattend_entities (Some msp) = msp.
Proof.
  unfold get_flattend_entities.
  induction msp as [|e msp IH]; cbn [flat_map forallb]; intros H;
    [reflexivity|].
  apply andb_prop in H as [He H]. rewrite (IH H).
  destruct e as [l s t|l c r|k l f|k l g cl|l [content [ex|]]|n l];
    try reflexivity; discriminate.
Qed.

(** C3, at the failing input: a block reference placed inside a block
    resolves, and the flattened list still holds the inner block reference;
    the line it refers to is not reached. *)
Theorem flatten_keeps_nested_block :
  forallb resolves nested_blocks = true
  /\ forallb resolves (flat_map yielded_by nested_blocks) = true
  /\ get_flattend_entities (Some nested_blocks)
     = [block [line (point 0 0) (point 1 0)]]
  /\ existsb (is_type T_INSERT) (get_flattend_entities (Some nested_blocks))
     = true
  /\ existsb (is_type T_LINE) (get_flattend_entities (Some nested_blocks))
     = false.
Proof. repeat split. Qed.

(** ** Closed-contour verifier: eligibility *)

Lemma truthy_filter {A : Type} (f : A -> bool) (l : list A) :
  truthy (filter f l) = existsb f l.
Proof.
  induction l as [|a l IH]; simpl; [reflexivity|].
  destruct (f a); simpl; [reflexivity|exact IH].
Qed.

Lemma collect_endpoints_lines_only (tol : Q) (ents : list entity) :
  forall eps ap,
    collect_endpoints tol ents eps ap
    = collect_endpoints tol (filter (is_type T_LINE) ents) eps ap.
Proof.
  induction ents as [|e ents IH]; intros eps ap; [reflexivity|].
  cbn [collect_endpoints filter].
  destruct (is_type T_LINE e) eqn:He.
  - cbn [collect_endpoints]. rewrite He.
    destruct (normalize_point tol (dxf_start e)) as [ex|ns]; [reflexivity|].
    destruct (normalize_point tol (dxf_end e)) as [ex|ne]; [reflexivity|].
    cbn [bind]. apply IH.
  - apply IH.
Qed.

Lemma filter_line_eligible (l : list entity) :
  filter (is_type T_LINE) (filter contour_eligible l)
  = filter (is_type T_LINE) l.
Proof.
  induction l as [|e l IH]; [reflexivity|].
  cbn [filter]. unfold contour_eligible at 1.
  destruct (is_type T_LINE e) eqn:He; cbn [orb filter].
  - rewrite He, IH. reflexivity.
  - destruct (is_type T_LWPOLYLINE e); cbn [filter]; [rewrite He|]; exact IH.
Qed.

Lemma filter_none {A : Type} (f : A -> bool) (l : list A) :
  existsb f l = false -> filter f l = [].
Proof.
  induction l as [|a l IH]; simpl; [reflexivity|].
  destruct (f a); simpl; [discriminate|exact IH].
Qed.

(** The verdict of the verifier, once some entity is eligible, is computed
    from the [LINE] entities alone. *)
Lemma check_closed_geometry_on_lines (msp : modelspace) (tol : Q) :
  existsb contour_eligible (get_flattend_entities (Some msp)) = true ->
  check_closed_geometry msp tol
  = try_except
      (collected <-
         collect_endpoints tol
           (filter (is_type T_LINE) (get_flattend_entities (Some msp)))
           [] [] ;;
       let open_normalized_points :=
         odd_keys (Counter key_eqb (fst collected)) in
       if truthy open_normalized_points
       then
         open_points_coords <-
           mapM (fun p => dict_get key_eqb p (snd collected))
             open_normalized_points ;;
         ret (Result ERRO
                ("Contorno aberto! "
                 ++ str_of_nat (length open_points_coords)
                 ++ " pontos soltos.")%string
                (DPoints open_points_coords))
       else ret (Result OK "O contorno da peça está fechado." DNone))
      (fun e => Result ERRO ("Falha: " ++ exn_msg e)%string DNone).
Proof.
  intros Hel. unfold check_closed_geometry.
  fold contour_eligible.
  change (fun e => is_type T_LINE e || is_type T_LWPOLYLINE e)
    with contour_eligible.
  rewrite truthy_filter, Hel. cbn [negb].
  rewrite collect_endpoints_lines_only, filter_line_eligible.
  reflexivity.
Qed.

(** C7, as amended: the verifier answers [ALERTA] exactly when the flattened
    set holds neither a [LINE] nor an [LWPOLYLINE]; a set with an
    [LWPOLYLINE] and no [LINE] is answered [OK]; and two sets with the same
    [LINE] entities and some eligible entity get the same answer. *)
Theorem check_closed_geometry_eligibility (msp : modelspace) (tol : Q) :
  (existsb contour_eligible (get_flattend_entities (Some msp)) = false ->
   check_closed_geometry msp tol
   = Result ALERTA "Nenhum contorno para analisar." DNone)
  /\ (existsb contour_eligible (get_flattend_entities (Some msp)) = true ->
      status (check_closed_geometry msp tol) <> ALERTA)
  /\ (existsb (is_type T_LINE) (get_flattend_entities (Some msp)) = false ->
      existsb (is_type T_LWPOLYLINE) (get_flattend_entities (Some msp))
        = true ->
      check_closed_geometry msp tol
      = Result OK "O contorno da peça está fechado." DNone)
  /\ (forall msp',
        filter (is_type T_LINE) (get_flattend_entities (Some msp))
        = filter (is_type T_LINE) (get_flattend_entities (Some msp')) ->
        existsb contour_eligible (get_flattend_entities (Some msp)) = true ->
        existsb contour_eligible (get_flattend_entities (Some msp')) = true ->
        check_closed_geometry msp tol = check_closed_geometry msp' tol).
Proof.
  repeat split.
  - intros Hno. unfold check_closed_geometry.
    change (fun e => is_type T_LINE e || is_type T_LWPOLYLINE e)
      with contour_eligible.
    rewrite truthy_filter, Hno. reflexivity.
  - intros Hel. rewrite (check_closed_geometry_on_lines _ _ Hel).
    destruct (collect_endpoints tol _ [] []) as [ex|[eps ap]];
      cbn [try_except bind fst snd status]; [discriminate|].
    destruct (truthy (odd_keys (Counter key_eqb eps))).
    + destruct (mapM _ _); cbn; discriminate.
    + cbn; discriminate.
  - intros Hline Hpoly.
    rewrite check_closed_geometry_on_lines.
    + rewrite (filter_none _ _ Hline). reflexivity.
    + apply existsb_exists. apply existsb_exists in Hpoly as [e [Hin He]].
      exists e. split; [exact Hin|]. unfold contour_eligible.
      rewrite He. apply orb_true_r.
  - intros msp' Hsame H1 H2.
    rewrite (check_closed_geometry_on_lines _ _ H1),
      (check_closed_geometry_on_lines _ _ H2), Hsame.
    reflexivity.
Qed.

Lemma check_closed_geometry_eligibility_witness :
  check_closed_geometry [circle 0 0 1] TOLERANCIA_GEOMETRIA
  = Result ALERTA "Nenhum contorno para analisar." DNone
  /\ check_closed_geometry [empty_polyline; circle 0 0 1] TOLERANCIA_GEOMETRIA
     = Result OK "O contorno da peça está fechado." DNone.
Proof.
  split.
  - apply (proj1 (check_closed_geometry_eligibility
                    [circle 0 0 1] TOLERANCIA_GEOMETRIA)).
    reflexivity.
  - apply (proj1 (proj2 (proj2 (check_closed_geometry_eligibility
                    [empty_polyline; circle 0 0 1] TOLERANCIA_GEOMETRIA))));
      reflexivity.
Defined.

(** C7, the claim as stated fails: a flattened set without any [LINE] is
    answered [OK], not [ALERTA], when it holds an [LWPOLYLINE]. *)
Lemma check_closed_geometry_polyline_only :
  existsb (is_type T_LINE) (get_flattend_entities (Some [empty_polyline]))
  = false
  /\ status (check_closed_geometry [empty_polyline] TOLERANCIA_GEOMETRIA)
     = OK.
Proof. split; reflexivity. Qed.

(** ** Geometry extent calculator *)

Lemma extend_bbox_trapped (points : list (option Point2)) :
  forall b b' e,
    extend_bbox points b = (b', Some e) -> trapped_by_bbox e = true.
Proof.
  induction points as [|[[p0 p1]|] points IH]; intros b b' e H.
  - discriminate.
  - cbn [extend_bbox] in H. destruct b as [[[mx Mx] my] My].
    exact (IH _ _ _ H).
  - inversion H. reflexivity.
Qed.

(** The loop of [_calculate_manual_bbox] when no entity raises past the
    [except]: it ends, and [has_data] is set as soon as one entity reached
    the assignment [has_data = True]. *)
Lemma bbox_loop_returns (ents : list entity) :
  existsb escapes_bbox ents = false ->
  forall b hd,
    exists b',
      bbox_loop ents b hd
      = ret (b', hd || existsb (fun e => negb (skipped_by_bbox e)) ents).
Proof.
  induction ents as [|e ents IH]; intros Hesc b hd.
  - exists b. cbn. rewrite orb_false_r. reflexivity.
  - cbn [existsb] in Hesc. apply orb_false_elim in Hesc as [He Hesc].
    cbn [bbox_loop existsb]. unfold skipped_by_bbox at 1.
    unfold escapes_bbox in He.
    destruct (entity_points e) as [[ex|points]|].
    + apply negb_false_iff in He. rewrite He. cbn [negb orb].
      exact (IH Hesc b hd).
    + destruct (extend_bbox points b) as [b1 [ex|]] eqn:Hext.
      * rewrite (extend_bbox_trapped _ _ _ _ Hext).
        destruct (IH Hesc b1 true) as [b' Hb']. exists b'.
        rewrite Hb'. cbn. rewrite orb_true_r. reflexivity.
      * destruct (IH Hesc b1 true) as [b' Hb']. exists b'.
        rewrite Hb'. cbn. rewrite orb_true_r. reflexivity.
    + cbn [negb orb]. exact (IH Hesc b hd).
Qed.

(** The extent calculator returns [None] when every entity is skipped
    before [has_data] is set. *)
Lemma bbox_none_when_all_skipped (msp : modelspace) :
  forallb skipped_by_bbox (get_flattend_entities (Some msp)) = true ->
  _calculate_manual_bbox msp = ret None.
Proof.
  intros Hall. unfold _calculate_manual_bbox.
  destruct (truthy (get_flattend_entities (Some msp))); [|reflexivity].
  cbn [negb].
  assert (Hesc : existsb escapes_bbox (get_flattend_entities (Some msp))
                 = false).
  { apply not_true_is_false. intros H.
    apply existsb_exists in H as [e [Hin He]].
    rewrite forallb_forall in Hall. specialize (Hall e Hin).
    unfold escapes_bbox in He. unfold skipped_by_bbox in Hall.
    destruct (entity_points e) as [[ex|pts]|]; try discriminate.
    rewrite Hall in He. discriminate. }
  destruct (bbox_loop_returns _ Hesc (PosInf, NegInf, PosInf, NegInf) false)
    as [b' Hb'].
  rewrite Hb'. cbn [bind ret snd orb].
  replace (existsb (fun e => negb (skipped_by_bbox e))
             (get_flattend_entities (Some msp))) with false; [reflexivity|].
  symmetry. apply not_true_is_false. intros H.
  apply existsb_exists in H as [e [Hin He]].
  rewrite forallb_forall in Hall. rewrite (Hall e Hin) in He. discriminate.
Qed.

(** The extent of a single circle of radius 5 centred at the origin. *)
Lemma bbox_single_circle :
  _calculate_manual_bbox [circle 0 0 5]
  = ret (Some (Fin (-5), Fin 5, Fin (-5), Fin 5))
  /\ _get_geometric_properties [circle 0 0 5]
     = ret (Props (Fin 10) (Fin 10)
              (Some (Fin (-5), Fin 5, Fin (-5), Fin 5))).
Proof. split; reflexivity. Qed.

(** C8, at the failing input: a polyline without vertices, or a line
    without endpoints, contributes no point, and the extent calculator
    returns the initial box of infinities instead of [None]; the derived
    width and height are then minus infinity. *)
Theorem bbox_of_pointless_entity :
  entity_points empty_polyline = Some (ret [])
  /\ _calculate_manual_bbox [empty_polyline]
     = ret (Some (PosInf, NegInf, PosInf, NegInf))
  /\ _calculate_manual_bbox [Line "0" None None]
     = ret (Some (PosInf, NegInf, PosInf, NegInf))
  /\ _get_geometric_properties [empty_polyline]
     = ret (Props NegInf NegInf (Some (PosInf, NegInf, PosInf, NegInf))).
Proof. repeat split. Qed.

(** ** Drawing check orchestrator *)

(** A loaded drawing: the four checks that carry a [try] always produce a
    result, and an exception leaves [check_drawing] exactly when
    [check_hole_symmetry] raises it. *)
Lemma check_drawing_loaded (fs : filesystem) (filepath : Path)
    (doc : document) :
  readfile fs filepath = ret doc ->
  check_drawing fs filepath
  = (r5 <- check_hole_symmetry (doc_modelspace doc) 1e-2 ;;
     ret [("Composição do Desenho"%string,
           Check (summarize_entities (doc_modelspace doc)));
          ("Análise de Camadas"%string,
           Check (analyze_layers doc (doc_modelspace doc)));
          ("Linhas Sobrepostas"%string,
           Check (find_duplicate_lines (doc_modelspace doc) 4));
          ("Verificação de Contorno"%string,
           Check (check_closed_geometry (doc_modelspace doc)
                    TOLERANCIA_GEOMETRIA));
          ("Verificação de Furos"%string, Check r5)]).
Proof. intros H. unfold check_drawing. rewrite H. reflexivity. Qed.

(** A drawing that fails to load is reported, not raised. *)
Lemma check_drawing_load_error (fs : filesystem) (filepath : Path) (e : exn) :
  readfile fs filepath = inl e ->
  check_drawing fs filepath
  = ret [("load_error"%string,
          Message ("Falha Crítica ao carregar: " ++ exn_msg e)%string)].
Proof. intros H. unfold check_drawing. rewrite H. reflexivity. Qed.

(** C1, at the failing inputs: both drawings load; in the first a hole has
    no centre, in the second a spline cannot be sampled; in both the
    exception raised inside [check_hole_symmetry] leaves [check_drawing],
    and no result is returned for the file. *)
Theorem check_drawing_exception_escapes :
  readfile (one_file hole_without_center) some_path
  = ret hole_without_center
  /\ check_drawing (one_file hole_without_center) some_path
     = raise AttributeError "'NoneType' object has no attribute 'x'"
  /\ readfile (one_file holes_and_broken_spline) some_path
     = ret holes_and_broken_spline
  /\ check_drawing (one_file holes_and_broken_spline) some_path
     = raise ValueError "spline without control points".
Proof. repeat split. Qed.

(** ** Hole symmetry checker: the part centre *)

Lemma bbox_loop_has_data (ents : list entity) :
  forall b hd b' hd',
    bbox_loop ents b hd = ret (b', hd') ->
    hd' = hd || existsb (fun e => negb (skipped_by_bbox e)) ents.
Proof.
  induction ents as [|e ents IH]; intros b hd b' hd' H.
  - cbn in H. inversion H. rewrite orb_false_r. reflexivity.
  - cbn [bbox_loop existsb] in *. unfold skipped_by_bbox at 1.
    destruct (entity_points e) as [[ex|points]|].
    + destruct (trapped_by_bbox ex); [|discriminate].
      cbn [negb orb]. exact (IH _ _ _ _ H).
    + cbn [negb orb]. rewrite orb_true_r.
      destruct (extend_bbox points b) as [b1 [ex|]].
      * destruct (trapped_by_bbox ex); [|discriminate].
        rewrite (IH _ _ _ _ H). reflexivity.
      * rewrite (IH _ _ _ _ H). reflexivity.
    + cbn [negb orb]. exact (IH _ _ _ _ H).
Qed.

Lemma valid_circle_contributes (e : entity) :
  valid_circle e = true -> negb (skipped_by_bbox e) = true.
Proof.
  destruct e as [l s t|l [c|] [r|]|k l f|k l g cl|l ve|n l];
    try discriminate.
  reflexivity.
Qed.

Lemma mapM_hole_position (cx cy : pyfloat) (holes : list entity) :
  forallb valid_circle holes = true ->
  exists ps, mapM (hole_position cx cy) holes = ret ps.
Proof.
  induction holes as [|h holes IH]; intros Hv.
  - exists []. reflexivity.
  - cbn [forallb] in Hv. apply andb_prop in Hv as [Hh Hv].
    destruct (IH Hv) as [ps Hps].
    destruct h as [l s t|l [c|] [r|]|k l f|k l g cl|l ve|n l];
      try discriminate.
    eexists. cbn [mapM hole_position dxf_center bind ret].
    rewrite Hps. reflexivity.
Qed.

Lemma two_holes_one_contributes (ents : list entity) :
  (2 <=? length (filter (is_type T_CIRCLE) ents))%nat = true ->
  forallb valid_circle (filter (is_type T_CIRCLE) ents) = true ->
  truthy ents = true
  /\ existsb (fun e => negb (skipped_by_bbox e)) ents = true.
Proof.
  intros Hlen Hvalid.
  destruct (filter (is_type T_CIRCLE) ents) as [|h holes] eqn:Hf;
    [discriminate|].
  assert (Hin : In h (filter (is_type T_CIRCLE) ents))
    by (rewrite Hf; left; reflexivity).
  apply filter_In in Hin as [Hin _].
  cbn [forallb] in Hvalid. apply andb_prop in Hvalid as [Hh _].
  split.
  - destruct ents; [destruct Hin|reflexivity].
  - apply existsb_exists. exists h. split; [exact Hin|].
    exact (valid_circle_contributes h Hh).
Qed.

(** C10, as amended: with at least two circles, all of them carrying a
    centre and a radius, the extent calculator never returns [None] and the
    checker never answers [ALERTA]; when moreover no entity makes the extent
    calculator raise past its [except], the extent is found and the checker
    answers [OK] or [FURO SEM SIMETRIA]. *)
Theorem hole_symmetry_center_found (msp : modelspace) (tol : Q) :
  (2 <=? length (filter (is_type T_CIRCLE)
                   (get_flattend_entities (Some msp))))%nat = true ->
  forallb valid_circle
    (filter (is_type T_CIRCLE) (get_flattend_entities (Some msp))) = true ->
  _calculate_manual_bbox msp <> ret None
  /\ (forall r, check_hole_symmetry msp tol = ret r -> status r <> ALERTA)
  /\ (existsb escapes_bbox (get_flattend_entities (Some msp)) = false ->
      (exists b, _calculate_manual_bbox msp = ret (Some b))
      /\ exists r,
           check_hole_symmetry msp tol = ret r
           /\ (status r = OK \/ status r = FURO_SEM_SIMETRIA)).
Proof.
  intros Hlen Hvalid.
  destruct (two_holes_one_contributes _ Hlen Hvalid) as [Htruthy Hcontrib].
  assert (Hbbox : forall o, _calculate_manual_bbox msp = ret o -> o <> None).
  { intros o. unfold _calculate_manual_bbox. rewrite Htruthy. cbn [negb].
    destruct (bbox_loop _ _ _) as [ex|[b hd]] eqn:Hloop; [discriminate|].
    apply bbox_loop_has_data in Hloop. rewrite Hcontrib in Hloop.
    cbn in Hloop. subst hd. cbn. intros H. inversion H. discriminate. }
  assert (Hstatus : forall r,
             check_hole_symmetry msp tol = ret r ->
             status r = OK \/ status r = FURO_SEM_SIMETRIA).
  { intros r. unfold check_hole_symmetry.
    destruct (length _ <? 2)%nat.
    - intros H. inversion H. left. reflexivity.
    - destruct (_calculate_manual_bbox msp) as [ex|[[[[mx Mx] my] My]|]]
        eqn:Hb; cbn [bind].
      + discriminate.
      + destruct (mapM _ _) as [ex|ps]; cbn [bind]; [discriminate|].
        destruct (truthy (snd (pairing_pass tol ps))); cbn [negb];
          intros H; inversion H; [right|left]; reflexivity.
      + exfalso. exact (Hbbox None eq_refl eq_refl). }
  split; [|split].
  - intros H. exact (Hbbox None H eq_refl).
  - intros r Hr Hal. destruct (Hstatus r Hr) as [H|H];
      rewrite H in Hal; discriminate.
  - intros Hesc.
    assert (Hsome : exists b, _calculate_manual_bbox msp = ret (Some b)).
    { unfold _calculate_manual_bbox. rewrite Htruthy. cbn [negb].
      destruct (bbox_loop_returns _ Hesc (PosInf, NegInf, PosInf, NegInf)
                  false) as [b Hb].
      exists b. rewrite Hb, Hcontrib. reflexivity. }
    split; [exact Hsome|].
    destruct Hsome as [[[[mx Mx] my] My] Hb].
    assert (Hret : exists r, check_hole_symmetry msp tol = ret r).
    { unfold check_hole_symmetry. cbv zeta.
      destruct (length _ <? 2)%nat; [eexists; reflexivity|].
      rewrite Hb. cbn [bind ret].
      destruct (mapM_hole_position (fhalf (fadd mx Mx)) (fhalf (fadd my My))
                  _ Hvalid) as [ps Hps].
      rewrite Hps. cbn [bind ret]. eexists. reflexivity. }
    destruct Hret as [r Hr]. exists r. split; [exact Hr|].
    exact (Hstatus r Hr).
Qed.

Lemma hole_symmetry_center_found_witness :
  exists r,
    check_hole_symmetry [circle 5 0 1; circle (-5) 0 1] 1e-2 = ret r
    /\ (status r = OK \/ status r = FURO_SEM_SIMETRIA).
Proof.
  apply (hole_symmetry_center_found [circle 5 0 1; circle (-5) 0 1] 1e-2);
    reflexivity.
Defined.

(** C10, the claim as stated fails: two sound circles next to a spline that
    cannot be sampled; the extent calculator raises, and so does the
    checker, which returns no status at all. *)
Lemma hole_symmetry_raises_with_sound_circles :
  (2 <=? length (filter (is_type T_CIRCLE)
                   (get_flattend_entities
                      (Some (doc_modelspace holes_and_broken_spline)))))%nat
  = true
  /\ forallb valid_circle
       (filter (is_type T_CIRCLE)
          (get_flattend_entities
             (Some (doc_modelspace holes_and_broken_spline)))) = true
  /\ check_hole_symmetry (doc_modelspace holes_and_broken_spline) 1e-2
     = raise ValueError "spline without control points"
  /\ ~ (exists r,
          check_hole_symmetry (doc_modelspace holes_and_broken_spline) 1e-2
          = ret r).
Proof.
  repeat split. intros [r Hr]. discriminate Hr.
Qed.

(** ** Contour repair *)

Lemma path_eqb_eq (p q : Path) : path_eqb p q = true <-> p = q.
Proof.
  destruct p as [pp pn], q as [qp qn]. unfold path_eqb. cbn.
  rewrite andb_true_iff, !String.eqb_eq. split.
  - intros [-> ->]. reflexivity.
  - intros H. inversion H. split; reflexivity.
Qed.

Lemma rfind_get (c : ascii) (s : string) :
  forall i, rfind c s = Some i -> String.get i s = Some c.
Proof.
  induction s as [|a s IH]; intros i H; cbn in H; [discriminate|].
  destruct (rfind c s) as [j|].
  - inversion H. cbn. apply IH. reflexivity.
  - destruct (Ascii.eqb a c) eqn:Hac; [|discriminate].
    inversion H. apply Ascii.eqb_eq in Hac. subst. reflexivity.
Qed.

Lemma rfind_lt (c : ascii) (s : string) :
  forall i, rfind c s = Some i -> (i < String.length s)%nat.
Proof.
  induction s as [|a s IH]; intros i H; cbn in H; [discriminate|].
  destruct (rfind c s) as [j|].
  - inversion H. cbn. apply -> Nat.succ_lt_mono. apply IH. reflexivity.
  - destruct (Ascii.eqb a c); [|discriminate]. inversion H. cbn. lia.
Qed.

Lemma length_substring_0 (s : string) :
  forall i, (i <= String.length s)%nat ->
            String.length (substring 0 i s) = i.
Proof.
  induction s as [|a s IH]; intros [|i] H; cbn in *; try reflexivity;
    try lia.
  rewrite IH; [reflexivity|lia].
Qed.

Lemma get_append_at (a b : string) :
  String.get (String.length a) (a ++ b) = String.get 0 b.
Proof. induction a as [|c a IH]; cbn; [reflexivity|exact IH]. Qed.

Lemma length_append (a b : string) :
  String.length (a ++ b) = (String.length a + String.length b)%nat.
Proof. induction a as [|c a IH]; cbn; [reflexivity|rewrite IH; reflexivity]. Qed.

(** The repaired drawing never takes the name of the original. *)
Lemma corrected_name_differs (name : string) : corrected_name name <> name.
Proof.
  unfold corrected_name, stem. intros H.
  destruct (rfind "." name) as [i|] eqn:Hr.
  - destruct ((0 <? i) && (i <? String.length name - 1))%nat eqn:Hi.
    + pose proof (rfind_get _ _ _ Hr) as Hdot.
      pose proof (rfind_lt _ _ _ Hr) as Hlt.
      assert (Hg : String.get i (substring 0 i name ++ "_corrigido.dxf")
                   = Some "_"%char).
      { rewrite <- (length_substring_0 name i) at 1 by lia.
        rewrite get_append_at. reflexivity. }
      rewrite H, Hdot in Hg. discriminate.
    + apply (f_equal String.length) in H. rewrite length_append in H.
      cbn in H. lia.
  - apply (f_equal String.length) in H. rewrite length_append in H.
    cbn in H. lia.
Qed.

Lemma corrected_path_differs (filepath : Path) :
  corrected_path filepath <> filepath.
Proof.
  destruct filepath as [pp pn]. unfold corrected_path. cbn. intros H.
  inversion H as [Hn]. exact (corrected_name_differs pn Hn).
Qed.

Lemma mapM_Vec3_of (pts : list Vec3) : mapM Vec3_of (map Some pts) = ret pts.
Proof.
  induction pts as [|p pts IH]; [reflexivity|].
  cbn [map mapM Vec3_of bind ret]. rewrite IH. reflexivity.
Qed.

Lemma last_map_Some (pts : list Vec3) (p : Vec3) :
  last (map Some (pts ++ [p])) None = Some p.
Proof.
  induction pts as [|q pts IH]; [reflexivity|].
  cbn [app map]. cbn [map] in IH.
  destruct (pts ++ [p]) eqn:E; [destruct pts; discriminate|].
  exact IH.
Qed.

Lemma forallb_remove_at {A : Type} (f : A -> bool) (l : list A) :
  forall i, forallb f l = true -> forallb f (remove_at i l) = true.
Proof.
  unfold remove_at.
  induction l as [|a l IH]; intros [|i] H; cbn in *; try reflexivity.
  - apply andb_prop in H as [_ H]. exact H.
  - apply andb_prop in H as [Ha H]. rewrite Ha. cbn. apply IH. exact H.
Qed.

(** On lines that carry both endpoints the inner loop does not raise, and
    the point it appends is present. *)
Lemma find_next_sound (last_point : Vec3) (remaining : list entity) :
  forallb has_endpoints remaining = true ->
  forall i,
    find_next last_point remaining i = ret None
    \/ exists p j, find_next last_point remaining i = ret (Some (Some p, j)).
Proof.
  induction remaining as [|e rest IH]; intros Hwf i; [left; reflexivity|].
  cbn [forallb] in Hwf. apply andb_prop in Hwf as [He Hwf].
  destruct e as [l [s|] [t|]|l c r|k l f|k l g cl|l ve|n l];
    try discriminate.
  cbn [find_next dxf_start dxf_end Vec3_of bind ret].
  destruct (isclose last_point s); [right; eauto|].
  destruct (isclose last_point t); [right; eauto|].
  apply IH. exact Hwf.
Qed.

(** On lines that carry both endpoints the stitching loop ends without
    raising, and every point of the path is present. *)
Lemma stitch_sound (iterations : nat) :
  forall (pts : list Vec3) (p : Vec3) (remaining : list entity),
    forallb has_endpoints remaining = true ->
    exists pts' remaining',
      stitch iterations (map Some (pts ++ [p])) remaining
      = ret (map Some pts', remaining').
Proof.
  induction iterations as [|n IH]; intros pts p remaining Hwf.
  - eexists. eexists. reflexivity.
  - cbn [stitch]. rewrite last_map_Some. cbn [Vec3_of bind ret].
    destruct (find_next_sound p remaining Hwf 0) as [H|[q [j H]]];
      rewrite H; cbn [bind ret].
    + eexists. eexists. reflexivity.
    + replace (map Some (pts ++ [p]) ++ [Some q])
        with (map Some ((pts ++ [p]) ++ [q]))
        by (rewrite map_app; reflexivity).
      apply IH. apply forallb_remove_at. exact Hwf.
Qed.

Lemma check_closed_geometry_no_lines (msp : modelspace) (tol : Q) :
  existsb (is_type T_LINE) (get_flattend_entities (Some msp)) = false ->
  existsb (is_type T_LWPOLYLINE) (get_flattend_entities (Some msp)) = true ->
  check_closed_geometry msp tol
  = Result OK "O contorno da peça está fechado." DNone.
Proof.
  intros Hline Hpoly.
  rewrite check_closed_geometry_on_lines.
  - rewrite (filter_none _ _ Hline). reflexivity.
  - apply existsb_exists. apply existsb_exists in Hpoly as [e [Hin He]].
    exists e. split; [exact Hin|]. unfold contour_eligible.
    rewrite He. apply orb_true_r.
Qed.

Lemma flatten_app (a b : modelspace) :
  get_flattend_entities (Some (a ++ b))
  = get_flattend_entities (Some a) ++ get_flattend_entities (Some b).
Proof. unfold get_flattend_entities. apply flat_map_app. Qed.


Lemma existsb_delete_lines (msp : modelspace) :
  existsb (is_type T_LINE) (delete_lines msp) = false.
Proof.
  unfold delete_lines. induction msp as [|e msp IH]; [reflexivity|].
  cbn [filter]. destruct (is_type T_LINE e) eqn:He; cbn [negb]; [exact IH|].
  cbn [existsb]. rewrite He, IH. reflexivity.
Qed.

(** The routine leaves every file as it was, except the one it saves. *)
Lemma fix_open_contour_writes (tree : tree_state) (fs : filesystem) :
  fs_after (fix_open_contour tree fs) = fs
  \/ exists filepath doc',
       selected_path tree = Some filepath
       /\ fs_after (fix_open_contour tree fs)
          = saveas doc' (corrected_path filepath) fs.
Proof.
  unfold fix_open_contour, selected_path.
  destruct (String.eqb (tree_focus tree) EmptyString); [left; reflexivity|].
  destruct (tree_item_to_path tree _) as [filepath|]; [|left; reflexivity].
  destruct (readfile fs filepath) as [ex|doc]; [left; reflexivity|].
  cbn [bind].
  destruct (filter (is_type T_LINE) _) as [|current remaining];
    [left; reflexivity|].
  destruct (stitch _ _ _) as [ex|[path rest]]; [left; reflexivity|].
  cbn [bind fst].
  destruct (add_lwpolyline path true _) as [ex|msp'];
    [left; reflexivity|].
  cbn [bind]. unfold with_name.
  destruct (String.eqb (path_name filepath) EmptyString); [left; reflexivity|].
  right. exists filepath. eexists. split; reflexivity.
Qed.

(** A run that finds lines carrying both endpoints goes through: the path
    is stitched and the repaired drawing is saved under the new name. *)
Lemma fix_open_contour_repairs (tree : tree_state) (fs : filesystem)
    (filepath : Path) (doc : document) :
  selected_path tree = Some filepath ->
  fs filepath = Some doc ->
  path_name filepath <> EmptyString ->
  existsb (is_type T_LINE)
    (get_flattend_entities (Some (doc_modelspace doc))) = true ->
  forallb has_endpoints
    (filter (is_type T_LINE)
       (get_flattend_entities (Some (doc_modelspace doc)))) = true ->
  exists current remaining path_points rest,
    filter (is_type T_LINE)
      (get_flattend_entities (Some (doc_modelspace doc)))
    = current :: remaining
    /\ stitch (length remaining * 2)
         [dxf_start current; dxf_end current] remaining
       = ret (map Some path_points, rest)
    /\ fs_after (fix_open_contour tree fs)
       = saveas (repaired_document doc path_points) (corrected_path filepath)
           fs
    /\ reanalysis (fix_open_contour tree fs) = true.
Proof.
  intros Hsel Hfs Hname Hex Hwf.
  unfold fix_open_contour. unfold selected_path in Hsel.
  destruct (String.eqb (tree_focus tree) EmptyString); [discriminate|].
  rewrite Hsel. unfold readfile. rewrite Hfs. cbn [bind ret].
  rewrite <- truthy_filter in Hex.
  destruct (filter (is_type T_LINE) _) as [|current remaining];
    [discriminate|].
  cbn [forallb] in Hwf. apply andb_prop in Hwf as [Hc Hwf].
  destruct current as [l [a|] [b|]|l c r|k l f|k l g cl|l ve|n l];
    try discriminate.
  cbn [dxf_start dxf_end].
  destruct (stitch_sound (length remaining * 2) [a] b remaining Hwf)
    as [pts [rest Hst]].
  cbn [app map] in Hst.
  exists (Line l (Some a) (Some b)), remaining, pts, rest.
  split; [reflexivity|]. split; [exact Hst|].
  rewrite Hst. cbn [bind ret fst]. unfold add_lwpolyline.
  rewrite mapM_Vec3_of. cbn [bind ret]. unfold with_name.
  apply String.eqb_neq in Hname. rewrite Hname. cbn [bind ret].
  split; reflexivity.
Qed.

Lemma saveas_same (doc : document) (p : Path) (fs : filesystem) :
  saveas doc p fs p = Some doc.
Proof.
  unfold saveas. replace (path_eqb p p) with true; [reflexivity|].
  symmetry. apply path_eqb_eq. reflexivity.
Qed.

Lemma saveas_other (doc : document) (p q : Path) (fs : filesystem) :
  q <> p -> saveas doc p fs q = fs q.
Proof.
  intros H. unfold saveas. destruct (path_eqb q p) eqn:E; [|reflexivity].
  apply path_eqb_eq in E. contradiction.
Qed.

(** Whatever the run does, the selected file keeps its content. *)
Lemma fix_open_contour_keeps_original (tree : tree_state) (fs : filesystem)
    (filepath : Path) :
  selected_path tree = Some filepath ->
  fs_after (fix_open_contour tree fs) filepath = fs filepath.
Proof.
  intros Hsel.
  destruct (fix_open_contour_writes tree fs) as [H|[fp [doc' [Hfp H]]]];
    rewrite H; [reflexivity|].
  rewrite Hsel in Hfp. inversion Hfp. subst fp.
  apply saveas_other. intros E. symmetry in E.
  exact (corrected_path_differs filepath E).
Qed.

(** C9: a repair run (a file is selected, it loads, and its flattened set
    holds lines carrying both endpoints) stitches a path, removes every
    [LINE] of the model space, appends exactly one closed [LWPOLYLINE]
    through the path points, and saves the result under the original stem
    followed by [_corrigido.dxf]; that name differs from the original one,
    and every other file, the original included, keeps its content. *)
Theorem fix_open_contour_effect (tree : tree_state) (fs : filesystem)
    (filepath : Path) (doc : document) :
  selected_path tree = Some filepath ->
  fs filepath = Some doc ->
  path_name filepath <> EmptyString ->
  existsb (is_type T_LINE)
    (get_flattend_entities (Some (doc_modelspace doc))) = true ->
  forallb has_endpoints
    (filter (is_type T_LINE)
       (get_flattend_entities (Some (doc_modelspace doc)))) = true ->
  exists current remaining path_points rest,
    filter (is_type T_LINE)
      (get_flattend_entities (Some (doc_modelspace doc)))
    = current :: remaining
    /\ stitch (length remaining * 2)
         [dxf_start current; dxf_end current] remaining
       = ret (map Some path_points, rest)
    /\ doc_modelspace (repaired_document doc path_points)
       = delete_lines (doc_modelspace doc)
         ++ [Poly LWPOLYLINE "0" (ret (map xy path_points)) true]
    /\ existsb (is_type T_LINE) (delete_lines (doc_modelspace doc)) = false
    /\ existsb (is_type T_LINE)
         (doc_modelspace (repaired_document doc path_points)) = false
    /\ corrected_path filepath
       = MkPath (path_parent filepath)
           (stem (path_name filepath) ++ "_corrigido.dxf")
    /\ corrected_path filepath <> filepath
    /\ fs_after (fix_open_contour tree fs) (corrected_path filepath)
       = Some (repaired_document doc path_points)
    /\ fs_after (fix_open_contour tree fs) filepath = Some doc
    /\ (forall q,
          q <> corrected_path filepath ->
          fs_after (fix_open_contour tree fs) q = fs q).
Proof.
  intros Hsel Hfs Hname Hex Hwf.
  destruct (fix_open_contour_repairs tree fs filepath doc Hsel Hfs Hname
              Hex Hwf)
    as [current [remaining [pts [rest [Hlines [Hst [Hout _]]]]]]].
  exists current, remaining, pts, rest.
  split; [exact Hlines|]. split; [exact Hst|]. split; [reflexivity|].
  split; [apply existsb_delete_lines|].
  split.
  { cbn [repaired_document doc_modelspace]. rewrite existsb_app.
    rewrite existsb_delete_lines. reflexivity. }
  split; [reflexivity|]. split; [apply corrected_path_differs|].
  split; [rewrite Hout; apply saveas_same|].
  split.
  { rewrite (fix_open_contour_keeps_original tree fs filepath Hsel).
    exact Hfs. }
  intros q Hq. rewrite Hout. apply saveas_other. exact Hq.
Qed.

Lemma fix_open_contour_effect_witness :
  exists path_points,
    fs_after
      (fix_open_contour tree_on_some_path (one_file chain_in_modelspace))
      (corrected_path some_path)
    = Some (repaired_document chain_in_modelspace path_points)
    /\ fs_after
         (fix_open_contour tree_on_some_path (one_file chain_in_modelspace))
         some_path
       = Some chain_in_modelspace.
Proof.
  assert (Hname : path_name some_path <> EmptyString) by discriminate.
  destruct (fix_open_contour_effect tree_on_some_path
              (one_file chain_in_modelspace) some_path chain_in_modelspace
              eq_refl eq_refl Hname eq_refl eq_refl)
    as [current [remaining [pts [rest
         [_ [_ [_ [_ [_ [_ [_ [Hnew [Hold _]]]]]]]]]]]]].
  exists pts. split; [exact Hnew|exact Hold].
Defined.

(** ** Duplicate line detector *)

Lemma Qltb_lt (a b : Q) : Qltb a b = true <-> a < b.
Proof.
  unfold Qltb. rewrite Qlt_alt.
  destruct (a ?= b); split; intros H; try reflexivity; discriminate.
Qed.

Lemma t3_eqb_iff (a1 a2 a3 b1 b2 b3 : Q) :
  t3_eqb (a1, a2, a3) (b1, b2, b3) = true
  <-> a1 == b1 /\ a2 == b2 /\ a3 == b3.
Proof.
  unfold t3_eqb. rewrite !andb_true_iff, !Qeq_bool_iff. tauto.
Qed.

Lemma t3_ltb_iff (a1 a2 a3 b1 b2 b3 : Q) :
  t3_ltb (a1, a2, a3) (b1, b2, b3) = true
  <-> a1 < b1 \/ (a1 == b1 /\ (a2 < b2 \/ (a2 == b2 /\ a3 < b3))).
Proof.
  unfold t3_ltb.
  destruct (Qeq_bool a1 b1) eqn:E1; cbn [negb].
  - apply Qeq_bool_iff in E1.
    destruct (Qeq_bool a2 b2) eqn:E2; cbn [negb].
    + apply Qeq_bool_iff in E2. rewrite Qltb_lt. split.
      * intros H. right. split; [exact E1|]. right. split; assumption.
      * intros [H|[_ [H|[_ H]]]]; [lra|lra|exact H].
    + apply Qeq_bool_neq in E2. rewrite Qltb_lt. split.
      * intros H. right. split; [exact E1|]. left. exact H.
      * intros [H|[_ [H|[H _]]]]; [lra|exact H|contradiction].
  - apply Qeq_bool_neq in E1. rewrite Qltb_lt. split.
    + intros H. left. exact H.
    + intros [H|[H _]]; [exact H|contradiction].
Qed.

(** The signature does not depend on the direction of the line. *)
Lemma sorted2_swap (a b a' b' : T3) :
  t3_eqb a a' = true -> t3_eqb b b' = true ->
  sig_eqb (sorted2 a b) (sorted2 b' a') = true.
Proof.
  destruct a as [[a1 a2] a3], b as [[b1 b2] b3], a' as [[c1 c2] c3],
    b' as [[d1 d2] d3].
  intros Ha Hb. apply t3_eqb_iff in Ha, Hb.
  destruct Ha as [Ha1 [Ha2 Ha3]], Hb as [Hb1 [Hb2 Hb3]].
  unfold sorted2.
  destruct (t3_ltb (b1, b2, b3) (a1, a2, a3)) eqn:E1;
    destruct (t3_ltb (c1, c2, c3) (d1, d2, d3)) eqn:E2;
    unfold sig_eqb; cbn [fst snd]; rewrite andb_true_iff, !t3_eqb_iff;
    try (apply t3_ltb_iff in E1); try (apply t3_ltb_iff in E2);
    try (apply not_true_iff_false in E1; rewrite t3_ltb_iff in E1);
    try (apply not_true_iff_false in E2; rewrite t3_ltb_iff in E2).
  - exfalso. destruct E1 as [E1|[E1 [E1'|[E1' E1'']]]];
      destruct E2 as [E2|[E2 [E2'|[E2' E2'']]]]; lra.
  - repeat split; assumption.
  - repeat split; assumption.
  - assert (H1 : a1 == b1).
    { destruct (Q_dec a1 b1) as [[H|H]|H]; [| |exact H].
      - exfalso. apply E2. left. lra.
      - exfalso. apply E1. left. lra. }
    assert (H2 : a2 == b2).
    { destruct (Q_dec a2 b2) as [[H|H]|H]; [| |exact H].
      - exfalso. apply E2. right. split; [lra|]. left. lra.
      - exfalso. apply E1. right. split; [lra|]. left. lra. }
    assert (H3 : a3 == b3).
    { destruct (Q_dec a3 b3) as [[H|H]|H]; [| |exact H].
      - exfalso. apply E2. right. split; [lra|]. right. split; lra.
      - exfalso. apply E1. right. split; [lra|]. right. split; lra. }
    repeat split; lra.
Qed.

Lemma t3_eqb_sym (a b : T3) : t3_eqb a b = t3_eqb b a.
Proof.
  destruct a as [[a1 a2] a3], b as [[b1 b2] b3]. unfold t3_eqb.
  rewrite (Qeq_bool_comm a1), (Qeq_bool_comm a2), (Qeq_bool_comm a3).
  reflexivity.
Qed.

Lemma sig_eqb_sym (s t : T3 * T3) : sig_eqb s t = sig_eqb t s.
Proof.
  unfold sig_eqb. rewrite (t3_eqb_sym (fst s)), (t3_eqb_sym (snd s)).
  reflexivity.
Qed.

Lemma same_signature_sym (precision : Z) (l1 l2 : entity) :
  same_signature precision l1 l2 = same_signature precision l2 l1.
Proof.
  unfold same_signature.
  destruct (signature precision l1), (signature precision l2);
    try reflexivity.
  apply sig_eqb_sym.
Qed.

Lemma signature_returns (precision : Z) (e : entity) :
  has_endpoints e = true -> exists s, signature precision e = ret s.
Proof.
  destruct e as [l [a|] [b|]|l c r|k l f|k l g cl|l ve|n l];
    try discriminate.
  intros _. eexists. reflexivity.
Qed.

Lemma In_set_add (x k : nat) (s : list nat) :
  In k (set_add Nat.eqb x s) <-> k = x \/ In k s.
Proof.
  unfold set_add. destruct (existsb (Nat.eqb x) s) eqn:E.
  - apply existsb_exists in E as [y [Hy Hxy]]. apply Nat.eqb_eq in Hxy.
    subst y. split; [auto|]. intros [->|H]; assumption.
  - rewrite in_app_iff. cbn. split.
    + intros [H|[H|[]]]; auto.
    + intros [H|H]; auto.
Qed.

Lemma NoDup_set_add (x : nat) (s : list nat) :
  NoDup s -> NoDup (set_add Nat.eqb x s).
Proof.
  intros Hs. unfold set_add. destruct (existsb (Nat.eqb x) s) eqn:E;
    [exact Hs|].
  apply NoDup_app; [exact Hs|repeat constructor; intros []|].
  intros a Ha [Hx|[]]. subst a.
  assert (existsb (Nat.eqb x) s = true); [|congruence].
  apply existsb_exists. exists x. split; [exact Ha|apply Nat.eqb_refl].
Qed.

Lemma item_has_endpoints (lines : list entity) :
  forallb has_endpoints lines = true ->
  forall k, (k < length lines)%nat -> has_endpoints (item lines k) = true.
Proof.
  intros H k Hk. rewrite forallb_forall in H. apply H.
  unfold item. apply nth_In. exact Hk.
Qed.

Section DuplicateLoops.
Variable precision : Z.
Variable lines : list entity.
Hypothesis lines_sound : forallb has_endpoints lines = true.

(** The inner loop adds [i] and every [j] of its range whose signature
    equals that of [i]. *)
Lemma dup_inner_spec (i : nat) (js : list nat) :
  (i < length lines)%nat ->
  (forall j, In j js -> (j < length lines)%nat) ->
  forall d,
    exists d',
      dup_inner precision lines i js d = ret d'
      /\ (forall k,
            In k d'
            <-> In k d
                \/ exists j,
                     In j js
                     /\ same_signature precision (item lines i)
                          (item lines j) = true
                     /\ (k = i \/ k = j))
      /\ (NoDup d -> NoDup d').
Proof.
  intros Hi. induction js as [|j js IH]; intros Hjs d.
  - exists d. split; [reflexivity|]. split; [|auto].
    intros k. split; [auto|]. intros [H|[j [[] _]]]. exact H.
  - destruct (signature_returns precision (item lines i)
                (item_has_endpoints lines lines_sound i Hi)) as [s1 Hs1].
    destruct (signature_returns precision (item lines j)
                (item_has_endpoints lines lines_sound j
                   (Hjs j (or_introl eq_refl)))) as [s2 Hs2].
    cbn [dup_inner]. rewrite Hs1, Hs2. cbn [bind ret].
    assert (Hsame : same_signature precision (item lines i) (item lines j)
                    = sig_eqb s1 s2).
    { unfold same_signature. rewrite Hs1, Hs2. reflexivity. }
    destruct (IH (fun x Hx => Hjs x (or_intror Hx))
                (if sig_eqb s1 s2
                 then set_add Nat.eqb j (set_add Nat.eqb i d)
                 else d)) as [d' [Hd' [Hin Hnd]]].
    exists d'. split; [exact Hd'|]. split.
    + intros k. rewrite Hin. destruct (sig_eqb s1 s2) eqn:E.
      * rewrite !In_set_add. split.
        -- intros [[->|[->|H]]|[x [Hx [Hs Hk]]]].
           ++ right. exists j. split; [left; reflexivity|]. split.
              ** rewrite Hsame. reflexivity.
              ** right. reflexivity.
           ++ right. exists j. split; [left; reflexivity|]. split.
              ** rewrite Hsame. reflexivity.
              ** left. reflexivity.
           ++ left. exact H.
           ++ right. exists x. split; [right; exact Hx|]. split; assumption.
        -- intros [H|[x [[->|Hx] [Hs Hk]]]].
           ++ left. right. right. exact H.
           ++ left. destruct Hk as [->| ->]; [right; left|left]; reflexivity.
           ++ right. exists x. split; [exact Hx|]. split; assumption.
      * split.
        -- intros [H|[x [Hx [Hs Hk]]]]; [left; exact H|].
           right. exists x. split; [right; exact Hx|]. split; assumption.
        -- intros [H|[x [[->|Hx] [Hs Hk]]]].
           ++ left. exact H.
           ++ rewrite Hsame in Hs. discriminate.
           ++ right. exists x. split; [exact Hx|]. split; assumption.
    + intros Hd. apply Hnd. destruct (sig_eqb s1 s2); [|exact Hd].
      apply NoDup_set_add, NoDup_set_add, Hd.
Qed.

(** The outer loop adds both members of every pair [i < j] with equal
    signatures. *)
Lemma dup_outer_spec (is_ : list nat) :
  (forall i, In i is_ -> (i < length lines)%nat) ->
  forall d,
    exists d',
      dup_outer precision lines is_ d = ret d'
      /\ (forall k,
            In k d'
            <-> In k d
                \/ exists i j,
                     In i is_
                     /\ (i < j < length lines)%nat
                     /\ same_signature precision (item lines i)
                          (item lines j) = true
                     /\ (k = i \/ k = j))
      /\ (NoDup d -> NoDup d').
Proof.
  induction is_ as [|i is_ IH]; intros His d.
  - exists d. split; [reflexivity|]. split; [|auto].
    intros k. split; [auto|]. intros [H|[i [j [[] _]]]]. exact H.
  - assert (Hrange : forall j,
               In j (seq (i + 1) (length lines - (i + 1)))
               <-> (i < j < length lines)%nat).
    { intros j. rewrite in_seq. lia. }
    destruct (dup_inner_spec i (seq (i + 1) (length lines - (i + 1)))
                (His i (or_introl eq_refl))
                (fun j Hj => proj2 (proj1 (Hrange j) Hj)) d)
      as [d1 [Hd1 [Hin1 Hnd1]]].
    destruct (IH (fun x Hx => His x (or_intror Hx)) d1)
      as [d' [Hd' [Hin Hnd]]].
    exists d'. cbn [dup_outer]. rewrite Hd1. cbn [bind].
    split; [exact Hd'|]. split; [|auto].
    intros k. rewrite Hin, Hin1. split.
    + intros [[H|[j [Hj [Hs Hk]]]]|[x [j [Hx [Hj [Hs Hk]]]]]].
      * left. exact H.
      * right. exists i, j. split; [left; reflexivity|].
        split; [apply Hrange; exact Hj|]. split; assumption.
      * right. exists x, j. split; [right; exact Hx|].
        split; [exact Hj|]. split; assumption.
    + intros [H|[x [j [[->|Hx] [Hj [Hs Hk]]]]]].
      * left. left. exact H.
      * left. right. exists j. split; [apply Hrange; exact Hj|].
        split; assumption.
      * right. exists x, j. split; [exact Hx|]. split; [exact Hj|].
        split; assumption.
Qed.

(** The positions flagged by the detector are those of the lines whose
    signature equals that of another line. *)
Lemma duplicate_line_indices_spec :
  exists flagged,
    duplicate_line_indices precision lines = ret flagged
    /\ NoDup flagged
    /\ (forall i,
          In i flagged
          <-> (i < length lines)%nat
              /\ exists j,
                   (j < length lines)%nat /\ j <> i
                   /\ same_signature precision (item lines i)
                        (item lines j) = true).
Proof.
  destruct (dup_outer_spec (seq 0 (length lines))
              (fun i Hi => proj2 (proj1 (in_seq _ _ _) Hi)) [])
    as [flagged [Hf [Hin Hnd]]].
  exists flagged. split; [exact Hf|]. split; [apply Hnd; constructor|].
  intros k. rewrite Hin. split.
  - intros [[]|[i [j [Hi [Hj [Hs [->| ->]]]]]]].
    + split; [lia|]. exists j. split; [lia|]. split; [lia|exact Hs].
    + split; [lia|]. exists i. split; [lia|]. split; [lia|].
      rewrite same_signature_sym. exact Hs.
  - intros [Hk [j [Hj [Hne Hs]]]]. right.
    destruct (Nat.lt_ge_cases k j) as [Hlt|Hge].
    + exists k, j. split; [apply in_seq; lia|]. split; [lia|].
      split; [exact Hs|left; reflexivity].
    + exists j, k. split; [apply in_seq; lia|]. split; [lia|].
      split; [rewrite same_signature_sym; exact Hs|right; reflexivity].
Qed.
End DuplicateLoops.

(** ** Counters *)

Section ContainerFacts.
Context {K : Type} (eqb : K -> K -> bool).
Hypothesis eqb_eq : forall a b, eqb a b = true <-> a = b.

Lemma count_cons (k x : K) (l : list K) :
  count eqb k (x :: l)
  = ((if eqb k x then 1 else 0) + count eqb k l)%nat.
Proof. unfold count. cbn [filter]. destruct (eqb k x); reflexivity. Qed.

Lemma In_uniq (x : K) (l : list K) : In x (uniq eqb l) <-> In x l.
Proof.
  induction l as [|a l IH]; [reflexivity|].
  cbn [uniq In]. rewrite filter_In, IH. split.
  - intros [H|[H _]]; auto.
  - intros [H|H]; [left; exact H|].
    destruct (eqb a x) eqn:E.
    + left. apply eqb_eq. exact E.
    + right. split; [exact H|reflexivity].
Qed.

Lemma NoDup_uniq (l : list K) : NoDup (uniq eqb l).
Proof.
  induction l as [|a l IH]; cbn [uniq]; constructor.
  - rewrite filter_In. intros [_ H].
    assert (E : eqb a a = true) by (apply eqb_eq; reflexivity).
    rewrite E in H. discriminate.
  - apply NoDup_filter. exact IH.
Qed.

End ContainerFacts.

(** ** Hole symmetry checker: the pairing pass *)

Lemma fadd_comm (a b : pyfloat) : fadd a b = fadd b a.
Proof.
  destruct a as [| |p|], b as [| |q|]; try reflexivity.
  cbn. f_equal. unfold Qplus. rewrite Z.add_comm, Pos.mul_comm.
  reflexivity.
Qed.

Lemma is_symmetric_pair_sym (tol : Q) (p q : position) :
  is_symmetric_pair tol p q = is_symmetric_pair tol q p.
Proof.
  unfold is_symmetric_pair.
  rewrite (fadd_comm (fst p)), (fadd_comm (snd p)). reflexivity.
Qed.

Lemma length_mark (i : nat) (m : list bool) : length (mark i m) = length m.
Proof.
  revert i. induction m as [|b m IH]; intros [|i]; cbn; try reflexivity.
  rewrite IH. reflexivity.
Qed.

Lemma nth_mark_same (i : nat) (m : list bool) :
  (i < length m)%nat -> nth i (mark i m) false = true.
Proof.
  revert i. induction m as [|b m IH]; intros [|i] H; cbn in *;
    try lia; try reflexivity.
  apply IH. lia.
Qed.

Lemma nth_mark_other (i k : nat) (m : list bool) :
  k <> i -> nth k (mark i m) false = nth k m false.
Proof.
  revert i k. induction m as [|b m IH]; intros [|i] [|k] H; cbn;
    try reflexivity; try contradiction.
  apply IH. lia.
Qed.

Lemma nth_mark_true (i k : nat) (m : list bool) :
  nth k m false = true -> nth k (mark i m) false = true.
Proof.
  intros H. destruct (Nat.eq_dec k i) as [->|Hne].
  - apply nth_mark_same. destruct (Nat.lt_ge_cases i (length m)) as [Hl|Hl];
      [exact Hl|]. rewrite nth_overflow in H by exact Hl. discriminate.
  - rewrite nth_mark_other by exact Hne. exact H.
Qed.

Lemma nth_mark_false (i k : nat) (m : list bool) :
  nth k (mark i m) false = false -> nth k m false = false.
Proof.
  intros H. destruct (nth k m false) eqn:E; [|reflexivity].
  rewrite (nth_mark_true i k m E) in H. discriminate.
Qed.

Section Pairing.
Variable tol : Q.
Variable pos : list position.

Lemma find_match_app (m : list bool) (i : nat) (l1 l2 : list nat) :
  find_match tol pos m i (l1 ++ l2)
  = match find_match tol pos m i l1 with
    | Some j => Some j
    | None => find_match tol pos m i l2
    end.
Proof.
  induction l1 as [|j l1 IH]; [reflexivity|].
  cbn [app find_match].
  destruct ((i =? j)%nat || nth j m false); [exact IH|].
  destruct (is_symmetric_pair tol _ _); [reflexivity|exact IH].
Qed.

Lemma find_match_None (m : list bool) (i : nat) (js : list nat) :
  find_match tol pos m i js = None
  <-> forall j,
        In j js -> j <> i -> nth j m false = false ->
        is_symmetric_pair tol (nth i pos no_position) (nth j pos no_position)
        = false.
Proof.
  induction js as [|j js IH]; cbn [find_match].
  - split; [intros _ j []|reflexivity].
  - destruct (Nat.eqb_spec i j) as [->|Hne]; cbn [orb].
    + rewrite IH. split.
      * intros H k [->|Hk] Hki Hm; [contradiction|exact (H k Hk Hki Hm)].
      * intros H k Hk. apply H. right. exact Hk.
    + destruct (nth j m false) eqn:Em.
      * rewrite IH. split.
        -- intros H k [->|Hk] Hki Hm; [congruence|exact (H k Hk Hki Hm)].
        -- intros H k Hk. apply H. right. exact Hk.
      * destruct (is_symmetric_pair tol _ _) eqn:Es.
        -- split; [discriminate|]. intros H. exfalso.
           rewrite (H j (or_introl eq_refl)) in Es; [discriminate| |exact Em].
           congruence.
        -- rewrite IH. split.
           ++ intros H k [->|Hk] Hki Hm; [exact Es|exact (H k Hk Hki Hm)].
           ++ intros H k Hk. apply H. right. exact Hk.
Qed.

Lemma find_match_Some (m : list bool) (i j : nat) (js : list nat) :
  find_match tol pos m i js = Some j -> In j js /\ j <> i.
Proof.
  induction js as [|k js IH]; cbn [find_match]; [discriminate|].
  destruct (Nat.eqb_spec i k) as [->|Hne]; cbn [orb].
  - intros H. destruct (IH H). split; [right|]; assumption.
  - destruct (nth k m false).
    + intros H. destruct (IH H). split; [right|]; assumption.
    + destruct (is_symmetric_pair tol _ _).
      * intros H. inversion H. subst. split; [left; reflexivity|congruence].
      * intros H. destruct (IH H). split; [right|]; assumption.
Qed.

(** Once the circles before [i] are settled, scanning every circle and
    scanning the circles after [i] find the same partner. *)
Lemma find_match_subsequent (m : list bool) (i : nat) :
  (i < length pos)%nat ->
  settled tol pos i m ->
  nth i m false = false ->
  find_match tol pos m i (seq 0 (length pos))
  = find_match tol pos m i (seq (i + 1) (length pos - (i + 1))).
Proof.
  intros Hi Hset Hm.
  replace (length pos) with (i + S (length pos - (i + 1)))%nat at 1 by lia.
  rewrite seq_app. cbn [seq plus]. rewrite find_match_app.
  replace (find_match tol pos m i (seq 0 i)) with (@None nat).
  - cbn [find_match]. rewrite Nat.eqb_refl. cbn [orb].
    replace (S i) with (i + 1)%nat by lia. reflexivity.
  - symmetry. apply find_match_None. intros j Hj Hne Hmj.
    apply in_seq in Hj. rewrite is_symmetric_pair_sym.
    apply Hset; try assumption; lia.
Qed.

Lemma settled_skip (m : list bool) (i : nat) :
  settled tol pos i m -> nth i m false = true -> settled tol pos (S i) m.
Proof.
  intros Hset Hm j k Hj Hk Hne Hmj Hmk.
  assert (j <> i) by congruence. apply Hset; try assumption; lia.
Qed.

Lemma settled_none (m : list bool) (i : nat) :
  settled tol pos i m ->
  find_match tol pos m i (seq 0 (length pos)) = None ->
  settled tol pos (S i) m.
Proof.
  intros Hset Hnone j k Hj Hk Hne Hmj Hmk.
  destruct (Nat.eq_dec j i) as [->|Hji].
  - rewrite find_match_None in Hnone. apply Hnone; try assumption.
    apply in_seq. lia.
  - apply Hset; try assumption; lia.
Qed.

Lemma settled_some (m : list bool) (i j : nat) :
  (i < length m)%nat ->
  settled tol pos i m -> settled tol pos (S i) (mark j (mark i m)).
Proof.
  intros Hi Hset x k Hx Hk Hne Hmx Hmk.
  assert (Hxi : x <> i).
  { intros ->. rewrite nth_mark_true in Hmx; [discriminate|].
    apply nth_mark_same. exact Hi. }
  apply nth_mark_false, nth_mark_false in Hmx, Hmk.
  apply Hset; try assumption; lia.
Qed.

Lemma greedy_matching_keeps (is_ : list nat) :
  forall m k,
    nth k m false = true ->
    nth k (greedy_matching tol pos is_ m) false = true.
Proof.
  induction is_ as [|i is_ IH]; intros m k H; [exact H|].
  cbn [greedy_matching]. destruct (nth i m false); [apply IH; exact H|].
  destruct (find_match tol pos m i _); apply IH; [|exact H].
  apply nth_mark_true, nth_mark_true. exact H.
Qed.

Lemma greedy_matching_length (is_ : list nat) :
  forall m, length (greedy_matching tol pos is_ m) = length m.
Proof.
  induction is_ as [|i is_ IH]; intros m; [reflexivity|].
  cbn [greedy_matching]. destruct (nth i m false); [apply IH|].
  destruct (find_match tol pos m i _); rewrite IH; [|reflexivity].
  rewrite !length_mark. reflexivity.
Qed.

(** A circle that was visited and left unmatched stays unmatched. *)
Lemma greedy_matching_leaves (len : nat) :
  forall i m k,
    (i + len = length pos)%nat -> length m = length pos ->
    settled tol pos i m ->
    (k < i)%nat -> nth k m false = false ->
    nth k (greedy_matching tol pos (seq i len) m) false = false.
Proof.
  induction len as [|len IH]; intros i m k Hn Hlen Hset Hk Hm; [exact Hm|].
  cbn [seq greedy_matching].
  destruct (nth i m false) eqn:Emi.
  - apply IH; try assumption; try lia. apply settled_skip; assumption.
  - destruct (find_match tol pos m i (seq (i + 1) _)) as [j|] eqn:Ef.
    + destruct (find_match_Some _ _ _ _ Ef) as [Hj _].
      apply in_seq in Hj.
      apply IH; try lia.
      * rewrite !length_mark. exact Hlen.
      * apply settled_some; [lia|exact Hset].
      * rewrite !nth_mark_other by lia. exact Hm.
    + apply IH; try assumption; try lia.
      apply settled_none; [exact Hset|].
      rewrite find_match_subsequent by (try assumption; lia). exact Ef.
Qed.

(** The loop of the checker computes the greedy matching and reports the
    circles it leaves unmatched off the centre. *)
Lemma pairing_loop_refines (len : nat) :
  forall i m a,
    (i + len = length pos)%nat -> length m = length pos ->
    settled tol pos i m ->
    pairing_loop tol pos (seq i len) m a
    = (greedy_matching tol pos (seq i len) m,
       a ++ filter
              (fun k =>
                 negb (nth k (greedy_matching tol pos (seq i len) m) false)
                 && negb (is_at_center tol (nth k pos no_position)))
              (seq i len)).
Proof.
  induction len as [|len IH]; intros i m a Hn Hlen Hset.
  - cbn. rewrite app_nil_r. reflexivity.
  - cbn [seq pairing_loop greedy_matching filter].
    destruct (nth i m false) eqn:Emi.
    + rewrite IH by (try assumption; try lia; apply settled_skip; assumption).
      rewrite (greedy_matching_keeps _ m i Emi). reflexivity.
    + rewrite find_match_subsequent by (try assumption; lia).
      destruct (find_match tol pos m i (seq (i + 1) _)) as [j|] eqn:Ef.
      * rewrite IH; try lia.
        -- rewrite (greedy_matching_keeps _ (mark j (mark i m)) i);
             [reflexivity|].
           apply nth_mark_true, nth_mark_same. lia.
        -- rewrite !length_mark. exact Hlen.
        -- apply settled_some; [lia|exact Hset].
      * assert (Hset' : settled tol pos (S i) m).
        { apply settled_none; [exact Hset|].
          rewrite find_match_subsequent by (try assumption; lia). exact Ef. }
        rewrite IH by (try assumption; lia).
        rewrite (greedy_matching_leaves len (S i) m i) by
          (try assumption; lia).
        cbn [negb andb].
        destruct (is_at_center tol (nth i pos no_position)); cbn [negb];
          [reflexivity|].
        rewrite <- app_assoc. reflexivity.
Qed.

(** The pairing pass of the checker is the greedy pass of the
    specification. *)
Lemma pairing_pass_refines :
  pairing_pass tol pos = symmetry_breaking tol pos.
Proof.
  unfold pairing_pass, symmetry_breaking. cbv zeta.
  rewrite pairing_loop_refines.
  - reflexivity.
  - reflexivity.
  - apply repeat_length.
  - intros j k Hj. lia.
Qed.
End Pairing.

(** ** The polygons of the examples *)

Lemma simple_polygon_examples :
  simple_polygon square = true /\ simple_polygon bowtie = false.
Proof. repeat split. Qed.

(** ** Closed-contour verifier: lines *)

(** The first [LINE] met by the loop stops it: its start point cannot be
    sliced. *)
Lemma collect_endpoints_stops_at_line (tol : Q) (ents : list entity) :
  existsb (is_type T_LINE) ents = true ->
  forall eps ap,
    exists ex,
      collect_endpoints tol ents eps ap = inl ex /\ exn_kind ex = TypeError.
Proof.
  induction ents as [|e ents IH]; intros H eps ap; [discriminate H|].
  cbn [existsb] in H. cbn [collect_endpoints].
  destruct (is_type T_LINE e).
  - unfold normalize_point, slice2.
    destruct (dxf_start e); eexists; split; reflexivity.
  - apply IH. exact H.
Qed.

Lemma existsb_filter_same {A : Type} (f : A -> bool) (l : list A) :
  existsb f (filter f l) = existsb f l.
Proof.
  induction l as [|a l IH]; [reflexivity|].
  cbn [filter existsb]. destruct (f a) eqn:E; cbn [existsb orb];
    [rewrite E; reflexivity|exact IH].
Qed.

Lemma line_is_eligible (l : list entity) :
  existsb (is_type T_LINE) l = true -> existsb contour_eligible l = true.
Proof.
  intros H. apply existsb_exists in H as [e [Hin He]].
  apply existsb_exists. exists e. split; [exact Hin|].
  unfold contour_eligible. rewrite He. reflexivity.
Qed.

(** A drawing that holds a [LINE] is answered with the failure result. *)
Lemma check_closed_geometry_with_line (msp : modelspace) (tol : Q) :
  existsb (is_type T_LINE) (get_flattend_entities (Some msp)) = true ->
  exists msg,
    check_closed_geometry msp tol
    = Result ERRO ("Falha: " ++ msg)%string DNone.
Proof.
  intros H.
  rewrite (check_closed_geometry_on_lines _ _ (line_is_eligible _ H)).
  destruct (collect_endpoints_stops_at_line tol
              (filter (is_type T_LINE) (get_flattend_entities (Some msp)))
              (eq_trans (existsb_filter_same _ _) H) [] [])
    as [ex [Hex _]].
  rewrite Hex. exists (exn_msg ex). reflexivity.
Qed.

Lemma check_closed_geometry_no_data (msp : modelspace) (tol : Q) :
  data (check_closed_geometry msp tol) = DNone.
Proof.
  destruct (existsb (is_type T_LINE) (get_flattend_entities (Some msp)))
    eqn:Hline.
  - destruct (check_closed_geometry_with_line msp tol Hline) as [msg Hr].
    rewrite Hr. reflexivity.
  - destruct (existsb (is_type T_LWPOLYLINE)
                (get_flattend_entities (Some msp))) eqn:Hpoly.
    + rewrite (check_closed_geometry_no_lines msp tol Hline Hpoly).
      reflexivity.
    + unfold check_closed_geometry. rewrite truthy_filter.
      assert (Hel : existsb (fun e => is_type T_LINE e
                                      || is_type T_LWPOLYLINE e)
                      (get_flattend_entities (Some msp)) = false).
      { induction (get_flattend_entities (Some msp)) as [|e l IH];
          [reflexivity|].
        cbn [existsb] in *.
        apply orb_false_elim in Hline as [H1 H2].
        apply orb_false_elim in Hpoly as [H3 H4].
        rewrite H1, H3. exact (IH H2 H4). }
      rewrite Hel. reflexivity.
Qed.

Lemma segment_lines_are_lines (segs : list (Vec3 * Vec3)) :
  segs <> [] ->
  existsb (is_type T_LINE) (get_flattend_entities (Some (segment_lines segs)))
  = true.
Proof. destruct segs as [|s segs]; [contradiction|reflexivity]. Qed.

(** C2: the verifier does not answer [OK] on a closed polygon given as
    separate lines.  For every polygon that does not intersect itself the
    answer is the failure result, [ERRO] with no data: the end points of a
    line are vectors of the drawing library, and [normalize_point] slices
    them.  With one side removed the answer is the same failure result, so
    the two ends of the removed side are not listed. *)
Theorem closed_polygon_answered_failure (vs : list Vec3) (tol : Q) :
  simple_polygon vs = true ->
  (exists msg,
      check_closed_geometry (segment_lines (loop_segments vs)) tol
      = Result ERRO ("Falha: " ++ msg)%string DNone)
  /\ forall i,
       (i < length (loop_segments vs))%nat ->
       exists msg,
         check_closed_geometry
           (segment_lines (firstn i (loop_segments vs)
                           ++ skipn (S i) (loop_segments vs))) tol
         = Result ERRO ("Falha: " ++ msg)%string DNone.
Proof.
  intros Hsimple.
  assert (Hlen : (3 <= length (loop_segments vs))%nat).
  { unfold simple_polygon in Hsimple. cbv zeta in Hsimple.
    apply andb_prop in Hsimple as [H _]. apply Nat.leb_le in H. exact H. }
  split.
  - apply check_closed_geometry_with_line, segment_lines_are_lines.
    intros E. rewrite E in Hlen. cbn in Hlen. lia.
  - intros i Hi.
    apply check_closed_geometry_with_line, segment_lines_are_lines.
    intros E. apply (f_equal (@length _)) in E.
    rewrite length_app, length_firstn, length_skipn in E. cbn in E. lia.
Qed.

Lemma closed_polygon_answered_failure_witness :
  (exists msg,
      check_closed_geometry (segment_lines (loop_segments square))
        TOLERANCIA_GEOMETRIA
      = Result ERRO ("Falha: " ++ msg)%string DNone)
  /\ forall i,
       (i < length (loop_segments square))%nat ->
       exists msg,
         check_closed_geometry
           (segment_lines (firstn i (loop_segments square)
                           ++ skipn (S i) (loop_segments square)))
           TOLERANCIA_GEOMETRIA
         = Result ERRO ("Falha: " ++ msg)%string DNone.
Proof.
  apply (closed_polygon_answered_failure square TOLERANCIA_GEOMETRIA).
  reflexivity.
Defined.

(** ** Contour repair: the saved drawing checked again *)


Lemma chained_has_endpoints (lines : list entity) :
  forall last z,
    chained last lines = Some z -> forallb has_endpoints lines = true.
Proof.
  induction lines as [|e lines IH]; intros last z H; [reflexivity|].
  destruct e as [l [a|] [b|]|l c r|k l f|k l g cl|l ve|n l];
    try discriminate H.
  cbn [chained] in H. destruct (vec_eqb last a); [|discriminate H].
  cbn [forallb has_endpoints andb]. exact (IH _ _ H).
Qed.

(** A drawing whose lines form a single open chain meets what the repair
    run asks of the lines. *)
Lemma single_open_chain_is_repairable (msp : modelspace) :
  single_open_chain
    (filter (is_type T_LINE) (get_flattend_entities (Some msp))) = true ->
  existsb (is_type T_LINE) (get_flattend_entities (Some msp)) = true
  /\ forallb has_endpoints
       (filter (is_type T_LINE) (get_flattend_entities (Some msp))) = true.
Proof.
  intros H. split.
  - rewrite <- truthy_filter.
    destruct (filter (is_type T_LINE) (get_flattend_entities (Some msp)));
      [discriminate H|reflexivity].
  - destruct (filter (is_type T_LINE) (get_flattend_entities (Some msp)))
      as [|e lines]; [reflexivity|].
    destruct e as [l [a|] [b|]|l c r|k l f|k l g cl|l ve|n l];
      try discriminate H.
    cbn [single_open_chain] in H. cbn [forallb has_endpoints andb].
    destruct (chained b lines) as [z|] eqn:E; [|discriminate H].
    exact (chained_has_endpoints _ _ _ E).
Qed.



(** The two drawings of the examples are single open chains. *)
Lemma chains_are_single_open_chains :
  single_open_chain
    (filter (is_type T_LINE)
       (get_flattend_entities (Some (doc_modelspace chain_in_block))))
  = true
  /\ single_open_chain
       (filter (is_type T_LINE)
          (get_flattend_entities (Some (doc_modelspace chain_in_modelspace))))
     = true.
Proof. split; reflexivity. Qed.

(** ** Duplicate line detector: rounding and flagged lines *)

Lemma Qminus_inject_Z (n : Z) (d : positive) (k : Z) :
  (n # d) - inject_Z k == (n - k * Zpos d # d).
Proof.
  unfold Qminus, Qplus, Qopp, inject_Z, Qeq. cbn [Qnum Qden].
  rewrite Pos.mul_1_r. nia.
Qed.

Lemma Qabs_le_half (m : Z) (d : positive) :
  Qabs (m # d) <= 1 # 2 <-> (- Zpos d <= 2 * m <= Zpos d)%Z.
Proof.
  rewrite Qabs_Qle_condition. unfold Qle, Qopp. cbn [Qnum Qden]. lia.
Qed.

Lemma Qabs_eq_half (m : Z) (d : positive) :
  Qabs (m # d) == 1 # 2 <-> (2 * Z.abs m = Zpos d)%Z.
Proof.
  unfold Qabs, Qeq. cbn [Qnum Qden]. lia.
Qed.

Lemma py_round_nearest (y : Q) : nearest_integer y (py_round y).
Proof.
  destruct y as [n d]. unfold nearest_integer.
  rewrite Qminus_inject_Z, Qabs_le_half, Qabs_eq_half.
  unfold py_round. cbn [Qnum Qden].
  pose proof (Z.div_mod n (Zpos d) ltac:(lia)) as Hdm.
  pose proof (Z.mod_pos_bound n (Zpos d) ltac:(lia)) as Hb.
  set (f := (n / Zpos d)%Z) in *. set (r := (n mod Zpos d)%Z) in *.
  assert (H0 : (n - f * Zpos d = r)%Z) by lia.
  assert (H1 : (n - (f + 1) * Zpos d = r - Zpos d)%Z) by lia.
  clearbody f r.
  destruct (Z.compare_spec (2 * r) (Zpos d)) as [E|E|E].
  - destruct (Z.even f) eqn:Ev.
    + rewrite H0. split; [lia|]. intros _. exact Ev.
    + rewrite H1. split; [lia|]. intros _. rewrite Z.even_add, Ev.
      reflexivity.
  - rewrite H0. split; [lia|]. intros H. exfalso. lia.
  - rewrite H1. split; [lia|]. intros H. exfalso. lia.
Qed.

Lemma nearest_integer_unique (y : Q) (k1 k2 : Z) :
  nearest_integer y k1 -> nearest_integer y k2 -> k1 = k2.
Proof.
  destruct y as [n d]. unfold nearest_integer.
  rewrite !Qminus_inject_Z, !Qabs_le_half, !Qabs_eq_half.
  intros [H1 E1] [H2 E2].
  assert (Hd : (k1 = k2 \/ k1 = k2 + 1 \/ k2 = k1 + 1)%Z) by nia.
  destruct Hd as [H|[H|H]]; [exact H| |]; exfalso.
  - assert (A1 : (2 * Z.abs (n - k1 * Zpos d) = Zpos d)%Z) by nia.
    assert (A2 : (2 * Z.abs (n - k2 * Zpos d) = Zpos d)%Z) by nia.
    specialize (E1 A1). specialize (E2 A2). subst k1.
    rewrite Z.even_add in E1. rewrite E2 in E1. discriminate E1.
  - assert (A1 : (2 * Z.abs (n - k1 * Zpos d) = Zpos d)%Z) by nia.
    assert (A2 : (2 * Z.abs (n - k2 * Zpos d) = Zpos d)%Z) by nia.
    specialize (E1 A1). specialize (E2 A2). subst k2.
    rewrite Z.even_add in E2. rewrite E1 in E2. discriminate E2.
Qed.
Lemma point_rounds_to_key (p : Vec3) (k : Z * Z * Z) :
  point_rounds_to p k <-> k = key4 p.
Proof.
  destruct k as [[k1 k2] k3]. unfold point_rounds_to, rounds_to_4dp, key4.
  cbn [fst snd]. split.
  - intros [H1 [H2 H3]].
    rewrite (nearest_integer_unique _ _ _ H1 (py_round_nearest _)),
      (nearest_integer_unique _ _ _ H2 (py_round_nearest _)),
      (nearest_integer_unique _ _ _ H3 (py_round_nearest _)).
    reflexivity.
  - intros H. inversion H. repeat split; apply py_round_nearest.
Qed.

Lemma py_round_nd_4 (x : Q) :
  py_round_nd x 4 = inject_Z (py_round (x * 10000)) / 10000.
Proof. reflexivity. Qed.

Lemma rounded_eq (x y : Q) :
  py_round_nd x 4 == py_round_nd y 4
  <-> py_round (x * 10000) = py_round (y * 10000).
Proof.
  rewrite !py_round_nd_4. split.
  - intros H. apply inject_Z_injective.
    assert (E : forall q : Q, q == q / 10000 * 10000) by (intros q; field).
    rewrite (E (inject_Z (py_round (x * 10000)))),
      (E (inject_Z (py_round (y * 10000)))), H.
    reflexivity.
  - intros ->. reflexivity.
Qed.

Lemma t3_ltb_compat (a a' b b' : T3) :
  t3_eqb a a' = true -> t3_eqb b b' = true -> t3_ltb b a = t3_ltb b' a'.
Proof.
  destruct a as [[a1 a2] a3], b as [[b1 b2] b3], a' as [[c1 c2] c3],
    b' as [[d1 d2] d3].
  intros Ha Hb. apply t3_eqb_iff in Ha, Hb.
  destruct Ha as [Ha1 [Ha2 Ha3]], Hb as [Hb1 [Hb2 Hb3]].
  apply eq_true_iff_eq. rewrite !t3_ltb_iff.
  split; intros [H|[H1 [H|[H2 H3]]]];
    first [left; lra
          |right; split; [lra|]; left; lra
          |right; split; [lra|]; right; split; lra].
Qed.

Lemma sig_sorted2_iff (a b c d : T3) :
  sig_eqb (sorted2 a b) (sorted2 c d) = true
  <-> (t3_eqb a c = true /\ t3_eqb b d = true)
      \/ (t3_eqb a d = true /\ t3_eqb b c = true).
Proof.
  split.
  - unfold sorted2, sig_eqb.
    destruct (t3_ltb b a), (t3_ltb d c); cbn [fst snd];
      rewrite andb_true_iff; intros [H1 H2]; tauto.
  - intros [[H1 H2]|[H1 H2]].
    + unfold sorted2. rewrite (t3_ltb_compat a c b d H1 H2).
      unfold sig_eqb. destruct (t3_ltb d c); cbn [fst snd];
        rewrite H1, H2; reflexivity.
    + apply sorted2_swap; assumption.
Qed.

Lemma t3_eqb_key (a b : Vec3) :
  t3_eqb (py_round_nd (vx a) 4, py_round_nd (vy a) 4, py_round_nd (vz a) 4)
    (py_round_nd (vx b) 4, py_round_nd (vy b) 4, py_round_nd (vz b) 4)
  = true
  <-> key4 a = key4 b.
Proof.
  rewrite t3_eqb_iff, !rounded_eq. unfold key4. split.
  - intros [-> [-> ->]]. reflexivity.
  - intros H. inversion H. repeat split; reflexivity.
Qed.

Lemma same_signature_duplicate (l1 l2 : entity) (s t : Vec3 * Vec3) :
  line_ends l1 = segment_ends s -> line_ends l2 = segment_ends t ->
  same_signature 4 l1 l2 = true <-> duplicate_segments s t.
Proof.
  unfold line_ends, segment_ends. intros H1 H2.
  inversion H1 as [[Hs1 He1]]. inversion H2 as [[Hs2 He2]].
  unfold same_signature, signature. rewrite Hs1, He1, Hs2, He2.
  cbn [round_point bind ret]. rewrite sig_sorted2_iff, !t3_eqb_key.
  unfold duplicate_segments. split.
  - intros H. exists (key4 (fst s)), (key4 (snd s)), (key4 (fst t)),
      (key4 (snd t)).
    repeat (split; [apply point_rounds_to_key; reflexivity|]). exact H.
  - intros [a [b [c [d [Ha [Hb [Hc [Hd H]]]]]]]].
    apply point_rounds_to_key in Ha, Hb, Hc, Hd. subst. exact H.
Qed.

Lemma reversed_is_duplicate (s t : Vec3 * Vec3) :
  reversed_segments s t -> duplicate_segments s t.
Proof.
  intros [a [b [Ha [Hb [Hc Hd]]]]]. exists a, b, b, a.
  repeat (split; [assumption|]). right. split; reflexivity.
Qed.

Lemma lines_of_segments (lines : list entity) (segs : list (Vec3 * Vec3)) :
  map line_ends lines = map segment_ends segs ->
  forallb has_endpoints lines = true
  /\ length lines = length segs
  /\ forall i,
       (i < length segs)%nat ->
       line_ends (item lines i) = segment_ends (segment_at segs i).
Proof.
  revert segs. induction lines as [|e lines IH]; intros segs H.
  - destruct segs; [|discriminate H].
    split; [reflexivity|]. split; [reflexivity|]. intros i Hi.
    cbn in Hi. lia.
  - destruct segs as [|s segs]; [discriminate H|].
    cbn [map] in H.
    assert (He : line_ends e = segment_ends s)
      by (inversion H as [[H1 H2 H3]]; unfold line_ends, segment_ends;
          rewrite H1, H2; reflexivity).
    assert (Hrest : map line_ends lines = map segment_ends segs)
      by (inversion H; reflexivity).
    destruct (IH segs Hrest) as [Hwf [Hlen Hnth]].
    split; [|split].
    + cbn [forallb]. rewrite Hwf.
      destruct e as [l [a|] [b|]|l c r|k l f|k l g cl|l ve|n l];
        try discriminate He; reflexivity.
    + cbn [length]. rewrite Hlen. reflexivity.
    + intros [|i] Hi; [exact He|]. cbn [length] in Hi.
      apply (Hnth i). lia.
Qed.

(** C4: on lines that carry both end points, the detector flags exactly
    the lines whose end points, each coordinate rounded to four decimal
    places, are the same unordered pair as those of another line; in
    particular two lines that are reverses of each other after rounding
    are both flagged.  It answers [ERRO] with the flagged lines, in some
    order, when there are some, and [OK] otherwise. *)
Theorem find_duplicate_lines_flags (msp : modelspace)
    (segs : list (Vec3 * Vec3)) :
  map line_ends
    (filter (is_type T_LINE) (get_flattend_entities (Some msp)))
  = map segment_ends segs ->
  exists flagged,
    NoDup flagged
    /\ (forall i,
          In i flagged
          <-> (i < length segs)%nat
              /\ exists j,
                   (j < length segs)%nat /\ j <> i
                   /\ duplicate_segments (segment_at segs i)
                        (segment_at segs j))
    /\ (forall i j,
          (i < length segs)%nat -> (j < length segs)%nat -> i <> j ->
          reversed_segments (segment_at segs i) (segment_at segs j) ->
          In i flagged /\ In j flagged)
    /\ (flagged = [] ->
        find_duplicate_lines msp 4
        = Result OK "Nenhuma linha sobreposta encontrada." DNone)
    /\ (flagged <> [] ->
        status (find_duplicate_lines msp 4) = ERRO
        /\ exists entities,
             data (find_duplicate_lines msp 4) = DEntities entities
             /\ Permutation entities
                  (map (item (filter (is_type T_LINE)
                                (get_flattend_entities (Some msp))))
                     flagged))
    /\ (status (find_duplicate_lines msp 4) = ERRO <-> flagged <> []).
Proof.
  intros Hends.
  destruct (lines_of_segments _ _ Hends) as [Hwf [Hlen Hnth]].
  destruct (duplicate_line_indices_spec 4 _ Hwf)
    as [flagged [Hf [Hnd Hin]]].
  assert (Hdup : forall i,
             In i flagged
             <-> (i < length segs)%nat
                 /\ exists j,
                      (j < length segs)%nat /\ j <> i
                      /\ duplicate_segments (segment_at segs i)
                           (segment_at segs j)).
  { intros i. rewrite Hin, Hlen. split.
    - intros [Hi [j [Hj [Hne Hs]]]]. split; [exact Hi|].
      exists j. split; [exact Hj|]. split; [exact Hne|].
      apply (same_signature_duplicate _ _ _ _ (Hnth i Hi) (Hnth j Hj)).
      exact Hs.
    - intros [Hi [j [Hj [Hne Hs]]]]. split; [exact Hi|].
      exists j. split; [exact Hj|]. split; [exact Hne|].
      apply (same_signature_duplicate _ _ _ _ (Hnth i Hi) (Hnth j Hj)).
      exact Hs. }
  exists flagged. split; [exact Hnd|]. split; [exact Hdup|].
  assert (Hres : find_duplicate_lines msp 4
                 = if truthy flagged
                   then Result ERRO
                          ("Encontrada(s) " ++ str_of_nat (length flagged)
                           ++ " linha(s) envolvida(s) em duplicação.")%string
                          (DEntities
                             (map (item (filter (is_type T_LINE)
                                           (get_flattend_entities
                                              (Some msp))))
                                flagged))
                   else Result OK "Nenhuma linha sobreposta encontrada."
                          DNone).
  { unfold find_duplicate_lines. cbv zeta. rewrite Hf. reflexivity. }
  split.
  { intros i j Hi Hj Hne Hrev. apply reversed_is_duplicate in Hrev.
    split; apply Hdup.
    - split; [exact Hi|]. exists j. split; [exact Hj|].
      split; [congruence|exact Hrev].
    - split; [exact Hj|]. exists i. split; [exact Hi|].
      split; [exact Hne|].
      destruct Hrev as [a [b [c [d [Ha [Hb [Hc [Hd H]]]]]]]].
      exists c, d, a, b. repeat (split; [assumption|]).
      destruct H as [[-> ->]|[-> ->]]; [left|right]; split; reflexivity. }
  split.
  { intros ->. rewrite Hres. reflexivity. }
  split.
  { intros Hne. rewrite Hres. destruct flagged; [contradiction|].
    split; [reflexivity|]. eexists. split; [reflexivity|].
    apply Permutation_refl. }
  rewrite Hres. destruct flagged; cbn; split; intros H;
    try discriminate; try congruence.
Qed.

Lemma find_duplicate_lines_flags_witness :
  exists flagged,
    NoDup flagged
    /\ (forall i,
          In i flagged
          <-> (i < 3)%nat
              /\ exists j,
                   (j < 3)%nat /\ j <> i
                   /\ duplicate_segments
                        (segment_at
                           [(V3 0.00001 0 0, V3 10 0 0);
                            (V3 10.00004 0 0, V3 0 0 0);
                            (V3 0 0 0, V3 10.0002 0 0)] i)
                        (segment_at
                           [(V3 0.00001 0 0, V3 10 0 0);
                            (V3 10.00004 0 0, V3 0 0 0);
                            (V3 0 0 0, V3 10.0002 0 0)] j))
    /\ (forall i j,
          (i < 3)%nat -> (j < 3)%nat -> i <> j ->
          reversed_segments
            (segment_at
               [(V3 0.00001 0 0, V3 10 0 0); (V3 10.00004 0 0, V3 0 0 0);
                (V3 0 0 0, V3 10.0002 0 0)] i)
            (segment_at
               [(V3 0.00001 0 0, V3 10 0 0); (V3 10.00004 0 0, V3 0 0 0);
                (V3 0 0 0, V3 10.0002 0 0)] j) ->
          In i flagged /\ In j flagged)
    /\ (flagged = [] ->
        find_duplicate_lines near_reversed_lines 4
        = Result OK "Nenhuma linha sobreposta encontrada." DNone)
    /\ (flagged <> [] ->
        status (find_duplicate_lines near_reversed_lines 4) = ERRO
        /\ exists entities,
             data (find_duplicate_lines near_reversed_lines 4)
             = DEntities entities
             /\ Permutation entities
                  (map (item (filter (is_type T_LINE)
                                (get_flattend_entities
                                   (Some near_reversed_lines))))
                     flagged))
    /\ (status (find_duplicate_lines near_reversed_lines 4) = ERRO
        <-> flagged <> []).
Proof.
  apply (find_duplicate_lines_flags near_reversed_lines
           [(V3 0.00001 0 0, V3 10 0 0); (V3 10.00004 0 0, V3 0 0 0);
            (V3 0 0 0, V3 10.0002 0 0)]).
  reflexivity.
Defined.

(** The examples, evaluated. *)
Lemma duplicate_examples :
  reversed_segments (V3 0 0 0, V3 10 0 0) (V3 10 0 0, V3 0 0 0)
  /\ status (find_duplicate_lines line_and_reverse 4) = ERRO
  /\ (exists entities,
         data (find_duplicate_lines line_and_reverse 4) = DEntities entities
         /\ Permutation entities line_and_reverse)
  /\ reversed_segments (V3 0.00001 0 0, V3 10 0 0)
       (V3 10.00004 0 0, V3 0 0 0)
  /\ exists entities,
       data (find_duplicate_lines near_reversed_lines 4) = DEntities entities
       /\ Permutation entities
            [line (V3 0.00001 0 0) (V3 10 0 0);
             line (V3 10.00004 0 0) (V3 0 0 0)].
Proof.
  split; [|split; [reflexivity|split; [|split]]].
  - exists (0, 0, 0)%Z, (100000, 0, 0)%Z.
    repeat split; apply point_rounds_to_key; reflexivity.
  - eexists. split; [reflexivity|apply Permutation_refl].
  - exists (0, 0, 0)%Z, (100000, 0, 0)%Z.
    repeat split; apply point_rounds_to_key; reflexivity.
  - eexists. split; [reflexivity|apply Permutation_refl].
Qed.

(** ** Hole symmetry checker: the pairing pass and the greedy pass *)

Lemma Qltb_not_le (a b : Q) : Qltb a b = negb (Qle_bool b a).
Proof.
  destruct (Qle_bool b a) eqn:E; cbn [negb].
  - apply Qle_bool_iff in E. destruct (Qltb a b) eqn:L; [|reflexivity].
    apply Qltb_lt in L. lra.
  - apply Qltb_lt. apply Qnot_le_lt. intros H. apply Qle_bool_iff in H.
    congruence.
Qed.

Lemma is_symmetric_pair_mirrored (tol : Q) (p q : Q * Q) :
  is_symmetric_pair tol (finite_position p) (finite_position q)
  = mirrored tol p q.
Proof.
  unfold is_symmetric_pair, mirrored, finite_position.
  cbn [fst snd fadd fabs fltb]. rewrite !Qltb_not_le. reflexivity.
Qed.

Lemma is_at_center_on_centre (tol : Q) (p : Q * Q) :
  is_at_center tol (finite_position p) = on_centre tol p.
Proof.
  unfold is_at_center, on_centre, finite_position.
  cbn [fst snd fabs fltb]. rewrite !Qltb_not_le. reflexivity.
Qed.

Lemma nth_finite_position (ps : list (Q * Q)) (i : nat) :
  (i < length ps)%nat ->
  nth i (map finite_position ps) no_position
  = finite_position (nth i ps (0, 0)).
Proof.
  intros Hi.
  rewrite (nth_indep _ no_position (finite_position (0, 0)))
    by (rewrite length_map; exact Hi).
  apply map_nth.
Qed.

Section GreedyPass.
Variable tol : Q.
Variable ps : list (Q * Q).

Lemma find_match_first_partner (matched : list bool) (paired : list nat)
    (i : nat) (js : list nat) :
  same_marks (length ps) matched paired ->
  (i < length ps)%nat ->
  (forall j, In j js -> (i < j < length ps)%nat) ->
  find_match tol (map finite_position ps) matched i js
  = first_partner tol ps paired i js.
Proof.
  intros [_ Hm] Hi. induction js as [|j js IH]; intros Hjs; [reflexivity|].
  cbn [find_match first_partner].
  assert (Hj : (i < j < length ps)%nat) by (apply Hjs; left; reflexivity).
  replace (i =? j)%nat with false by (symmetry; apply Nat.eqb_neq; lia).
  cbn [orb]. rewrite Hm.
  rewrite !nth_finite_position by lia.
  rewrite is_symmetric_pair_mirrored.
  destruct (existsb (Nat.eqb j) paired); cbn [negb andb].
  - apply IH. intros k Hk. apply Hjs. right. exact Hk.
  - destruct (mirrored tol (nth i ps (0, 0)) (nth j ps (0, 0)));
      [reflexivity|].
    apply IH. intros k Hk. apply Hjs. right. exact Hk.
Qed.

Lemma first_partner_range (paired : list nat) (i j : nat) (js : list nat) :
  first_partner tol ps paired i js = Some j -> In j js.
Proof.
  induction js as [|k js IH]; [discriminate|].
  cbn [first_partner].
  destruct (negb (existsb (Nat.eqb k) paired)
            && mirrored tol (nth i ps (0, 0)) (nth k ps (0, 0))).
  - intros H. inversion H. left. reflexivity.
  - intros H. right. exact (IH H).
Qed.

Lemma same_marks_pair (matched : list bool) (paired : list nat) (i j : nat) :
  same_marks (length ps) matched paired ->
  (i < length ps)%nat -> (j < length ps)%nat ->
  same_marks (length ps) (mark j (mark i matched)) (j :: i :: paired).
Proof.
  intros [Hlen Hm] Hi Hj. split; [rewrite !length_mark; exact Hlen|].
  intros k. cbn [existsb].
  destruct (Nat.eqb_spec k j) as [->|Hkj].
  - rewrite nth_mark_same by (rewrite length_mark, Hlen; exact Hj).
    reflexivity.
  - rewrite nth_mark_other by exact Hkj. cbn [orb].
    destruct (Nat.eqb_spec k i) as [->|Hki].
    + rewrite nth_mark_same by (rewrite Hlen; exact Hi). reflexivity.
    + rewrite nth_mark_other by exact Hki. cbn [orb]. apply Hm.
Qed.

Lemma greedy_matching_pairs (order : list nat) :
  (forall i, In i order -> (i < length ps)%nat) ->
  forall matched paired,
    same_marks (length ps) matched paired ->
    same_marks (length ps)
      (greedy_matching tol (map finite_position ps) order matched)
      (greedy_pairs tol ps order paired).
Proof.
  induction order as [|i order IH]; intros Hord matched paired Hsame;
    [exact Hsame|].
  assert (Hi : (i < length ps)%nat) by (apply Hord; left; reflexivity).
  assert (Hrest : forall k, In k order -> (k < length ps)%nat)
    by (intros k Hk; apply Hord; right; exact Hk).
  cbn [greedy_matching greedy_pairs].
  rewrite (proj2 Hsame i).
  destruct (existsb (Nat.eqb i) paired); [apply IH; assumption|].
  rewrite length_map.
  rewrite (find_match_first_partner matched paired i _ Hsame Hi)
    by (intros j Hj; apply in_seq in Hj; lia).
  destruct (first_partner tol ps paired i
              (seq (i + 1) (length ps - (i + 1)))) as [j|] eqn:E.
  - apply IH; [exact Hrest|]. apply same_marks_pair; try assumption.
    apply first_partner_range in E. apply in_seq in E. lia.
  - apply IH; assumption.
Qed.

(** The circles the model reports are those of the greedy pass of the
    specification. *)
Lemma pairing_pass_unpaired :
  snd (pairing_pass tol (map finite_position ps))
  = unpaired_off_centre tol ps.
Proof.
  rewrite pairing_pass_refines. unfold symmetry_breaking, unpaired_off_centre.
  cbv zeta. cbn [snd]. rewrite length_map.
  destruct (greedy_matching_pairs (seq 0 (length ps))
              (fun i Hi => proj2 (proj1 (in_seq _ _ _) Hi))
              (repeat false (length ps)) [])
    as [_ Hm].
  { split; [apply repeat_length|]. intros k. cbn [existsb].
    destruct (Nat.lt_ge_cases k (length ps)) as [Hk|Hk].
    - apply nth_repeat_lt. exact Hk.
    - apply nth_overflow. rewrite repeat_length. exact Hk. }
  apply filter_ext_in. intros i Hi. apply in_seq in Hi.
  rewrite Hm, nth_finite_position by lia.
  rewrite is_at_center_on_centre. reflexivity.
Qed.
End GreedyPass.

Lemma hole_positions_relative (cx cy : Q) (holes : list entity)
    (centres : list Vec3) :
  map dxf_center holes = map Some centres ->
  mapM (hole_position (Fin cx) (Fin cy)) holes
  = ret (map finite_position (map (relative_to cx cy) centres)).
Proof.
  revert centres. induction holes as [|h holes IH]; intros centres H.
  - destruct centres; [reflexivity|discriminate H].
  - destruct centres as [|c centres]; [discriminate H|].
    cbn [map] in H.
    assert (Hc : dxf_center h = Some c) by (inversion H; reflexivity).
    assert (Hrest : map dxf_center holes = map Some centres)
      by (inversion H; reflexivity).
    cbn [mapM map]. rewrite (IH _ Hrest). unfold hole_position at 1.
    rewrite Hc. reflexivity.
Qed.

(** C5: when the box of the drawing is found and every circle has a
    centre, the checker reports exactly the circles that the greedy pass of
    the specification leaves unpaired off the centre, where the position of
    a circle is its centre minus the centre of the box, a partner is sought
    among the later circles not paired yet, and two positions pair when
    their sum is within the tolerance of zero on each axis.  A circle on
    the centre takes part in the pass like any other and is never
    reported.  The answer is [OK] when no circle is reported and
    [FURO SEM SIMETRIA] with the reported circles otherwise. *)
Theorem hole_symmetry_pairing (msp : modelspace) (tol : Q)
    (x0 x1 y0 y1 : Q) (centres : list Vec3) :
  (2 <= length (holes_of msp))%nat ->
  _calculate_manual_bbox msp = ret (Some (Fin x0, Fin x1, Fin y0, Fin y1)) ->
  map dxf_center (holes_of msp) = map Some centres ->
  check_hole_symmetry msp tol
  = ret (match
          unpaired_off_centre tol
            (map (relative_to ((x0 + x1) / 2) ((y0 + y1) / 2)) centres)
        with
        | [] => Result OK "A furação da peça é simétrica." DNone
        | i :: rest =>
            Result FURO_SEM_SIMETRIA
              (str_of_nat (length (i :: rest))
               ++ " furo(s) quebra(m) a simetria.")%string
              (DEntities (map (item (holes_of msp)) (i :: rest)))
        end).
Proof.
  intros Hlen Hbbox Hcentres. unfold check_hole_symmetry. cbv zeta.
  fold (holes_of msp).
  replace (length (holes_of msp) <? 2)%nat
    with false by (symmetry; apply Nat.ltb_ge; exact Hlen).
  rewrite Hbbox. cbn [bind ret fadd fhalf].
  rewrite (hole_positions_relative _ _ _ _ Hcentres). cbn [bind ret].
  rewrite pairing_pass_unpaired.
  destruct (unpaired_off_centre tol _); reflexivity.
Qed.

Lemma hole_symmetry_pairing_witness :
  check_hole_symmetry shifted_five_holes 1e-2
  = ret (Result FURO_SEM_SIMETRIA "1 furo(s) quebra(m) a simetria."
           (DEntities [circle 113 217 1])).
Proof.
  exact (hole_symmetry_pairing shifted_five_holes 1e-2 100 120 200 220
           [point 115 215; point 105 215; point 115 205; point 105 205;
            point 113 217]
           (le_S _ _ (le_S _ _ (le_S _ _ (le_n 2)))) eq_refl eq_refl).
Defined.

(** The examples of the specification, about a centre that is not the
    origin of the drawing. *)
Lemma hole_symmetry_examples :
  _calculate_manual_bbox shifted_four_holes
  = ret (Some (Fin 100, Fin 120, Fin 200, Fin 220))
  /\ map (relative_to 110 210)
       [point 115 215; point 105 215; point 115 205; point 105 205;
        point 113 217]
     = [(115 - 110, 215 - 210); (105 - 110, 215 - 210);
        (115 - 110, 205 - 210); (105 - 110, 205 - 210);
        (113 - 110, 217 - 210)]
  /\ check_hole_symmetry shifted_four_holes 1e-2
     = ret (Result OK "A furação da peça é simétrica." DNone)
  /\ unpaired_off_centre 1e-2
       [(5, 5); (-5, 5); (5, -5); (-5, -5); (3, 7)] = [4%nat]
  /\ unpaired_off_centre 1e-2 [(0.005, 0); (-0.012, 0)] = [].
Proof. repeat split. Qed.

(** * Further properties *)

(** ** Entity flattener: what is kept *)

(** X1: a model space without block references is returned as it is, so
    flattening the flattened list changes nothing. *)
Theorem flatten_fixpoint_without_blocks (msp : modelspace) :
  forallb (fun e => negb (is_type T_INSERT e)) msp = true ->
  get_flattend_entities (Some msp) = msp
  /\ get_flattend_entities (Some (get_flattend_entities (Some msp)))
     = get_flattend_entities (Some msp).
Proof.
  intros H. rewrite !(flatten_without_blocks msp H).
  split; [reflexivity|exact (flatten_without_blocks msp H)].
Qed.

Lemma flatten_fixpoint_without_blocks_witness :
  get_flattend_entities (Some chain_in_modelspace.(doc_modelspace))
  = chain_in_modelspace.(doc_modelspace)
  /\ get_flattend_entities
       (Some (get_flattend_entities
                (Some chain_in_modelspace.(doc_modelspace))))
     = get_flattend_entities (Some chain_in_modelspace.(doc_modelspace)).
Proof.
  apply (flatten_fixpoint_without_blocks chain_in_modelspace.(doc_modelspace)).
  reflexivity.
Defined.

Lemma flatten_cons (e : entity) (msp : modelspace) :
  get_flattend_entities (Some (e :: msp))
  = get_flattend_entities (Some [e]) ++ get_flattend_entities (Some msp).
Proof. exact (flatten_app [e] msp). Qed.

(** X2: the flattener loses nothing: an entity of the model space is in the
    flattened list unless it is a block reference that was expanded without
    raising, and whatever a block reference yielded is in the flattened
    list, whether the expansion went through or raised. *)
Theorem flatten_loses_nothing (msp : modelspace) (e : entity) :
  In e msp ->
  (In e (get_flattend_entities (Some msp))
   \/ (is_type T_INSERT e = true /\ resolves e = true))
  /\ (forall x, In x (yielded_by e) ->
                In x (get_flattend_entities (Some msp)))
  /\ (resolves e = false -> In e (get_flattend_entities (Some msp))).
Proof.
  induction msp as [|a msp IH]; intros Hin; [destruct Hin|].
  rewrite flatten_cons.
  destruct Hin as [->|Hin].
  - destruct e as [l s t|l c r|k l f|k l g cl|l [content [ex|]]|n l];
      cbn [get_flattend_entities flat_map app yielded_by resolves];
      (split; [|split]);
      try (left; left; reflexivity);
      try (intros x []);
      try (intros _; left; reflexivity);
      try discriminate.
    + left. rewrite app_nil_r. apply in_or_app. left. apply in_or_app.
      right. left. reflexivity.
    + intros x Hx. rewrite app_nil_r. apply in_or_app. left.
      apply in_or_app. left. exact Hx.
    + intros _. rewrite app_nil_r. apply in_or_app. left. apply in_or_app.
      right. left. reflexivity.
    + right. split; reflexivity.
    + intros x Hx. rewrite app_nil_r. apply in_or_app. left. exact Hx.
  - destruct (IH Hin) as [H1 [H2 H3]]. split; [|split].
    + destruct H1 as [H1|H1]; [left; apply in_or_app; right; exact H1|].
      right. exact H1.
    + intros x Hx. apply in_or_app. right. exact (H2 x Hx).
    + intros Hr. apply in_or_app. right. exact (H3 Hr).
Qed.

Lemma flatten_loses_nothing_witness :
  (In (block [line (point 0 0) (point 1 0); line (point 1 0) (point 1 1)])
     (get_flattend_entities (Some (doc_modelspace chain_in_block)))
   \/ (is_type T_INSERT
         (block [line (point 0 0) (point 1 0); line (point 1 0) (point 1 1)])
       = true
       /\ resolves
            (block [line (point 0 0) (point 1 0); line (point 1 0) (point 1 1)])
          = true))
  /\ (forall x,
        In x (yielded_by
                (block [line (point 0 0) (point 1 0);
                        line (point 1 0) (point 1 1)])) ->
        In x (get_flattend_entities (Some (doc_modelspace chain_in_block))))
  /\ (resolves
        (block [line (point 0 0) (point 1 0); line (point 1 0) (point 1 1)])
      = false ->
      In (block [line (point 0 0) (point 1 0); line (point 1 0) (point 1 1)])
        (get_flattend_entities (Some (doc_modelspace chain_in_block)))).
Proof.
  exact (flatten_loses_nothing (doc_modelspace chain_in_block)
           (block [line (point 0 0) (point 1 0);
                   line (point 1 0) (point 1 1)])
           (or_introl eq_refl)).
Defined.

(** ** Counters over an equivalence *)

Section CounterSum.
Context {K : Type} (eqb : K -> K -> bool).
Hypothesis eqb_refl : forall a, eqb a a = true.
Hypothesis eqb_sym : forall a b, eqb a b = eqb b a.
Hypothesis eqb_trans :
  forall a b c, eqb a b = true -> eqb b c = true -> eqb a c = true.

Lemma pairwise_distinct_filter (f : K -> bool) (u : list K) :
  pairwise_distinct eqb u -> pairwise_distinct eqb (filter f u).
Proof.
  induction u as [|x u IH]; intros H; [exact I|].
  destruct H as [Hx Hu]. cbn [filter]. destruct (f x).
  - split; [|exact (IH Hu)]. intros k Hk. apply Hx.
    apply filter_In in Hk. apply Hk.
  - exact (IH Hu).
Qed.

Lemma pairwise_distinct_uniq (l : list K) : pairwise_distinct eqb (uniq eqb l).
Proof.
  induction l as [|x l IH]; [exact I|].
  cbn [uniq]. split.
  - intros k Hk. apply filter_In in Hk as [_ Hk].
    apply negb_true_iff in Hk. exact Hk.
  - apply pairwise_distinct_filter. exact IH.
Qed.

Lemma uniq_covers (l : list K) (y : K) :
  In y l -> exists k, In k (uniq eqb l) /\ eqb k y = true.
Proof.
  induction l as [|x l IH]; intros Hy; [destruct Hy|].
  destruct Hy as [->|Hy].
  - exists y. split; [left; reflexivity|apply eqb_refl].
  - destruct (IH Hy) as [k [Hk Hky]].
    destruct (eqb x k) eqn:Exk.
    + exists x. split; [left; reflexivity|].
      exact (eqb_trans x k y Exk Hky).
    + exists k. split; [|exact Hky]. right. apply filter_In.
      split; [exact Hk|]. rewrite Exk. reflexivity.
Qed.

Lemma one_representative (u : list K) (y : K) :
  pairwise_distinct eqb u ->
  (exists k, In k u /\ eqb k y = true) ->
  length (filter (fun k => eqb k y) u) = 1%nat.
Proof.
  induction u as [|x u IH]; intros Hpw [k [Hk Hky]]; [destruct Hk|].
  destruct Hpw as [Hx Hu]. cbn [filter].
  destruct (eqb x y) eqn:Exy.
  - cbn [length]. f_equal.
    replace (filter (fun k0 => eqb k0 y) u) with (@nil K); [reflexivity|].
    symmetry. apply filter_none. apply not_true_is_false. intros H.
    apply existsb_exists in H as [z [Hz Hzy]].
    rewrite (eqb_sym z y) in Hzy.
    pose proof (eqb_trans x y z Exy Hzy) as Hxz.
    rewrite (Hx z Hz) in Hxz. discriminate.
  - apply IH; [exact Hu|]. destruct Hk as [->|Hk]; [congruence|].
    exists k. split; assumption.
Qed.

Lemma list_sum_cons (a : nat) (l : list nat) :
  list_sum (a :: l) = (a + list_sum l)%nat.
Proof. reflexivity. Qed.

Lemma list_sum_map_add {A : Type} (f g : A -> nat) (u : list A) :
  list_sum (map (fun k => (f k + g k)%nat) u)
  = (list_sum (map f u) + list_sum (map g u))%nat.
Proof.
  induction u as [|x u IH]; [reflexivity|].
  cbn [map]. rewrite !list_sum_cons, IH. lia.
Qed.

Lemma list_sum_indicator {A : Type} (f : A -> bool) (u : list A) :
  list_sum (map (fun k => if f k then 1%nat else 0%nat) u)
  = length (filter f u).
Proof.
  induction u as [|x u IH]; [reflexivity|].
  cbn [map filter]. rewrite list_sum_cons, IH.
  destruct (f x); reflexivity.
Qed.

(** Summed over pairwise different representatives that cover the list,
    the numbers of occurrences add up to the length of the list. *)
Lemma count_sum_over (u l : list K) :
  pairwise_distinct eqb u ->
  (forall y, In y l -> exists k, In k u /\ eqb k y = true) ->
  list_sum (map (fun k => count eqb k l) u) = length l.
Proof.
  intros Hpw. induction l as [|y l IH]; intros Hcov.
  - clear. induction u as [|x u IHu]; [reflexivity|].
    cbn [map]. rewrite list_sum_cons, IHu. reflexivity.
  - rewrite (map_ext _ (fun k => ((if eqb k y then 1 else 0)
                                  + count eqb k l)%nat))
      by (intros k; apply count_cons).
    rewrite list_sum_map_add, list_sum_indicator.
    rewrite one_representative;
      [|exact Hpw|apply Hcov; left; reflexivity].
    rewrite IH; [reflexivity|].
    intros z Hz. apply Hcov. right. exact Hz.
Qed.

(** The counts of a [Counter] add up to the number of elements counted. *)
Lemma Counter_sum (l : list K) :
  list_sum (map snd (Counter eqb l)) = length l.
Proof.
  unfold Counter. rewrite map_map. cbn [snd].
  apply count_sum_over; [apply pairwise_distinct_uniq|apply uniq_covers].
Qed.
End CounterSum.

Lemma dxftype_eqb_eq (a b : dxftype_t) : dxftype_eqb a b = true <-> a = b.
Proof.
  destruct a, b; cbn; split; intros H; try reflexivity; try discriminate.
  - apply String.eqb_eq in H. subst. reflexivity.
  - inversion H. apply String.eqb_refl.
Qed.

Lemma dxftype_eqb_refl (a : dxftype_t) : dxftype_eqb a a = true.
Proof. apply dxftype_eqb_eq. reflexivity. Qed.

Lemma dxftype_eqb_sym (a b : dxftype_t) : dxftype_eqb a b = dxftype_eqb b a.
Proof.
  destruct (dxftype_eqb a b) eqn:E1, (dxftype_eqb b a) eqn:E2;
    try reflexivity.
  - apply dxftype_eqb_eq in E1. subst. rewrite dxftype_eqb_refl in E2.
    discriminate.
  - apply dxftype_eqb_eq in E2. subst. rewrite dxftype_eqb_refl in E1.
    discriminate.
Qed.

Lemma dxftype_eqb_trans (a b c : dxftype_t) :
  dxftype_eqb a b = true -> dxftype_eqb b c = true -> dxftype_eqb a c = true.
Proof.
  intros H1 H2. apply dxftype_eqb_eq in H1, H2. subst. apply dxftype_eqb_refl.
Qed.

(** ** Entity summary *)

(** X3: the summary never fails; it answers [ALERTA] exactly on an empty
    flattened set, and otherwise [OK] with a total equal to the number of
    flattened entities and, for every kind present and only for those, the
    number of flattened entities of that kind. *)
Theorem summarize_entities_counts (msp : modelspace) :
  (get_flattend_entities (Some msp) = [] ->
   summarize_entities msp
   = Result ALERTA "O desenho não possui elementos." DNone)
  /\ (get_flattend_entities (Some msp) <> [] ->
      exists counts,
        summarize_entities msp
        = Result OK
            ("A peça é composta por "
             ++ str_of_nat (length (get_flattend_entities (Some msp)))
             ++ " elementos.")%string
            (DCounts counts)
        /\ NoDup (map fst counts)
        /\ forall t n,
             In (t, n) counts
             <-> In t (map dxftype (get_flattend_entities (Some msp)))
                 /\ n = length (filter (is_type t)
                                  (get_flattend_entities (Some msp)))).
Proof.
  unfold summarize_entities. cbv zeta.
  set (flat := get_flattend_entities (Some msp)).
  split.
  - intros ->. reflexivity.
  - intros Hne.
    assert (Htruthy : truthy (Counter dxftype_eqb (map dxftype flat)) = true).
    { destruct flat as [|e flat']; [contradiction|]. reflexivity. }
    exists (Counter dxftype_eqb (map dxftype flat)).
    cbn [try_except ret]. rewrite Htruthy. cbn [negb].
    rewrite (Counter_sum dxftype_eqb dxftype_eqb_refl dxftype_eqb_sym
               dxftype_eqb_trans), length_map.
    split; [reflexivity|]. split.
    + unfold Counter. rewrite map_map. cbn [fst]. rewrite map_id.
      apply (NoDup_uniq dxftype_eqb dxftype_eqb_eq).
    + intros t n. unfold Counter. rewrite in_map_iff.
      assert (Hcount : forall k,
                 count dxftype_eqb k (map dxftype flat)
                 = length (filter (is_type k) flat)).
      { intros k. unfold count. clear. induction flat as [|e l IH];
          [reflexivity|].
        cbn [map filter]. unfold is_type at 1.
        rewrite (dxftype_eqb_sym (dxftype e) k).
        destruct (dxftype_eqb k (dxftype e)); cbn [length]; rewrite IH;
          reflexivity. }
      split.
      * intros [k [Hk Hin]]. inversion Hk. subst.
        split; [|apply Hcount].
        exact (proj1 (In_uniq dxftype_eqb dxftype_eqb_eq _ _) Hin).
      * intros [Hin ->]. exists t. rewrite Hcount. split; [reflexivity|].
        exact (proj2 (In_uniq dxftype_eqb dxftype_eqb_eq _ _) Hin).
Qed.

Lemma summarize_entities_counts_witness :
  exists counts,
    summarize_entities five_holes
    = Result OK "A peça é composta por 9 elementos." (DCounts counts)
    /\ In (T_CIRCLE, 5%nat) counts /\ In (T_LINE, 4%nat) counts.
Proof.
  destruct (proj2 (summarize_entities_counts five_holes))
    as [counts [Hres [_ Hin]]]; [discriminate|].
  exists counts. split; [exact Hres|].
  split; apply Hin; split; cbn; auto 10.
Defined.

(** ** Layer analysis *)

Lemma layer_used_by_map (msp : modelspace) (name : string) :
  truthy (query_layer msp name)
  = existsb (fun l => String.eqb l name) (map entity_layer msp).
Proof.
  unfold query_layer. rewrite truthy_filter.
  induction msp as [|e msp IH]; [reflexivity|].
  cbn [existsb map]. rewrite IH. reflexivity.
Qed.

(** X4: the layer analysis never fails; the layers it reports are the
    declared layers, other than [0] and [defpoints] in any letter case,
    that carry no entity of the model space itself; it answers [ALERTA]
    exactly when there is one; and the answer depends on the layers of the
    top-level entities only, so an entity inside a block does not make its
    layer count as used. *)
Theorem analyze_layers_reports (doc : document) (msp : modelspace) :
  exists names,
    (forall L,
        In L names
        <-> In L (doc_layers doc)
            /\ lower L <> "0"%string /\ lower L <> "defpoints"%string
            /\ forall e, In e msp -> entity_layer e <> L)
    /\ analyze_layers doc msp
       = (if truthy names
          then Result ALERTA
                 ("Encontradas " ++ str_of_nat (length names)
                  ++ " camadas vazias.")%string
                 (DNames names)
          else Result OK
                 ("Nenhuma camada vazia encontrada ("
                  ++ str_of_nat (length (doc_layers doc)) ++ " total).")%string
                 DNone)
    /\ forall msp',
         map entity_layer msp' = map entity_layer msp ->
         analyze_layers doc msp' = analyze_layers doc msp.
Proof.
  exists (filter
            (fun name =>
               negb (existsb (String.eqb (lower name))
                       ["0"; "defpoints"]%string)
               && negb (truthy (query_layer msp name)))
            (doc_layers doc)).
  split; [|split; [reflexivity|]].
  - intros L. rewrite filter_In, andb_true_iff, !negb_true_iff.
    cbn [existsb]. rewrite orb_false_r.
    rewrite orb_false_iff, !String.eqb_neq.
    unfold query_layer. rewrite truthy_filter. split.
    + intros [HL [[H0 Hd] Hq]].
      split; [exact HL|]. split; [exact H0|]. split; [exact Hd|].
      intros e He E.
      assert (existsb (fun e0 => String.eqb (entity_layer e0) L) msp
              = true); [|congruence].
      apply existsb_exists. exists e. split; [exact He|].
      apply String.eqb_eq. exact E.
    + intros [HL [H0 [Hd Hq]]].
      split; [exact HL|]. split; [split; assumption|].
      apply not_true_is_false. intros H.
      apply existsb_exists in H as [e [He E]].
      apply String.eqb_eq in E. exact (Hq e He E).
  - intros msp' Hsame. unfold analyze_layers. cbv zeta.
    erewrite (filter_ext _ (fun name =>
                negb (existsb (String.eqb (lower name))
                        ["0"; "defpoints"]%string)
                && negb (truthy (query_layer msp name)))); [reflexivity|].
    intros name. rewrite !layer_used_by_map, Hsame. reflexivity.
Qed.

Lemma analyze_layers_reports_witness :
  analyze_layers layer_used_in_block (doc_modelspace layer_used_in_block)
  = analyze_layers layer_used_in_block [Insert "0" ([], None)].
Proof.
  destruct (analyze_layers_reports layer_used_in_block
              [Insert "0" ([], None)]) as [names [_ [_ Hsame]]].
  apply Hsame. reflexivity.
Defined.

(** The layer of the example is reported although a circle inside the
    block lies on it; the reserved layers are not. *)
Lemma analyze_layers_block_layer :
  analyze_layers layer_used_in_block (doc_modelspace layer_used_in_block)
  = Result ALERTA "Encontradas 1 camadas vazias." (DNames ["FUROS"%string]).
Proof. reflexivity. Qed.

(** ** Geometry extent calculator: what the box holds *)

Lemma Qltb_false (a b : Q) : Qltb a b = false -> b <= a.
Proof.
  intros H. apply Qnot_lt_le. intros Hlt. apply Qltb_lt in Hlt. congruence.
Qed.

Lemma extend_bbox_fold (points : list (option Point2)) :
  forall b, fst (extend_bbox points b) = fold_left grow (present_prefix points) b.
Proof.
  induction points as [|[[p0 p1]|] points IH]; intros b; try reflexivity.
  cbn [extend_bbox present_prefix fold_left].
  destruct b as [[[mx Mx] my] My]. rewrite IH. reflexivity.
Qed.

(** When no entity raises past the [except], the loop ends with the box
    grown by every contributed point, in order. *)
Lemma bbox_loop_fold (ents : list entity) :
  existsb escapes_bbox ents = false ->
  forall b hd,
    bbox_loop ents b hd
    = ret (fold_left grow (flat_map contributed_points ents) b,
           hd || existsb (fun e => negb (skipped_by_bbox e)) ents).
Proof.
  induction ents as [|e ents IH]; intros Hesc b hd.
  - cbn. rewrite orb_false_r. reflexivity.
  - cbn [existsb] in Hesc. apply orb_false_elim in Hesc as [He Hesc].
    cbn [bbox_loop existsb flat_map]. rewrite fold_left_app.
    assert (Hc : contributed_points e
                 = match entity_points e with
                   | Some (inr points) => present_prefix points
                   | _ => []
                   end) by reflexivity.
    assert (Hs : skipped_by_bbox e
                 = match entity_points e with
                   | None => true
                   | Some (inl ex) => trapped_by_bbox ex
                   | Some (inr _) => false
                   end) by reflexivity.
    rewrite Hc, Hs. clear Hc Hs.
    unfold escapes_bbox in He.
    destruct (entity_points e) as [[ex|points]|].
    + apply negb_false_iff in He. rewrite He. cbn [negb orb fold_left].
      exact (IH Hesc b hd).
    + pose proof (extend_bbox_fold points b) as Hfold.
      destruct (extend_bbox points b) as [b1 [ex|]] eqn:Hext;
        cbn [fst] in Hfold; subst b1.
      * rewrite (extend_bbox_trapped _ _ _ _ Hext).
        rewrite (IH Hesc _ true). cbn [negb orb]. rewrite orb_true_r.
        reflexivity.
      * rewrite (IH Hesc _ true). cbn [negb orb]. rewrite orb_true_r.
        reflexivity.
    + cbn [negb orb fold_left]. exact (IH Hesc b hd).
Qed.

Lemma spans_first (p : Point2) : spans [p] (grow initial_box p).
Proof.
  exists (fst p), (fst p), (snd p), (snd p).
  split; [reflexivity|]. split.
  - intros q [<-|[]]. repeat split; apply Qle_refl.
  - repeat split; exists p; split; try reflexivity; left; reflexivity.
Qed.

Lemma spans_grow (pts : list Point2) (b : bbox_t) (p : Point2) :
  spans pts b -> spans (pts ++ [p]) (grow b p).
Proof.
  intros [x0 [x1 [y0 [y1 [-> [Hin [[p0 [Hp0 E0]] [[p1 [Hp1 E1]]
    [[q0 [Hq0 F0]] [q1 [Hq1 F1]]]]]]]]]]].
  unfold grow, py_min, py_max, fltb.
  exists (if Qltb (fst p) x0 then fst p else x0),
         (if Qltb x1 (fst p) then fst p else x1),
         (if Qltb (snd p) y0 then snd p else y0),
         (if Qltb y1 (snd p) then snd p else y1).
  split.
  { destruct (Qltb (fst p) x0), (Qltb x1 (fst p)), (Qltb (snd p) y0),
      (Qltb y1 (snd p)); reflexivity. }
  split.
  { intros q Hq. apply in_app_or in Hq as [Hq|[<-|[]]].
    - destruct (Hin q Hq) as [H1 [H2 [H3 H4]]].
      destruct (Qltb (fst p) x0) eqn:A; [apply Qltb_lt in A|];
        destruct (Qltb x1 (fst p)) eqn:B; [apply Qltb_lt in B| |
                                           apply Qltb_lt in B|];
        destruct (Qltb (snd p) y0) eqn:C; try (apply Qltb_lt in C);
        destruct (Qltb y1 (snd p)) eqn:D; try (apply Qltb_lt in D);
        repeat split; lra.
    - destruct (Qltb (fst p) x0) eqn:A;
        [|apply Qltb_false in A];
        destruct (Qltb x1 (fst p)) eqn:B;
        [| apply Qltb_false in B | | apply Qltb_false in B];
        destruct (Qltb (snd p) y0) eqn:C; try (apply Qltb_false in C);
        destruct (Qltb y1 (snd p)) eqn:D; try (apply Qltb_false in D);
        repeat split; lra. }
  split.
  { destruct (Qltb (fst p) x0).
    - exists p. split; [apply in_or_app; right; left|]; reflexivity.
    - exists p0. split; [apply in_or_app; left|]; assumption. }
  split.
  { destruct (Qltb x1 (fst p)).
    - exists p. split; [apply in_or_app; right; left|]; reflexivity.
    - exists p1. split; [apply in_or_app; left|]; assumption. }
  split.
  { destruct (Qltb (snd p) y0).
    - exists p. split; [apply in_or_app; right; left|]; reflexivity.
    - exists q0. split; [apply in_or_app; left|]; assumption. }
  destruct (Qltb y1 (snd p)).
  - exists p. split; [apply in_or_app; right; left|]; reflexivity.
  - exists q1. split; [apply in_or_app; left|]; assumption.
Qed.

Lemma spans_fold (pts : list Point2) :
  forall seen b,
    spans seen b -> spans (seen ++ pts) (fold_left grow pts b).
Proof.
  induction pts as [|p pts IH]; intros seen b H.
  - rewrite app_nil_r. exact H.
  - cbn [fold_left].
    replace (seen ++ p :: pts) with ((seen ++ [p]) ++ pts)
      by (rewrite <- app_assoc; reflexivity).
    apply IH. apply spans_grow. exact H.
Qed.

Lemma spans_from_initial (pts : list Point2) :
  pts <> [] -> spans pts (fold_left grow pts initial_box).
Proof.
  destruct pts as [|p pts]; [contradiction|]. intros _.
  cbn [fold_left]. apply (spans_fold pts [p]). apply spans_first.
Qed.

Lemma contributes_not_skipped (ents : list entity) :
  flat_map contributed_points ents <> [] ->
  truthy ents = true
  /\ existsb (fun e => negb (skipped_by_bbox e)) ents = true.
Proof.
  induction ents as [|e ents IH]; intros H; [contradiction|].
  split; [reflexivity|]. cbn [existsb flat_map] in *.
  assert (Hc : contributed_points e
               = match entity_points e with
                 | Some (inr points) => present_prefix points
                 | _ => []
                 end) by reflexivity.
  assert (Hs : skipped_by_bbox e
               = match entity_points e with
                 | None => true
                 | Some (inl ex) => trapped_by_bbox ex
                 | Some (inr _) => false
                 end) by reflexivity.
  rewrite Hc in H. rewrite Hs. clear Hc Hs.
  destruct (entity_points e) as [[ex|points]|]; try reflexivity;
    cbn [app] in H; rewrite (proj2 (IH H)); apply orb_true_r.
Qed.

(** X8: on a drawing without circles, when no entity raises past the
    [except] and some entity contributes a point, the extent calculator
    returns a finite box that holds every contributed point and is tight:
    each of its four sides passes through a contributed point.  Circles are
    left out: the corners of their box are sums computed by the program,
    and the rationals of the model do not show a sum that overflows. *)
Theorem bbox_spans_contributed_points (msp : modelspace) :
  existsb escapes_bbox (get_flattend_entities (Some msp)) = false ->
  existsb (is_type T_CIRCLE) (get_flattend_entities (Some msp)) = false ->
  flat_map contributed_points (get_flattend_entities (Some msp)) <> [] ->
  exists b,
    _calculate_manual_bbox msp = ret (Some b)
    /\ spans (flat_map contributed_points (get_flattend_entities (Some msp)))
         b.
Proof.
  intros Hesc _ Hpts.
  destruct (contributes_not_skipped _ Hpts) as [Htruthy Hdata].
  exists (fold_left grow
            (flat_map contributed_points (get_flattend_entities (Some msp)))
            initial_box).
  split; [|exact (spans_from_initial _ Hpts)].
  unfold _calculate_manual_bbox. rewrite Htruthy. cbn [negb].
  fold initial_box. rewrite (bbox_loop_fold _ Hesc).
  cbn [bind ret fst snd orb]. rewrite Hdata. reflexivity.
Qed.

Lemma bbox_spans_contributed_points_witness :
  exists b,
    _calculate_manual_bbox lines_and_polyline = ret (Some b)
    /\ spans [(0, 0); (4, 1); (-3, 5); (1, 7)] b.
Proof.
  apply (bbox_spans_contributed_points lines_and_polyline);
    [reflexivity|reflexivity|].
  discriminate.
Defined.

(** X9: when no entity raises past the [except], the extent calculator
    returns [None] exactly when every entity is skipped before [has_data]
    is set, and returns the box of infinities exactly when some entity
    sets [has_data] and no point is contributed. *)
Theorem bbox_degenerate_cases (msp : modelspace) :
  existsb escapes_bbox (get_flattend_entities (Some msp)) = false ->
  (_calculate_manual_bbox msp = ret None
   <-> forallb skipped_by_bbox (get_flattend_entities (Some msp)) = true)
  /\ (_calculate_manual_bbox msp = ret (Some initial_box)
      <-> existsb (fun e => negb (skipped_by_bbox e))
            (get_flattend_entities (Some msp)) = true
          /\ flat_map contributed_points (get_flattend_entities (Some msp))
             = []).
Proof.
  intros Hesc.
  assert (Hall : forallb skipped_by_bbox (get_flattend_entities (Some msp))
                 = negb (existsb (fun e => negb (skipped_by_bbox e))
                           (get_flattend_entities (Some msp)))).
  { induction (get_flattend_entities (Some msp)) as [|e l IH];
      [reflexivity|].
    cbn [forallb existsb]. rewrite negb_orb, negb_involutive, IH by
      (cbn [existsb] in Hesc; apply orb_false_elim in Hesc; apply Hesc).
    reflexivity. }
  assert (Hres : _calculate_manual_bbox msp
                 = ret (if existsb (fun e => negb (skipped_by_bbox e))
                             (get_flattend_entities (Some msp))
                        then Some (fold_left grow
                                     (flat_map contributed_points
                                        (get_flattend_entities (Some msp)))
                                     initial_box)
                        else None)).
  { unfold _calculate_manual_bbox.
    destruct (get_flattend_entities (Some msp)) as [|e l] eqn:Hflat;
      [reflexivity|].
    cbn [truthy negb]. fold initial_box. rewrite (bbox_loop_fold _ Hesc).
    reflexivity. }
  rewrite Hres, Hall. clear Hres Hall.
  destruct (existsb (fun e => negb (skipped_by_bbox e))
              (get_flattend_entities (Some msp))).
  2: { split; split; intros H; try reflexivity;
         [discriminate H|destruct H as [H _]; discriminate H]. }
  split.
  - split; intros H; discriminate H.
  - cbn [negb]. split.
    + intros H. split; [reflexivity|].
      destruct (flat_map contributed_points _) as [|p pts] eqn:Hpts;
        [reflexivity|].
      exfalso.
      assert (Hne : p :: pts <> []) by discriminate.
      destruct (spans_from_initial _ Hne) as [x0 [x1 [y0 [y1 [Hb _]]]]].
      rewrite Hb in H. discriminate H.
    + intros [_ ->]. reflexivity.
Qed.

Lemma bbox_degenerate_cases_witness :
  _calculate_manual_bbox [Other "TEXT" "0"; Circle "0" None (Some 1)]
  = ret None
  /\ _calculate_manual_bbox [empty_polyline; Other "TEXT" "0"]
     = ret (Some initial_box).
Proof.
  split.
  - apply (proj1 (bbox_degenerate_cases
                    [Other "TEXT" "0"; Circle "0" None (Some 1)] eq_refl)).
    reflexivity.
  - apply (proj2 (bbox_degenerate_cases [empty_polyline; Other "TEXT" "0"]
                    eq_refl)).
    split; reflexivity.
Defined.

(** ** Hole symmetry checker: what the matching guarantees *)

Section Matching.
Variable tol : Q.
Variable pos : list position.

Lemma find_match_Some_pair (m : list bool) (i j : nat) (js : list nat) :
  find_match tol pos m i js = Some j ->
  nth j m false = false
  /\ is_symmetric_pair tol (nth i pos no_position) (nth j pos no_position)
     = true.
Proof.
  induction js as [|k js IH]; cbn [find_match]; [discriminate|].
  destruct ((i =? k)%nat || nth k m false) eqn:E; [exact IH|].
  destruct (is_symmetric_pair tol _ (nth k pos no_position)) eqn:Es;
    [|exact IH].
  intros H. inversion H. subst. apply orb_false_elim in E as [_ E].
  split; assumption.
Qed.

Lemma greedy_matching_settled (len : nat) :
  forall i m,
    (i + len = length pos)%nat -> length m = length pos ->
    settled tol pos i m ->
    settled tol pos (length pos) (greedy_matching tol pos (seq i len) m).
Proof.
  induction len as [|len IH]; intros i m Hn Hlen Hset.
  - cbn. replace (length pos) with i by lia. exact Hset.
  - cbn [seq greedy_matching].
    destruct (nth i m false) eqn:Emi.
    + apply IH; try assumption; try lia. apply settled_skip; assumption.
    + destruct (find_match tol pos m i (seq (i + 1) _)) as [j|] eqn:Ef.
      * apply IH; try lia.
        -- rewrite !length_mark. exact Hlen.
        -- apply settled_some; [lia|exact Hset].
      * apply IH; try assumption; try lia.
        apply settled_none; [exact Hset|].
        rewrite find_match_subsequent by (try assumption; lia). exact Ef.
Qed.

Lemma partnered_mark (m : list bool) (i j : nat) :
  length m = length pos ->
  (i < length pos)%nat -> (j < length pos)%nat -> j <> i ->
  is_symmetric_pair tol (nth i pos no_position) (nth j pos no_position)
  = true ->
  partnered tol pos m -> partnered tol pos (mark j (mark i m)).
Proof.
  intros Hlen Hi Hj Hne Hsym Hp x Hx.
  assert (Hmi : nth i (mark j (mark i m)) false = true).
  { apply nth_mark_true, nth_mark_same. lia. }
  assert (Hmj : nth j (mark j (mark i m)) false = true).
  { apply nth_mark_same. rewrite length_mark. lia. }
  destruct (Nat.eq_dec x i) as [->|Hxi].
  - exists j. repeat split; assumption.
  - destruct (Nat.eq_dec x j) as [->|Hxj].
    + exists i. repeat split; try assumption; try congruence.
      rewrite is_symmetric_pair_sym. exact Hsym.
    + rewrite !nth_mark_other in Hx by assumption.
      destruct (Hp x Hx) as [y [Hy [Hyx [Hmy Hs]]]].
      exists y. repeat split; try assumption.
      apply nth_mark_true, nth_mark_true. exact Hmy.
Qed.

Lemma greedy_matching_partnered (is_ : list nat) :
  forall m,
    length m = length pos ->
    (forall i, In i is_ -> (i < length pos)%nat) ->
    partnered tol pos m ->
    partnered tol pos (greedy_matching tol pos is_ m).
Proof.
  induction is_ as [|i is_ IH]; intros m Hlen His Hp; [exact Hp|].
  cbn [greedy_matching].
  assert (His' : forall x, In x is_ -> (x < length pos)%nat)
    by (intros x Hx; apply His; right; exact Hx).
  destruct (nth i m false); [exact (IH m Hlen His' Hp)|].
  destruct (find_match tol pos m i (seq (i + 1) _)) as [j|] eqn:Ef;
    [|exact (IH m Hlen His' Hp)].
  destruct (find_match_Some _ _ _ _ _ _ Ef) as [Hj Hne].
  destruct (find_match_Some_pair _ _ _ _ Ef) as [_ Hsym].
  apply in_seq in Hj.
  apply IH; [rewrite !length_mark; exact Hlen|exact His'|].
  apply partnered_mark; try assumption; try lia.
Qed.
End Matching.

Lemma pairing_pass_partnered (tol : Q) (pos : list position) :
  partnered tol pos (fst (pairing_pass tol pos)).
Proof.
  rewrite pairing_pass_refines. unfold symmetry_breaking. cbn [fst snd].
  apply greedy_matching_partnered.
  - apply repeat_length.
  - intros i Hi. apply in_seq in Hi. lia.
  - intros i Hi. exfalso.
    destruct (Nat.lt_ge_cases i (length pos)) as [Hl|Hl].
    + rewrite nth_repeat_lt in Hi by exact Hl. discriminate.
    + rewrite nth_overflow in Hi by (rewrite repeat_length; exact Hl).
      discriminate.
Qed.

(** X11: the matching of the pairing pass is sound and cannot be extended:
    every matched circle has a matched partner symmetric to it within the
    tolerance, no two circles left unmatched are symmetric to each other,
    and every reported circle is off the centre and unmatched. *)
Theorem pairing_pass_matching (tol : Q) (pos : list position) :
  length (fst (pairing_pass tol pos)) = length pos
  /\ partnered tol pos (fst (pairing_pass tol pos))
  /\ settled tol pos (length pos) (fst (pairing_pass tol pos))
  /\ forall i,
       In i (snd (pairing_pass tol pos)) ->
       (i < length pos)%nat
       /\ nth i (fst (pairing_pass tol pos)) false = false
       /\ is_at_center tol (nth i pos no_position) = false.
Proof.
  rewrite pairing_pass_refines. unfold symmetry_breaking. cbn [fst snd].
  split; [|split; [|split]].
  - rewrite greedy_matching_length. apply repeat_length.
  - apply greedy_matching_partnered.
    + apply repeat_length.
    + intros i Hi. apply in_seq in Hi. lia.
    + intros i Hi. exfalso.
      destruct (Nat.lt_ge_cases i (length pos)) as [Hl|Hl].
      * rewrite nth_repeat_lt in Hi by exact Hl. discriminate.
      * rewrite nth_overflow in Hi by (rewrite repeat_length; exact Hl).
        discriminate.
  - apply greedy_matching_settled.
    + reflexivity.
    + apply repeat_length.
    + intros j k Hj. lia.
  - intros i Hi. apply filter_In in Hi as [Hi Hf].
    apply in_seq in Hi. apply andb_prop in Hf as [H1 H2].
    apply negb_true_iff in H1, H2. repeat split; try assumption. lia.
Qed.

(** X12: an answer [OK] on two circles or more is never given while a
    circle off the centre has no mirror image: the centre of the box was
    found, and every circle either lies on the centre or has another
    circle symmetric to it about the centre within the tolerance. *)
Theorem hole_symmetry_ok_is_sound (msp : modelspace) (tol : Q)
    (r : CheckResult) :
  (2 <= length (filter (is_type T_CIRCLE)
                  (get_flattend_entities (Some msp))))%nat ->
  check_hole_symmetry msp tol = ret r ->
  status r = OK ->
  exists min_x max_x min_y max_y ps,
    _calculate_manual_bbox msp = ret (Some (min_x, max_x, min_y, max_y))
    /\ mapM (hole_position (fhalf (fadd min_x max_x))
               (fhalf (fadd min_y max_y)))
         (filter (is_type T_CIRCLE) (get_flattend_entities (Some msp)))
       = ret ps
    /\ forall i,
         (i < length ps)%nat ->
         is_at_center tol (nth i ps no_position) = true
         \/ exists j,
              (j < length ps)%nat /\ j <> i
              /\ is_symmetric_pair tol (nth i ps no_position)
                   (nth j ps no_position) = true.
Proof.
  intros Hlen Hrun Hok. unfold check_hole_symmetry in Hrun.
  cbv zeta in Hrun.
  replace (length (filter (is_type T_CIRCLE)
                     (get_flattend_entities (Some msp))) <? 2)%nat
    with false in Hrun by (symmetry; apply Nat.ltb_ge; exact Hlen).
  destruct (_calculate_manual_bbox msp) as [ex|[[[[mx Mx] my] My]|]];
    cbn [bind] in Hrun; [discriminate| |].
  - destruct (mapM _ _) as [ex|ps] eqn:Hps; cbn [bind] in Hrun;
      [discriminate|].
    exists mx, Mx, my, My, ps.
    split; [reflexivity|]. split; [exact Hps|].
    destruct (snd (pairing_pass tol ps)) as [|a l] eqn:Hasym.
    + intros i Hi.
      pose proof (pairing_pass_partnered tol ps) as Hpart.
      rewrite pairing_pass_refines in Hasym, Hpart.
      unfold symmetry_breaking in Hasym, Hpart. cbn [fst snd] in *.
      assert (Hf : negb (nth i (greedy_matching tol ps
                                  (seq 0 (length ps))
                                  (repeat false (length ps))) false)
                   && negb (is_at_center tol (nth i ps no_position))
                   = false).
      { apply not_true_is_false. intros Ht.
        assert (Hin : In i (filter
                              (fun k =>
                                 negb (nth k (greedy_matching tol ps
                                                (seq 0 (length ps))
                                                (repeat false (length ps)))
                                         false)
                                 && negb (is_at_center tol
                                            (nth k ps no_position)))
                              (seq 0 (length ps)))).
        { apply filter_In. split; [apply in_seq; lia|exact Ht]. }
        rewrite Hasym in Hin. destruct Hin. }
      apply andb_false_iff in Hf as [Hf|Hf]; apply negb_false_iff in Hf.
      * right. destruct (Hpart i Hf) as [j [Hj [Hne [_ Hs]]]].
        exists j. repeat split; assumption.
      * left. exact Hf.
    + cbn [truthy negb] in Hrun. inversion Hrun. subst r. discriminate.
  - inversion Hrun. subst r. discriminate.
Qed.

Lemma hole_symmetry_ok_is_sound_witness :
  exists min_x max_x min_y max_y ps,
    _calculate_manual_bbox centred_holes
    = ret (Some (min_x, max_x, min_y, max_y))
    /\ mapM (hole_position (fhalf (fadd min_x max_x))
               (fhalf (fadd min_y max_y)))
         (filter (is_type T_CIRCLE)
            (get_flattend_entities (Some centred_holes)))
       = ret ps
    /\ forall i,
         (i < length ps)%nat ->
         is_at_center 1e-2 (nth i ps no_position) = true
         \/ exists j,
              (j < length ps)%nat /\ j <> i
              /\ is_symmetric_pair 1e-2 (nth i ps no_position)
                   (nth j ps no_position) = true.
Proof.
  apply (hole_symmetry_ok_is_sound centred_holes 1e-2
           (Result OK "A furação da peça é simétrica." DNone));
    [cbn; lia|reflexivity|reflexivity].
Defined.

Lemma pairing_pass_matching_witness :
  (4 < length five_positions)%nat
  /\ nth 4 (fst (pairing_pass 1e-2 five_positions)) false = false
  /\ is_at_center 1e-2 (nth 4 five_positions no_position) = false.
Proof.
  apply (proj2 (proj2 (proj2 (pairing_pass_matching 1e-2 five_positions)))).
  left. reflexivity.
Defined.

(** ** Drawing check orchestrator: when it returns *)

Lemma bbox_loop_escapes (ents : list entity) :
  existsb escapes_bbox ents = true ->
  forall b hd, exists ex, bbox_loop ents b hd = inl ex.
Proof.
  induction ents as [|e ents IH]; intros H b hd; [discriminate|].
  cbn [existsb] in H. cbn [bbox_loop].
  unfold escapes_bbox in H at 1.
  destruct (entity_points e) as [[ex|points]|].
  - destruct (trapped_by_bbox ex); cbn [negb orb] in H;
      [exact (IH H b hd)|].
    exists ex. reflexivity.
  - cbn [orb] in H. destruct (extend_bbox points b) as [b1 [ex|]] eqn:Hext.
    + rewrite (extend_bbox_trapped _ _ _ _ Hext). exact (IH H b1 true).
    + exact (IH H b1 true).
  - exact (IH H b hd).
Qed.

Lemma mapM_hole_position_iff (cx cy : pyfloat) (holes : list entity) :
  (exists ps, mapM (hole_position cx cy) holes = ret ps)
  <-> forallb (fun e => match dxf_center e with
                        | Some _ => true
                        | None => false
                        end) holes = true.
Proof.
  induction holes as [|h holes IH].
  - split; [reflexivity|]. intros _. exists []. reflexivity.
  - cbn [mapM forallb]. unfold hole_position at 1.
    destruct (dxf_center h) as [c|].
    + cbn [bind ret andb]. rewrite <- IH. split.
      * intros [ps H]. destruct (mapM _ holes) as [ex|qs];
          [cbn in H; discriminate H|]. exists qs. reflexivity.
      * intros [qs H]. rewrite H. eexists. reflexivity.
    + cbn [bind raise andb]. split; [|discriminate].
      intros [ps H]. discriminate H.
Qed.

Lemma center_of_circles (l : list entity) :
  forallb (fun e => match dxf_center e with
                    | Some _ => true
                    | None => false
                    end) (filter (is_type T_CIRCLE) l)
  = forallb has_center (filter (is_type T_CIRCLE) l).
Proof.
  induction l as [|e l IH]; [reflexivity|].
  cbn [filter]. destruct (is_type T_CIRCLE e) eqn:Hty; [|exact IH].
  cbn [forallb]. rewrite IH.
  destruct e as [n s t|n [c|] r|k n f|k n g cl|n ve|n n']; try reflexivity;
    try discriminate; destruct k; discriminate.
Qed.

(** The hole check returns exactly on the drawings described by
    [symmetry_check_returns]. *)
Lemma not_all_skipped (l : list entity) :
  forallb skipped_by_bbox l = false ->
  existsb (fun e => negb (skipped_by_bbox e)) l = true.
Proof.
  induction l as [|e l IH]; intros H; [discriminate H|].
  cbn [forallb existsb] in *. destruct (skipped_by_bbox e); [|reflexivity].
  cbn [andb negb orb] in *. exact (IH H).
Qed.

Lemma bbox_none_iff (msp : modelspace) :
  existsb escapes_bbox (get_flattend_entities (Some msp)) = false ->
  (_calculate_manual_bbox msp = ret None
   <-> forallb skipped_by_bbox (get_flattend_entities (Some msp)) = true).
Proof.
  intros Hesc. split; [|apply bbox_none_when_all_skipped].
  intros H. apply not_false_is_true. intros Hs.
  pose proof (not_all_skipped _ Hs) as Hdata.
  unfold _calculate_manual_bbox in H.
  destruct (get_flattend_entities (Some msp)) as [|e l] eqn:Hflat;
    [discriminate Hs|].
  cbn [truthy negb] in H. fold initial_box in H.
  rewrite (bbox_loop_fold _ Hesc) in H. cbn [bind ret fst snd orb] in H.
  rewrite Hdata in H. discriminate H.
Qed.

Lemma check_hole_symmetry_returns_iff (msp : modelspace) (tol : Q) :
  (exists r, check_hole_symmetry msp tol = ret r)
  <-> symmetry_check_returns msp = true.
Proof.
  unfold check_hole_symmetry, symmetry_check_returns. cbv zeta.
  destruct (length _ <? 2)%nat; [split; [reflexivity|eexists; reflexivity]|].
  cbn [orb].
  destruct (existsb escapes_bbox (get_flattend_entities (Some msp)))
    eqn:Hesc; cbn [negb andb].
  - split; [|discriminate]. intros [r Hr]. exfalso.
    unfold _calculate_manual_bbox in Hr.
    destruct (get_flattend_entities (Some msp)) as [|e l] eqn:Hflat;
      [discriminate|].
    cbn [truthy negb] in Hr.
    destruct (bbox_loop_escapes _ Hesc (PosInf, NegInf, PosInf, NegInf)
                false) as [ex Hex].
    rewrite Hex in Hr. discriminate Hr.
  - pose proof (bbox_none_iff msp Hesc) as Hnone.
    destruct (forallb skipped_by_bbox (get_flattend_entities (Some msp)))
      eqn:Hskip; cbn [orb].
    + rewrite (proj2 Hnone eq_refl). split; [reflexivity|].
      intros _. eexists. reflexivity.
    + destruct (_calculate_manual_bbox msp)
        as [ex|[[[[mx Mx] my] My]|]] eqn:Hb.
      * exfalso. unfold _calculate_manual_bbox in Hb.
        destruct (negb (truthy _)); [discriminate|].
        rewrite (bbox_loop_fold _ Hesc) in Hb. discriminate Hb.
      * cbn [bind]. rewrite <- center_of_circles, <- mapM_hole_position_iff.
        split.
        -- intros [r Hr]. destruct (mapM _ _) as [ex|ps] eqn:Hps;
             [cbn in Hr; discriminate Hr|]. exists ps. exact Hps.
        -- intros [ps Hps]. rewrite Hps. eexists. reflexivity.
      * exfalso. assert (Hft : false = true) by (apply Hnone; reflexivity).
        discriminate Hft.
Qed.

(** X13: for a drawing that loads, the orchestrator returns a report
    exactly when the hole check goes through, that is when the drawing has
    fewer than two circles, or no entity raises past the [except] of the
    extent calculator and every circle has a centre (or no entity has any
    data); the report then holds the five checks, in their fixed order. In
    every other case an exception leaves the orchestrator. *)
Theorem check_drawing_returns_iff (fs : filesystem) (filepath : Path)
    (doc : document) :
  readfile fs filepath = ret doc ->
  ((exists results, check_drawing fs filepath = ret results)
   <-> symmetry_check_returns (doc_modelspace doc) = true)
  /\ forall results,
       check_drawing fs filepath = ret results ->
       map fst results = check_names.
Proof.
  intros Hload. rewrite (check_drawing_loaded _ _ _ Hload).
  rewrite <- (check_hole_symmetry_returns_iff _ 1e-2).
  destruct (check_hole_symmetry (doc_modelspace doc) 1e-2) as [ex|r5].
  - split; [split; intros [x H]; discriminate H|].
    intros results H. discriminate H.
  - split.
    + split; intros _; eexists; reflexivity.
    + intros results H. inversion H. reflexivity.
Qed.

Lemma check_drawing_returns_iff_witness :
  (exists results,
      check_drawing (one_file (Document [] centred_holes)) some_path
      = ret results)
  /\ ~ (exists results,
           check_drawing (one_file holes_and_broken_spline) some_path
           = ret results).
Proof.
  split.
  - apply (proj1 (check_drawing_returns_iff
                    (one_file (Document [] centred_holes)) some_path
                    (Document [] centred_holes) eq_refl)).
    reflexivity.
  - intros H.
    apply (proj1 (check_drawing_returns_iff
                    (one_file holes_and_broken_spline) some_path
                    holes_and_broken_spline eq_refl)) in H.
    discriminate H.
Defined.

(** ** Status of a file and summary dashboard *)

Lemma status_eqb_eq (a b : status_t) : status_eqb a b = true <-> a = b.
Proof. destruct a, b; cbn; split; intros H; congruence. Qed.

Lemma existsb_status (s : status_t) (l : list status_t) :
  existsb (status_eqb s) l = true <-> In s l.
Proof.
  rewrite existsb_exists. split.
  - intros [x [Hin Hx]]. apply status_eqb_eq in Hx. subst. exact Hin.
  - intros Hin. exists s. split; [exact Hin|]. apply status_eqb_eq. reflexivity.
Qed.

Lemma existsb_same_members (s : status_t) (l l' : list status_t) :
  (forall x, In x l <-> In x l') ->
  existsb (status_eqb s) l = existsb (status_eqb s) l'.
Proof.
  intros H. apply eq_true_iff_eq. rewrite !existsb_status. apply H.
Qed.

Lemma worst_same_members (l l' : list status_t) :
  (forall x, In x l <-> In x l') -> worst l = worst l'.
Proof.
  intros H. unfold worst.
  rewrite (existsb_same_members ERRO l l' H),
    (existsb_same_members FURO_SEM_SIMETRIA l l' H),
    (existsb_same_members ALERTA l l' H).
  reflexivity.
Qed.

Lemma worst_bounds (l : list status_t) :
  (forall s, In s l -> (severity s <= severity (worst l))%nat)
  /\ (worst l = OK \/ In (worst l) l).
Proof.
  unfold worst.
  destruct (existsb (status_eqb ERRO) l) eqn:He.
  { split; [intros s _; destruct s; cbn; lia|].
    right. apply existsb_status. exact He. }
  destruct (existsb (status_eqb FURO_SEM_SIMETRIA) l) eqn:Hf.
  { split.
    - intros s Hs. destruct s; cbn; try lia.
      apply existsb_status in Hs. congruence.
    - right. apply existsb_status. exact Hf. }
  destruct (existsb (status_eqb ALERTA) l) eqn:Ha.
  { split.
    - intros s Hs. destruct s; cbn; try lia;
        apply existsb_status in Hs; congruence.
    - right. apply existsb_status. exact Ha. }
  split; [|left; reflexivity].
  intros s Hs. destruct s; cbn; try lia;
    apply existsb_status in Hs; congruence.
Qed.

Lemma overall_status_worst (file_results : list (string * result_value)) :
  overall_status file_results
  = (statuses <- statuses_of file_results ;; ret (worst statuses)).
Proof. reflexivity. Qed.

Lemma statuses_of_checks (file_results : list (string * result_value)) :
  all_checks file_results = true ->
  exists statuses,
    statuses_of file_results = ret statuses
    /\ forall s, In s statuses
                 <-> exists k r, In (k, Check r) file_results /\ status r = s.
Proof.
  unfold statuses_of, all_checks.
  induction file_results as [|[k v] l IH]; intros H.
  - exists []. split; [reflexivity|]. intros s. split; [intros []|].
    intros [k [r [[] _]]].
  - cbn [forallb snd] in H. apply andb_prop in H as [Hv Hl].
    destruct (IH Hl) as [sts [Hsts Hin]].
    destruct v as [r|m]; [|discriminate Hv].
    exists (status r :: sts). split.
    + cbn [map snd mapM result_status bind ret]. rewrite Hsts. reflexivity.
    + intros s. cbn [In]. rewrite Hin. split.
      * intros [Hs|[k' [r' [Hin' Hs]]]].
        -- exists k, r. split; [left; reflexivity|exact Hs].
        -- exists k', r'. split; [right; exact Hin'|exact Hs].
      * intros [k' [r' [[Heq|Hin'] Hs]]].
        -- left. inversion Heq. subst. reflexivity.
        -- right. exists k', r'. split; assumption.
Qed.

Lemma statuses_of_message (file_results : list (string * result_value)) :
  all_checks file_results = false ->
  statuses_of file_results = inl string_index_error.
Proof.
  unfold statuses_of, all_checks.
  induction file_results as [|[k v] l IH]; intros H; [discriminate H|].
  cbn [forallb snd] in H. destruct v as [r|m].
  - cbn [is_check andb] in H. cbn [map snd mapM result_status bind ret].
    rewrite (IH H). reflexivity.
  - reflexivity.
Qed.

(** X14: the status of a file whose entries are all check results is the
    worst status among them, in the order OK, ALERTA, FURO SEM SIMETRIA,
    ERRO; it is OK for a file without results and does not depend on the
    order of the checks. *)
Theorem overall_status_is_worst
    (file_results : list (string * result_value)) :
  all_checks file_results = true ->
  exists s,
    overall_status file_results = ret s
    /\ (forall k r, In (k, Check r) file_results ->
                    (severity (status r) <= severity s)%nat)
    /\ (s = OK \/ exists k r, In (k, Check r) file_results /\ status r = s)
    /\ (forall other, Permutation file_results other ->
                      overall_status other = ret s).
Proof.
  intros H. destruct (statuses_of_checks _ H) as [sts [Hsts Hin]].
  exists (worst sts). rewrite overall_status_worst, Hsts.
  destruct (worst_bounds sts) as [Hle Hor].
  split; [reflexivity|]. split; [|split].
  - intros k r Hkr. apply Hle. apply Hin. exists k, r. split; [exact Hkr|].
    reflexivity.
  - destruct Hor as [Hok|Hw]; [left; exact Hok|right].
    apply Hin in Hw. exact Hw.
  - intros other Hperm.
    assert (Hother : all_checks other = true).
    { unfold all_checks in *. rewrite forallb_forall in *.
      intros x Hx. apply H. apply (Permutation_in x (Permutation_sym Hperm)).
      exact Hx. }
    destruct (statuses_of_checks _ Hother) as [sts' [Hsts' Hin']].
    rewrite overall_status_worst, Hsts'. cbn [bind ret]. f_equal.
    apply worst_same_members. intros x. rewrite Hin, Hin'.
    split; intros [k [r [Hkr Hs]]]; exists k, r; (split; [|exact Hs]).
    + apply (Permutation_in _ (Permutation_sym Hperm)). exact Hkr.
    + apply (Permutation_in _ Hperm). exact Hkr.
Qed.

Lemma overall_status_is_worst_witness :
  exists s,
    overall_status two_results = ret s
    /\ (forall k r, In (k, Check r) two_results ->
                    (severity (status r) <= severity s)%nat)
    /\ (s = OK \/ exists k r, In (k, Check r) two_results /\ status r = s)
    /\ (forall other, Permutation two_results other ->
                      overall_status other = ret s).
Proof. apply (overall_status_is_worst two_results). reflexivity. Defined.

Lemma files_with_cons (s : status_t) (results : list (string * result_value))
    (values : list (list (string * result_value))) :
  files_with s (results :: values)
  = ((if match overall_status results with
          | inr s' => status_eqb s s'
          | inl _ => false
          end then 1 else 0)
     + files_with s values)%nat.
Proof.
  unfold files_with. cbn [filter].
  destruct (match overall_status results with
            | inr s' => status_eqb s s'
            | inl _ => false
            end); reflexivity.
Qed.

Lemma count_files_raises (values : list (list (string * result_value))) :
  forallb all_checks values = false ->
  forall counts, count_files values counts = inl string_index_error.
Proof.
  induction values as [|results values IH]; intros H counts;
    [discriminate H|].
  destruct counts as [[[a b] c] d]. cbn [count_files forallb] in *.
  destruct (all_checks results) eqn:Hr.
  - destruct (statuses_of_checks _ Hr) as [sts [Hsts _]]. rewrite Hsts.
    cbn [bind ret andb] in *. apply IH. exact H.
  - rewrite (statuses_of_message _ Hr). reflexivity.
Qed.

Lemma count_files_counts (values : list (list (string * result_value))) :
  forallb all_checks values = true ->
  forall a b c d,
    count_files values (a, b, c, d)
    = ret ((a + files_with OK values)%nat,
           (b + files_with ALERTA values)%nat,
           (c + files_with ERRO values)%nat,
           (d + files_with FURO_SEM_SIMETRIA values)%nat).
Proof.
  induction values as [|results values IH]; intros H a b c d.
  - cbn. rewrite !Nat.add_0_r. reflexivity.
  - cbn [forallb] in H. apply andb_prop in H as [Hr Hv].
    destruct (statuses_of_checks _ Hr) as [sts [Hsts _]].
    rewrite !files_with_cons, overall_status_worst.
    cbn [count_files]. rewrite Hsts. cbn [bind ret]. unfold worst.
    destruct (existsb (status_eqb ERRO) sts);
      [|destruct (existsb (status_eqb FURO_SEM_SIMETRIA) sts);
        [|destruct (existsb (status_eqb ALERTA) sts)]];
      rewrite (IH Hv); cbn [status_eqb]; unfold ret; apply f_equal;
      repeat (apply pair_equal_spec; split); lia.
Qed.

Lemma files_with_total (values : list (list (string * result_value))) :
  forallb all_checks values = true ->
  (files_with OK values + files_with ALERTA values + files_with ERRO values
   + files_with FURO_SEM_SIMETRIA values = length values)%nat.
Proof.
  induction values as [|results values IH]; intros H; [reflexivity|].
  cbn [forallb] in H. apply andb_prop in H as [Hr Hv].
  destruct (statuses_of_checks _ Hr) as [sts [Hsts _]].
  rewrite !files_with_cons, overall_status_worst, Hsts. cbn [bind ret length].
  specialize (IH Hv). destruct (worst sts); cbn [status_eqb]; lia.
Qed.

Lemma files_with_pos (s : status_t)
    (analysis_data : list (string * list (string * result_value))) :
  (0 < files_with s (map snd analysis_data))%nat
  <-> exists f, In f analysis_data /\ overall_status (snd f) = ret s.
Proof.
  induction analysis_data as [|f l IH].
  - cbn. split; [lia|]. intros [f [[] _]].
  - cbn [map]. rewrite files_with_cons. split.
    + intros H. destruct (overall_status (snd f)) as [ex|s'] eqn:Hf.
      * destruct (proj1 IH H) as [g [Hg Hs]]. exists g. split; [|exact Hs].
        right. exact Hg.
      * destruct (status_eqb s s') eqn:Hs.
        -- apply status_eqb_eq in Hs. subst s'. exists f.
           split; [left; reflexivity|exact Hf].
        -- destruct (proj1 IH H) as [g [Hg Hs']]. exists g.
           split; [|exact Hs']. right. exact Hg.
    + intros [g [[<-|Hg] Hs]].
      * unfold ret in Hs. rewrite Hs.
        rewrite (proj2 (status_eqb_eq s s) eq_refl). lia.
      * assert (0 < files_with s (map snd l))%nat
          by (apply IH; exists g; split; assumption).
        lia.
Qed.

(** X15: a file that cannot be read gets a result without status: computing
    the status of the file raises [TypeError], and so does the summary
    dashboard for any set of analysed files that holds it. *)
Theorem load_error_breaks_status (fs : filesystem) (filepath : Path)
    (e : exn) :
  readfile fs filepath = inl e ->
  exists file_results,
    check_drawing fs filepath = ret file_results
    /\ (exists ex,
          overall_status file_results = inl ex /\ exn_kind ex = TypeError)
    /\ forall analysis_data key,
         In (key, file_results) analysis_data ->
         exists ex,
           update_summary_dashboard analysis_data = inl ex
           /\ exn_kind ex = TypeError.
Proof.
  intros H. eexists. split; [apply (check_drawing_load_error _ _ _ H)|].
  split; [exists string_index_error; split; reflexivity|].
  intros analysis_data key Hin. exists string_index_error.
  split; [|reflexivity]. unfold update_summary_dashboard.
  rewrite count_files_raises; [reflexivity|].
  destruct (forallb all_checks (map snd analysis_data)) eqn:Hall;
    [|reflexivity].
  rewrite forallb_forall in Hall.
  pose proof (Hall _ (in_map snd _ _ Hin)) as Hk. discriminate Hk.
Qed.

Lemma load_error_breaks_status_witness :
  exists file_results,
    check_drawing unreadable some_path = ret file_results
    /\ (exists ex,
          overall_status file_results = inl ex /\ exn_kind ex = TypeError)
    /\ forall analysis_data key,
         In (key, file_results) analysis_data ->
         exists ex,
           update_summary_dashboard analysis_data = inl ex
           /\ exn_kind ex = TypeError.
Proof.
  apply (load_error_breaks_status unreadable some_path
           (Exn OSError "file not found or not a DXF file")).
  reflexivity.
Defined.

(** X16: when every analysed file has check results only, the dashboard
    shows the number of files and, on each button, the number of files
    whose status is the one of the button; the four numbers add up to the
    number of files, and a search button is enabled exactly when its number
    is not zero. *)
Theorem dashboard_counts
    (analysis_data : list (string * list (string * result_value))) :
  forallb all_checks (map snd analysis_data) = true ->
  exists d,
    update_summary_dashboard analysis_data = ret d
    /\ total_var d
       = ("Analisados: " ++ str_of_nat (length analysis_data))%string
    /\ ok_button_text d
       = ("✅ OK: "
          ++ str_of_nat (files_with OK (map snd analysis_data)))%string
    /\ error_button_text d
       = ("❌ Erros: "
          ++ str_of_nat (files_with ERRO (map snd analysis_data)))%string
    /\ alert_button_text d
       = ("⚠️ Atenção: "
          ++ str_of_nat (files_with ALERTA (map snd analysis_data)))%string
    /\ symmetry_button_text d
       = ("🔵 Sem Simetria: "
          ++ str_of_nat
               (files_with FURO_SEM_SIMETRIA (map snd analysis_data)))%string
    /\ (files_with OK (map snd analysis_data)
        + files_with ALERTA (map snd analysis_data)
        + files_with ERRO (map snd analysis_data)
        + files_with FURO_SEM_SIMETRIA (map snd analysis_data)
        = length analysis_data)%nat
    /\ (error_button_enabled d = true
        <-> exists f, In f analysis_data
                      /\ overall_status (snd f) = ret ERRO)
    /\ (alert_button_enabled d = true
        <-> exists f, In f analysis_data
                      /\ overall_status (snd f) = ret ALERTA)
    /\ (symmetry_button_enabled d = true
        <-> exists f, In f analysis_data
                      /\ overall_status (snd f) = ret FURO_SEM_SIMETRIA).
Proof.
  intros H. unfold update_summary_dashboard.
  rewrite (count_files_counts _ H). cbn [bind ret Nat.add].
  eexists. split; [reflexivity|].
  cbn [total_var ok_button_text error_button_text error_button_enabled
       alert_button_text alert_button_enabled symmetry_button_text
       symmetry_button_enabled].
  repeat (split; [reflexivity|]).
  split; [rewrite files_with_total by exact H; apply length_map|].
  repeat split; intros Hx;
    try (apply Nat.ltb_lt in Hx; apply files_with_pos in Hx; exact Hx);
    apply Nat.ltb_lt; apply files_with_pos; exact Hx.
Qed.

Lemma dashboard_counts_witness :
  exists d,
    update_summary_dashboard three_files = ret d
    /\ total_var d
       = ("Analisados: " ++ str_of_nat (length three_files))%string
    /\ ok_button_text d
       = ("✅ OK: "
          ++ str_of_nat (files_with OK (map snd three_files)))%string
    /\ error_button_text d
       = ("❌ Erros: "
          ++ str_of_nat (files_with ERRO (map snd three_files)))%string
    /\ alert_button_text d
       = ("⚠️ Atenção: "
          ++ str_of_nat (files_with ALERTA (map snd three_files)))%string
    /\ symmetry_button_text d
       = ("🔵 Sem Simetria: "
          ++ str_of_nat
               (files_with FURO_SEM_SIMETRIA (map snd three_files)))%string
    /\ (files_with OK (map snd three_files)
        + files_with ALERTA (map snd three_files)
        + files_with ERRO (map snd three_files)
        + files_with FURO_SEM_SIMETRIA (map snd three_files)
        = length three_files)%nat
    /\ (error_button_enabled d = true
        <-> exists f, In f three_files
                      /\ overall_status (snd f) = ret ERRO)
    /\ (alert_button_enabled d = true
        <-> exists f, In f three_files
                      /\ overall_status (snd f) = ret ALERTA)
    /\ (symmetry_button_enabled d = true
        <-> exists f, In f three_files
                      /\ overall_status (snd f) = ret FURO_SEM_SIMETRIA).
Proof. apply (dashboard_counts three_files). reflexivity. Defined.

(** ** Sorting *)

Section SortingFacts.
Context {A : Type} (before : A -> A -> bool).

Lemma insert_sorted_Permutation (x : A) (l : list A) :
  Permutation (x :: l) (insert_sorted before x l).
Proof.
  induction l as [|y r IH]; cbn [insert_sorted]; [reflexivity|].
  destruct (before y x); [|reflexivity].
  apply (perm_trans (perm_swap y x r)). apply perm_skip. exact IH.
Qed.

Lemma py_sorted_Permutation (l : list A) : Permutation l (py_sorted before l).
Proof.
  induction l as [|x l IH]; cbn [py_sorted]; [constructor|].
  eapply perm_trans; [apply perm_skip; exact IH|].
  apply insert_sorted_Permutation.
Qed.

Hypothesis before_asym : forall a b, before a b = true -> before b a = false.
Hypothesis not_before_trans :
  forall a b c, before b a = false -> before c b = false ->
                before c a = false.

Lemma insert_sorted_sorted (x : A) (l : list A) :
  StronglySorted (fun a b => before b a = false) l ->
  StronglySorted (fun a b => before b a = false) (insert_sorted before x l).
Proof.
  induction l as [|y r IH]; intros H; cbn [insert_sorted].
  - constructor; constructor.
  - inversion H as [|? ? Hs Hf]; subst. destruct (before y x) eqn:E.
    + constructor; [apply IH; exact Hs|].
      rewrite Forall_forall in *. intros z Hz.
      apply (Permutation_in _ (Permutation_sym
                                 (insert_sorted_Permutation x r))) in Hz.
      destruct Hz as [<-|Hz]; [apply before_asym; exact E|apply Hf; exact Hz].
    + constructor; [exact H|]. constructor; [exact E|].
      rewrite Forall_forall in *. intros z Hz.
      apply (not_before_trans x y z); [exact E|apply Hf; exact Hz].
Qed.

Lemma py_sorted_sorted (l : list A) :
  StronglySorted (fun a b => before b a = false) (py_sorted before l).
Proof.
  induction l as [|x l IH]; cbn [py_sorted]; [constructor|].
  apply insert_sorted_sorted. exact IH.
Qed.
End SortingFacts.

Lemma pairwise_distinct_Permutation {K : Type} (eqb : K -> K -> bool)
    (l l' : list K) :
  (forall a b, eqb a b = eqb b a) ->
  Permutation l l' -> pairwise_distinct eqb l -> pairwise_distinct eqb l'.
Proof.
  intros Hsym. induction 1 as [|x l l' Hp IH|x y l|l l' l'' _ IH1 _ IH2].
  - intros H; exact H.
  - intros [Hx Hl]. split; [|exact (IH Hl)].
    intros k Hk. apply Hx. apply (Permutation_in _ (Permutation_sym Hp)).
    exact Hk.
  - intros [Hy [Hx Hl]]. split; [|split; [|exact Hl]].
    + intros k [<-|Hk]; [|apply Hx; exact Hk].
      rewrite Hsym. apply Hy. left. reflexivity.
    + intros k Hk. apply Hy. right. exact Hk.
  - intros H. apply IH2, IH1, H.
Qed.

Lemma pairwise_distinct_keys {K V : Type} (eqb : K -> K -> bool)
    (f : K -> V) (u : list K) :
  pairwise_distinct eqb u ->
  pairwise_distinct (fun a b => eqb (fst a) (fst b))
    (map (fun k => (k, f k)) u).
Proof.
  induction u as [|x u IH]; intros H; [exact I|].
  destruct H as [Hx Hu]. split; [|exact (IH Hu)].
  intros k Hk. apply in_map_iff in Hk as [k' [<- Hk']]. cbn [fst].
  apply Hx. exact Hk'.
Qed.

Lemma uniq_incl {K : Type} (eqb : K -> K -> bool) (l : list K) (k : K) :
  In k (uniq eqb l) -> In k l.
Proof.
  induction l as [|x l IH]; [intros []|].
  cbn [uniq]. intros [<-|H]; [left; reflexivity|].
  right. apply IH. apply filter_In in H as [H _]. exact H.
Qed.

Lemma Qeq_bool_comm (a b : Q) : Qeq_bool a b = Qeq_bool b a.
Proof.
  apply eq_true_iff_eq. rewrite !Qeq_bool_iff.
  split; intros H; symmetry; exact H.
Qed.

Lemma Qeq_bool_false (a b : Q) : Qeq_bool a b = false -> ~ a == b.
Proof. intros H E. apply Qeq_bool_iff in E. congruence. Qed.

Lemma item_ltb_asym (a b : Q * nat) :
  item_ltb a b = true -> item_ltb b a = false.
Proof.
  unfold item_ltb. rewrite (Qeq_bool_comm (fst b) (fst a)).
  destruct (Qeq_bool (fst a) (fst b)); cbn [negb].
  - rewrite !Nat.ltb_lt, Nat.ltb_ge. lia.
  - intros H. apply Qltb_lt in H.
    destruct (Qltb (fst b) (fst a)) eqn:E; [|reflexivity].
    apply Qltb_lt in E. lra.
Qed.

Lemma item_ltb_false (a b : Q * nat) :
  item_ltb b a = false ->
  fst a < fst b \/ (fst a == fst b /\ (snd a <= snd b)%nat).
Proof.
  unfold item_ltb. destruct (Qeq_bool (fst b) (fst a)) eqn:E; cbn [negb].
  - apply Qeq_bool_iff in E. rewrite Nat.ltb_ge. intros H. right.
    split; [symmetry; exact E|exact H].
  - apply Qeq_bool_false in E. intros H. apply Qltb_false in H. left. lra.
Qed.

Lemma item_ltb_true (a b : Q * nat) :
  item_ltb b a = true ->
  fst b < fst a \/ (fst a == fst b /\ (snd b < snd a)%nat).
Proof.
  unfold item_ltb. destruct (Qeq_bool (fst b) (fst a)) eqn:E; cbn [negb].
  - apply Qeq_bool_iff in E. rewrite Nat.ltb_lt. intros H. right.
    split; [symmetry; exact E|exact H].
  - intros H. apply Qltb_lt in H. left. exact H.
Qed.

Lemma item_ltb_not_trans (a b c : Q * nat) :
  item_ltb b a = false -> item_ltb c b = false -> item_ltb c a = false.
Proof.
  intros Hab Hbc. apply item_ltb_false in Hab, Hbc.
  destruct (item_ltb c a) eqn:E; [|reflexivity].
  apply item_ltb_true in E.
  destruct Hab as [Hab|[Hab Hab']], Hbc as [Hbc|[Hbc Hbc']],
    E as [E|[E E']]; try lra; lia.
Qed.

(** ** Hole summary *)

Lemma diameters_of_holes (hs : list entity) :
  forallb has_radius hs = true ->
  mapM (fun entity =>
          match dxf_radius entity with
          | None =>
              raise TypeError
                "unsupported operand type(s) for *: 'NoneType' and 'int'"
          | Some radius => ret (py_round_nd (radius * 2) 2)
          end) hs
  = ret (map rounded_diameter hs).
Proof.
  induction hs as [|h hs IH]; intros H; [reflexivity|].
  cbn [forallb] in H. apply andb_prop in H as [Hh Hhs].
  cbn [mapM map]. rewrite (IH Hhs). unfold has_radius, rounded_diameter in *.
  destruct (dxf_radius h); [reflexivity|discriminate Hh].
Qed.

Lemma filter_map_length {A B : Type} (p : B -> bool) (f : A -> B)
    (l : list A) :
  length (filter p (map f l)) = length (filter (fun x => p (f x)) l).
Proof.
  induction l as [|x l IH]; [reflexivity|].
  cbn [map filter]. destruct (p (f x)); cbn [length]; rewrite IH; reflexivity.
Qed.

Lemma filter_nonempty {A : Type} (p : A -> bool) (l : list A) (x : A) :
  In x l -> p x = true -> (0 < length (filter p l))%nat.
Proof.
  induction l as [|y l IH]; intros Hin Hp; [destruct Hin|].
  cbn [filter]. destruct Hin as [->|Hin].
  - rewrite Hp. cbn. lia.
  - destruct (p y); [cbn; lia|]. apply IH; assumption.
Qed.

Lemma increasing_diameters (items : list (Q * nat)) :
  StronglySorted (fun a b => item_ltb b a = false) items ->
  pairwise_distinct (fun a b => Qeq_bool (fst a) (fst b)) items ->
  StronglySorted (fun a b => fst a < fst b) items.
Proof.
  induction items as [|x r IH]; intros Hs Hd; [constructor|].
  inversion Hs as [|? ? Hs' Hf]; subst. destruct Hd as [Hx Hr].
  constructor; [exact (IH Hs' Hr)|].
  rewrite Forall_forall in *. intros y Hy.
  destruct (item_ltb_false x y (Hf y Hy)) as [Hlt|[Heq _]]; [exact Hlt|].
  apply Qeq_bool_iff in Heq. rewrite (Hx y Hy) in Heq. discriminate Heq.
Qed.

(** X17: when the drawing has a circle and every circle has a radius, the
    hole summary counts every circle, blocks expanded; both forms of the
    summary list each diameter, rounded to two decimals, once, in increasing
    order, with the number of circles of that diameter. *)
Theorem hole_summary_lists_diameters (float_str : Q -> string)
    (float_2f : pyfloat -> string) (msp : modelspace) :
  holes_of msp <> [] ->
  forallb has_radius (holes_of msp) = true ->
  exists items,
    _get_hole_summary float_str float_2f msp true
    = SummaryExcel (length (holes_of msp))
        (join ", "
           (map (fun item =>
                   (str_of_nat (snd item) ++ "x" ++ float_str (fst item))
                   %string)
              items))
    /\ _get_hole_summary float_str float_2f msp false
       = SummaryText
           ("Furos: "
            ++ join ", "
                 (map (fun item =>
                         (str_of_nat (snd item) ++ "x Ø"
                          ++ float_2f (Fin (fst item)))%string)
                    items))%string
    /\ StronglySorted (fun a b => fst a < fst b) items
    /\ (forall item,
          In item items ->
          snd item
          = length (filter (fun h => Qeq_bool (fst item) (rounded_diameter h))
                      (holes_of msp))
          /\ (0 < snd item)%nat)
    /\ (forall h,
          In h (holes_of msp) ->
          exists item, In item items /\ fst item == rounded_diameter h).
Proof.
  intros Hne Hrad.
  assert (Ht : truthy (map rounded_diameter (holes_of msp)) = true)
    by (destruct (holes_of msp); [contradiction|reflexivity]).
  pose proof (py_sorted_Permutation item_ltb
                (Counter Qeq_bool (map rounded_diameter (holes_of msp))))
    as Hperm.
  exists (py_sorted item_ltb
            (Counter Qeq_bool (map rounded_diameter (holes_of msp)))).
  unfold _get_hole_summary. fold (holes_of msp).
  rewrite (diameters_of_holes _ Hrad). cbn [bind ret]. rewrite Ht.
  cbn [negb try_except ret].
  rewrite (Counter_sum Qeq_bool Qeq_bool_refl Qeq_bool_comm Qeq_bool_trans),
    length_map.
  split; [reflexivity|]. split; [reflexivity|]. split; [|split].
  - apply increasing_diameters.
    + apply py_sorted_sorted;
        [exact item_ltb_asym|exact item_ltb_not_trans].
    + apply (pairwise_distinct_Permutation _ _ _
               (fun a b => Qeq_bool_comm (fst a) (fst b)) Hperm).
      unfold Counter. apply pairwise_distinct_keys.
      apply pairwise_distinct_uniq.
  - intros item Hin.
    apply (Permutation_in _ (Permutation_sym Hperm)) in Hin.
    unfold Counter in Hin. apply in_map_iff in Hin as [k [<- Hk]].
    cbn [fst snd]. unfold count. rewrite filter_map_length.
    split; [reflexivity|].
    apply uniq_incl in Hk. apply in_map_iff in Hk as [h [Hh Hin]].
    apply (filter_nonempty _ _ h Hin). rewrite Hh. apply Qeq_bool_refl.
  - intros h Hh.
    destruct (uniq_covers Qeq_bool Qeq_bool_refl Qeq_bool_trans
                (map rounded_diameter (holes_of msp)) (rounded_diameter h)
                (in_map _ _ _ Hh)) as [k [Hk Hkh]].
    exists (k, count Qeq_bool k (map rounded_diameter (holes_of msp))).
    split; [|apply Qeq_bool_iff; exact Hkh].
    apply (Permutation_in _ Hperm). unfold Counter.
    apply (in_map (fun k => (k, count Qeq_bool k _))). exact Hk.
Qed.

Lemma hole_summary_lists_diameters_witness :
  exists items,
    _get_hole_summary sample_str sample_2f centred_holes true
    = SummaryExcel (length (holes_of centred_holes))
        (join ", "
           (map (fun item =>
                   (str_of_nat (snd item) ++ "x" ++ sample_str (fst item))
                   %string)
              items))
    /\ _get_hole_summary sample_str sample_2f centred_holes false
       = SummaryText
           ("Furos: "
            ++ join ", "
                 (map (fun item =>
                         (str_of_nat (snd item) ++ "x Ø"
                          ++ sample_2f (Fin (fst item)))%string)
                    items))%string
    /\ StronglySorted (fun a b => fst a < fst b) items
    /\ (forall item,
          In item items ->
          snd item
          = length (filter (fun h => Qeq_bool (fst item) (rounded_diameter h))
                      (holes_of centred_holes))
          /\ (0 < snd item)%nat)
    /\ (forall h,
          In h (holes_of centred_holes) ->
          exists item, In item items /\ fst item == rounded_diameter h).
Proof.
  apply (hole_summary_lists_diameters sample_str sample_2f centred_holes).
  - discriminate.
  - reflexivity.
Defined.

(** X18: when every circle has a radius, the hole summary is blank, in
    both forms, exactly when the drawing has no circle, blocks expanded. *)
Theorem hole_summary_blank (float_str : Q -> string)
    (float_2f : pyfloat -> string) (msp : modelspace) (for_excel : bool) :
  forallb has_radius (holes_of msp) = true ->
  _get_hole_summary float_str float_2f msp for_excel
  = blank_summary for_excel
  <-> holes_of msp = [].
Proof.
  intros Hrad. unfold _get_hole_summary. fold (holes_of msp).
  rewrite (diameters_of_holes _ Hrad). cbn [bind ret].
  destruct (truthy (map rounded_diameter (holes_of msp))) eqn:Ht;
    cbn [negb try_except ret].
  - split.
    + intros H. exfalso. destruct for_excel; [|discriminate H].
      inversion H as [[Hn Hs]].
      rewrite (Counter_sum Qeq_bool Qeq_bool_refl Qeq_bool_comm
                 Qeq_bool_trans), length_map in Hn.
      destruct (holes_of msp); [discriminate Ht|discriminate Hn].
    + intros H. rewrite H in Ht. discriminate Ht.
  - destruct (holes_of msp); [|discriminate Ht].
    split; reflexivity.
Qed.

Lemma hole_summary_blank_witness :
  _get_hole_summary sample_str sample_2f lines_and_polyline true
  = blank_summary true
  <-> holes_of lines_and_polyline = [].
Proof.
  apply (hole_summary_blank sample_str sample_2f lines_and_polyline true).
  reflexivity.
Defined.

(** ** Plot view *)

Lemma bbox_of_contributed (msp : modelspace) :
  existsb escapes_bbox (get_flattend_entities (Some msp)) = false ->
  existsb (fun e => negb (skipped_by_bbox e))
    (get_flattend_entities (Some msp)) = true ->
  _calculate_manual_bbox msp
  = ret (Some (fold_left grow
                 (flat_map contributed_points
                    (get_flattend_entities (Some msp)))
                 initial_box)).
Proof.
  intros Hesc Hdata. unfold _calculate_manual_bbox.
  destruct (get_flattend_entities (Some msp)) as [|e l] eqn:Hflat;
    [discriminate Hdata|].
  cbn [truthy negb]. fold initial_box. rewrite (bbox_loop_fold _ Hesc).
  cbn [bind ret fst snd orb]. rewrite Hdata. reflexivity.
Qed.

(** X20: when no entity raises past the [except] of the extent calculator
    and no point is contributed, a drawing whose entities are all skipped
    gets its title and no axis limits, and every call completes; a drawing
    where an entity sets [has_data] gets its title only: the limits are
    NaN, [set_xlim] raises [ValueError] and no later call is made. *)
Theorem plot_view_without_points (float_2f : pyfloat -> string)
    (msp : modelspace) (hole_summary_text piece_name : string) :
  existsb escapes_bbox (get_flattend_entities (Some msp)) = false ->
  flat_map contributed_points (get_flattend_entities (Some msp)) = [] ->
  exists props title,
    _get_geometric_properties msp = ret props
    /\ (forallb skipped_by_bbox (get_flattend_entities (Some msp)) = true ->
        _adjust_plot_view float_2f props hole_summary_text piece_name
        = ([set_title title; set_aspect_equal; tick_params;
            set_edgecolor_of_spines], None))
    /\ (forallb skipped_by_bbox (get_flattend_entities (Some msp)) = false ->
        exists ex,
          _adjust_plot_view float_2f props hole_summary_text piece_name
          = ([set_title title], Some ex)
          /\ exn_kind ex = ValueError).
Proof.
  intros Hesc Hpts.
  destruct (forallb skipped_by_bbox (get_flattend_entities (Some msp)))
    eqn:Hskip.
  - exists (Props (Fin 0) (Fin 0) None). eexists. split.
    { unfold _get_geometric_properties.
      rewrite (bbox_none_when_all_skipped msp Hskip). reflexivity. }
    split; [|intros H; discriminate H].
    intros _. reflexivity.
  - pose proof (not_all_skipped _ Hskip) as Hdata.
    eexists. eexists. split.
    { unfold _get_geometric_properties.
      rewrite (bbox_of_contributed _ Hesc Hdata), Hpts. reflexivity. }
    split; [intros H; discriminate H|]. intros _.
    eexists. split; reflexivity.
Qed.

Lemma plot_view_without_points_witness :
  exists props title,
    _get_geometric_properties hollow_polyline = ret props
    /\ (forallb skipped_by_bbox
          (get_flattend_entities (Some hollow_polyline)) = true ->
        _adjust_plot_view sample_2f props EmptyString "peca"
        = ([set_title title; set_aspect_equal; tick_params;
            set_edgecolor_of_spines], None))
    /\ (forallb skipped_by_bbox
          (get_flattend_entities (Some hollow_polyline)) = false ->
        exists ex,
          _adjust_plot_view sample_2f props EmptyString "peca"
          = ([set_title title], Some ex)
          /\ exn_kind ex = ValueError).
Proof.
  apply (plot_view_without_points sample_2f hollow_polyline);
    reflexivity.
Defined.

(** ** Batch analysis *)

Lemma mapM_returns {A B : Type} (f : A -> M B) (l : list A) :
  (forall x, In x l -> exists y, f x = ret y) ->
  exists ys, mapM f l = ret ys /\ Forall2 (fun x y => f x = ret y) l ys.
Proof.
  induction l as [|a l IH]; intros H.
  - exists []. split; [reflexivity|constructor].
  - destruct (H a (or_introl eq_refl)) as [y Hy].
    destruct (IH (fun x Hx => H x (or_intror Hx))) as [ys [Hys Hall]].
    exists (y :: ys). split; [|constructor; assumption].
    cbn [mapM]. rewrite Hy, Hys. reflexivity.
Qed.

Lemma mapM_raises {A B : Type} (f : A -> M B) (l : list A) (x : A)
    (ex : exn) :
  In x l -> f x = inl ex -> exists ex', mapM f l = inl ex'.
Proof.
  induction l as [|a l IH]; intros Hin Hx; [destruct Hin|].
  cbn [mapM]. destruct (f a) as [e|b] eqn:Ha; [eexists; reflexivity|].
  destruct Hin as [->|Hin]; [rewrite Hx in Ha; discriminate Ha|].
  destruct (IH Hin Hx) as [ex' Hex]. rewrite Hex. eexists. reflexivity.
Qed.

Lemma check_drawing_returns (fs : filesystem) (filepath : Path) :
  (exists r, check_drawing fs filepath = ret r)
  <-> (forall doc, readfile fs filepath = ret doc ->
                   symmetry_check_returns (doc_modelspace doc) = true).
Proof.
  destruct (readfile fs filepath) as [e|doc] eqn:Hread.
  - rewrite (check_drawing_load_error _ _ _ Hread). split.
    + intros _ doc H. discriminate H.
    + intros _. eexists. reflexivity.
  - rewrite (check_drawing_loaded _ _ _ Hread). split.
    + intros [r Hr] doc' Hdoc. inversion Hdoc. subst doc'.
      apply (proj1 (check_hole_symmetry_returns_iff (doc_modelspace doc)
                      1e-2)).
      destruct (check_hole_symmetry (doc_modelspace doc) 1e-2) as [ex|r5];
        [discriminate Hr|].
      exists r5. reflexivity.
    + intros H.
      destruct (proj2 (check_hole_symmetry_returns_iff (doc_modelspace doc)
                         1e-2) (H doc eq_refl)) as [r5 Hr5].
      rewrite Hr5. eexists. reflexivity.
Qed.

Lemma newer_first_asym (a b : Path * Q) :
  newer_first a b = true -> newer_first b a = false.
Proof.
  unfold newer_first. intros H. apply Qltb_lt in H.
  destruct (Qltb (snd a) (snd b)) eqn:E; [|reflexivity].
  apply Qltb_lt in E. lra.
Qed.

Lemma newer_first_not_trans (a b c : Path * Q) :
  newer_first b a = false -> newer_first c b = false ->
  newer_first c a = false.
Proof.
  unfold newer_first. intros H1 H2.
  apply Qltb_false in H1, H2.
  destruct (Qltb (snd a) (snd c)) eqn:E; [|reflexivity].
  apply Qltb_lt in E. lra.
Qed.

Lemma StronglySorted_impl {A : Type} (R R' : A -> A -> Prop) (l : list A) :
  (forall a b, R a b -> R' a b) ->
  StronglySorted R l -> StronglySorted R' l.
Proof.
  intros Himp. induction 1 as [|a l _ IH Hf]; constructor; [exact IH|].
  apply (Forall_impl _ (Himp a) Hf).
Qed.

Lemma batch_entries (fs : filesystem) (l : list (Path * Q))
    (ys : list (Path * list (string * result_value))) :
  Forall2 (fun x y =>
             (file_results <- check_drawing fs (fst x) ;;
              ret (fst x, file_results)) = ret y) l ys ->
  map fst ys = map fst l
  /\ forall r, In r ys -> check_drawing fs (fst r) = ret (snd r).
Proof.
  induction 1 as [|x y l ys Hxy _ [IH1 IH2]].
  - split; [reflexivity|]. intros r [].
  - destruct (check_drawing fs (fst x)) as [ex|res] eqn:E;
      [discriminate Hxy|].
    inversion Hxy. subst y. split.
    + cbn [map fst]. rewrite IH1. reflexivity.
    + intros r [<-|Hr]; [exact E|exact (IH2 r Hr)].
Qed.

(** X21: the batch analysis reports no file exactly for an empty folder;
    otherwise, when the hole check goes through on every file that loads,
    it hands over one entry per listed file, newest first, each with the
    results of [check_drawing] for that file; a file that does not load
    has its entry too. *)
Theorem batch_newest_first (fs : filesystem) (dxf_files : list (Path * Q)) :
  (forall file doc,
      In file dxf_files -> readfile fs (fst file) = ret doc ->
      symmetry_check_returns (doc_modelspace doc) = true) ->
  (run_analysis_logic fs dxf_files = ret NoDxfFound <-> dxf_files = [])
  /\ (dxf_files <> [] ->
      exists all_results ordered,
        run_analysis_logic fs dxf_files = ret (ResultsForUi all_results)
        /\ Permutation dxf_files ordered
        /\ StronglySorted (fun a b => snd b <= snd a) ordered
        /\ map fst all_results = map fst ordered
        /\ forall r, In r all_results ->
                     check_drawing fs (fst r) = ret (snd r)).
Proof.
  intros Hok.
  pose proof (py_sorted_Permutation newer_first dxf_files) as Hperm.
  destruct (mapM_returns
              (fun file =>
                 file_results <- check_drawing fs (fst file) ;;
                 ret (fst file, file_results))
              (py_sorted newer_first dxf_files)) as [ys [Hys Hall]].
  { intros x Hx. apply (Permutation_in _ (Permutation_sym Hperm)) in Hx.
    destruct (proj2 (check_drawing_returns fs (fst x))
                (fun doc Hdoc => Hok x doc Hx Hdoc)) as [r Hr].
    rewrite Hr. eexists. reflexivity. }
  split.
  - unfold run_analysis_logic. destruct dxf_files as [|f l];
      [split; reflexivity|].
    cbn [truthy negb]. rewrite Hys. split; intros H; discriminate H.
  - intros Hne. exists ys, (py_sorted newer_first dxf_files).
    split; [|split; [exact Hperm|split; [|split]]].
    + unfold run_analysis_logic. destruct dxf_files as [|f l];
        [contradiction|].
      cbn [truthy negb]. rewrite Hys. reflexivity.
    + apply (StronglySorted_impl (fun a b => newer_first b a = false)).
      * intros a b H. apply Qltb_false in H. exact H.
      * apply py_sorted_sorted;
          [exact newer_first_asym|exact newer_first_not_trans].
    + exact (proj1 (batch_entries fs _ _ Hall)).
    + exact (proj2 (batch_entries fs _ _ Hall)).
Qed.

Lemma batch_newest_first_witness :
  (run_analysis_logic folder listing = ret NoDxfFound <-> listing = [])
  /\ (listing <> [] ->
      exists all_results ordered,
        run_analysis_logic folder listing = ret (ResultsForUi all_results)
        /\ Permutation listing ordered
        /\ StronglySorted (fun a b => snd b <= snd a) ordered
        /\ map fst all_results = map fst ordered
        /\ forall r, In r all_results ->
                     check_drawing folder (fst r) = ret (snd r)).
Proof.
  apply (batch_newest_first folder listing).
  intros file doc [<-|[<-|[]]] H; inversion H; reflexivity.
Defined.

(** X22: one drawing on which the hole check raises makes the batch
    analysis raise: no result is handed over for any file of the folder. *)
Theorem batch_aborts_on_one_file (fs : filesystem)
    (dxf_files : list (Path * Q)) (file : Path * Q) (doc : document) :
  In file dxf_files ->
  readfile fs (fst file) = ret doc ->
  symmetry_check_returns (doc_modelspace doc) = false ->
  exists ex, run_analysis_logic fs dxf_files = inl ex.
Proof.
  intros Hin Hdoc Hbad.
  pose proof (py_sorted_Permutation newer_first dxf_files) as Hperm.
  assert (Hraise : exists ex, check_drawing fs (fst file) = inl ex).
  { destruct (check_drawing fs (fst file)) as [ex|r] eqn:E;
      [exists ex; reflexivity|].
    pose proof (proj1 (check_drawing_returns fs (fst file))
                  (ex_intro _ r E) doc Hdoc) as Hgood.
    rewrite Hbad in Hgood. discriminate Hgood. }
  destruct Hraise as [ex Hex].
  destruct (mapM_raises
              (fun file =>
                 file_results <- check_drawing fs (fst file) ;;
                 ret (fst file, file_results))
              (py_sorted newer_first dxf_files) file ex) as [ex' Hex'].
  { apply (Permutation_in _ Hperm). exact Hin. }
  { rewrite Hex. reflexivity. }
  exists ex'. unfold run_analysis_logic.
  destruct dxf_files as [|f l]; [destruct Hin|].
  cbn [truthy negb]. rewrite Hex'. reflexivity.
Qed.

Lemma batch_aborts_on_one_file_witness :
  exists ex,
    run_analysis_logic folder
      [(plate_path, 100); (broken_path, 200); (some_path, 300)]
    = inl ex.
Proof.
  apply (batch_aborts_on_one_file folder
           [(plate_path, 100); (broken_path, 200); (some_path, 300)]
           (broken_path, 200) holes_and_broken_spline).
  - right. left. reflexivity.
  - reflexivity.
  - reflexivity.
Defined.

(** ** Search by status *)

Lemma search_rows_find (tree : tree_rows) (status_to_find : string)
    (start_index : nat) (range : list nat) :
  search_rows tree status_to_find start_index range
  = option_map fst
      (find (row_matches status_to_find)
         (map (fun i => nth ((start_index + i) mod length tree) tree
                          (EmptyString, []))
            range)).
Proof.
  induction range as [|i range IH]; [reflexivity|].
  cbn [search_rows map find]. unfold row_matches at 1.
  destruct (existsb (contains status_to_find) _); [reflexivity|exact IH].
Qed.

Lemma rotation_by_index {A : Type} (l : list A) (d : A) (start : nat) :
  (start < length l)%nat ->
  map (fun i => nth ((start + i) mod length l) l d) (seq 0 (length l))
  = skipn start l ++ firstn start l.
Proof.
  intros Hlt. apply (nth_ext _ _ d d).
  - rewrite length_map, length_seq, length_app, length_skipn, length_firstn.
    lia.
  - rewrite length_map, length_seq. intros i Hi.
    rewrite (nth_indep _ d (nth ((start + 0) mod length l) l d))
      by (rewrite length_map, length_seq; exact Hi).
    rewrite (map_nth (fun i => nth ((start + i) mod length l) l d)).
    rewrite seq_nth by exact Hi. cbn [Nat.add].
    destruct (Nat.lt_ge_cases i (length l - start)) as [Hlo|Hhi].
    + rewrite app_nth1 by (rewrite length_skipn; exact Hlo).
      rewrite nth_skipn, Nat.mod_small by lia. reflexivity.
    + rewrite app_nth2 by (rewrite length_skipn; exact Hhi).
      rewrite length_skipn, nth_firstn.
      assert (Hb : (i - (length l - start) <? start)%nat = true)
        by (apply Nat.ltb_lt; lia).
      rewrite Hb.
      replace (start + i)%nat
        with (i - (length l - start) + 1 * length l)%nat by lia.
      rewrite Nat.Div0.mod_add, Nat.mod_small by lia. reflexivity.
Qed.

Lemma index_after_prefix (iid : string) (before after : list string) :
  ~ In iid before -> index iid (before ++ iid :: after) = length before.
Proof.
  induction before as [|y before IH]; intros Hnot.
  - cbn. rewrite String.eqb_refl. reflexivity.
  - cbn [app index length]. destruct (String.eqb y iid) eqn:E.
    + apply String.eqb_eq in E. exfalso. apply Hnot. left. exact E.
    + rewrite IH; [reflexivity|]. intros H. apply Hnot. right. exact H.
Qed.

(** X23: with no row found before, the search by status selects the first
    file row, in display order, one of whose check rows shows the status,
    and leaves the window as it is when there is none. *)
Theorem find_next_from_start (tree : tree_rows) (status_to_find : string) :
  find_next_by_status tree status_to_find None
  = option_map fst (find (row_matches status_to_find) tree).
Proof.
  unfold find_next_by_status.
  destruct (truthy (map fst tree)) eqn:Ht; cbn [negb].
  - rewrite length_map, search_rows_find.
    rewrite (rotation_by_index tree (EmptyString, []) 0)
      by (destruct tree; [discriminate Ht|cbn [length]; lia]).
    cbn [skipn firstn]. rewrite app_nil_r. reflexivity.
  - destruct tree; [reflexivity|discriminate Ht].
Qed.

(** X24: after a row was found, the search by status goes on with the rows
    below it, wraps around to the top, and looks at the row found last at
    the end: it selects the first matching row of that rotation. *)
Theorem find_next_wraps_around (before after : tree_rows) (iid : string)
    (children : list string) (status_to_find : string) :
  iid <> EmptyString ->
  ~ In iid (map fst before) ->
  find_next_by_status (before ++ (iid, children) :: after) status_to_find
    (Some iid)
  = option_map fst
      (find (row_matches status_to_find)
         (after ++ before ++ [(iid, children)])).
Proof.
  intros Hne Hnot. unfold find_next_by_status.
  set (tree := before ++ (iid, children) :: after).
  assert (Hlen : length tree = (length before + S (length after))%nat)
    by (unfold tree; rewrite length_app; reflexivity).
  assert (Hfst : map fst tree = map fst before ++ iid :: map fst after)
    by (unfold tree; rewrite map_app; reflexivity).
  assert (Ht : truthy (map fst tree) = true)
    by (unfold tree; destruct before; reflexivity).
  rewrite Ht. cbn [negb].
  assert (Hin : existsb (String.eqb iid) (map fst tree) = true).
  { apply existsb_exists. exists iid. split; [|apply String.eqb_refl].
    rewrite Hfst. apply in_or_app. right. left. reflexivity. }
  rewrite Hin.
  assert (Hiid : String.eqb iid EmptyString = false)
    by (apply String.eqb_neq; exact Hne).
  rewrite Hiid. cbn [negb andb].
  rewrite Hfst at 1. rewrite (index_after_prefix _ _ _ Hnot).
  rewrite !length_map, search_rows_find.
  rewrite rotation_by_index by (apply Nat.mod_upper_bound; lia).
  f_equal. f_equal. rewrite Hlen.
  destruct after as [|row after].
  - replace (length before + 1)%nat
      with (0 + 1 * (length before + 1))%nat by lia.
    cbn [length]. rewrite Nat.Div0.mod_add, Nat.mod_small by lia.
    cbn [skipn firstn app]. rewrite app_nil_r. reflexivity.
  - rewrite Nat.mod_small by (cbn [length]; lia).
    unfold tree.
    replace (before ++ (iid, children) :: row :: after)
      with ((before ++ [(iid, children)]) ++ row :: after)
      by (rewrite <- app_assoc; reflexivity).
    assert (Hk : length (before ++ [(iid, children)])
                 = (length before + 1)%nat)
      by (rewrite length_app; reflexivity).
    rewrite <- Hk, skipn_app, firstn_app, skipn_all, firstn_all.
    rewrite Nat.sub_diag. cbn [skipn firstn app]. rewrite app_nil_r.
    reflexivity.
Qed.

Lemma find_next_wraps_around_witness :
  find_next_by_status
    ([("I001"%string, ["✅ OK"; "❌ ERRO"]%string);
      ("I004"%string, ["✅ OK"; "✅ OK"]%string)]
     ++ ("I007"%string, ["⚠️ ALERTA"; "❌ ERRO"]%string) :: [])
    "ERRO" (Some "I007"%string)
  = option_map fst
      (find (row_matches "ERRO")
         ([] ++ [("I001"%string, ["✅ OK"; "❌ ERRO"]%string);
                 ("I004"%string, ["✅ OK"; "✅ OK"]%string)]
          ++ [("I007"%string, ["⚠️ ALERTA"; "❌ ERRO"]%string)])).
Proof.
  apply (find_next_wraps_around
           [("I001"%string, ["✅ OK"; "❌ ERRO"]%string);
            ("I004"%string, ["✅ OK"; "✅ OK"]%string)]
           [] "I007" ["⚠️ ALERTA"; "❌ ERRO"]%string "ERRO").
  - discriminate.
  - intros [H|[H|[]]]; discriminate H.
Defined.

(** ** Closed-contour verifier: the three answers *)

Lemma existsb_orb {A : Type} (f g : A -> bool) (l : list A) :
  existsb (fun a => f a || g a) l = existsb f l || existsb g l.
Proof.
  induction l as [|a l IH]; [reflexivity|].
  cbn [existsb]. rewrite IH.
  destruct (f a), (g a), (existsb f l), (existsb g l); reflexivity.
Qed.

(** X6: the verifier lists no dangling point on any drawing.  It answers
    [ERRO] exactly when the flattened set holds a [LINE] (the failure of
    the slice, whatever the lines are), [OK] exactly when it holds an
    [LWPOLYLINE] and no [LINE], and [ALERTA] exactly when it holds
    neither. *)
Theorem check_closed_geometry_verdicts (msp : modelspace) (tol : Q) :
  data (check_closed_geometry msp tol) = DNone
  /\ (status (check_closed_geometry msp tol) = ERRO
      <-> existsb (is_type T_LINE) (get_flattend_entities (Some msp)) = true)
  /\ (status (check_closed_geometry msp tol) = OK
      <-> existsb (is_type T_LINE) (get_flattend_entities (Some msp)) = false
          /\ existsb (is_type T_LWPOLYLINE)
               (get_flattend_entities (Some msp)) = true)
  /\ (status (check_closed_geometry msp tol) = ALERTA
      <-> existsb (is_type T_LINE) (get_flattend_entities (Some msp)) = false
          /\ existsb (is_type T_LWPOLYLINE)
               (get_flattend_entities (Some msp)) = false).
Proof.
  split; [apply check_closed_geometry_no_data|].
  destruct (existsb (is_type T_LINE) (get_flattend_entities (Some msp)))
    eqn:Hline.
  - destruct (check_closed_geometry_with_line msp tol Hline) as [msg Hr].
    rewrite Hr. cbn [status].
    repeat split; try reflexivity; try discriminate;
      intros [H _]; discriminate H.
  - destruct (existsb (is_type T_LWPOLYLINE)
                (get_flattend_entities (Some msp))) eqn:Hpoly.
    + rewrite (check_closed_geometry_no_lines msp tol Hline Hpoly).
      cbn [status].
      repeat split; try reflexivity; try discriminate;
        intros [_ H]; discriminate H.
    + assert (Hr : check_closed_geometry msp tol
                   = Result ALERTA "Nenhum contorno para analisar." DNone).
      { unfold check_closed_geometry.
        rewrite truthy_filter, existsb_orb, Hline, Hpoly. reflexivity. }
      rewrite Hr. cbn [status].
      repeat split; try reflexivity; try discriminate;
        intros [_ H]; discriminate H.
Qed.

(** ** Duplicate line detector: what an answer holds *)

Lemma two_in_length {A : Type} (l : list A) (a b : A) :
  In a l -> In b l -> a <> b -> (2 <= length l)%nat.
Proof.
  destruct l as [|x [|y l]]; intros Ha Hb Hne.
  - destruct Ha.
  - destruct Ha as [<-|[]], Hb as [<-|[]]. contradiction.
  - cbn [length]. lia.
Qed.

(** X5: on lines that carry both end points the detector never answers
    its failure result: it answers [OK] with no data, or [ERRO] with at
    least two lines, all of them lines of the flattened set, and the number
    in the message is the number of lines listed.  With fewer than two
    lines the answer is [OK]. *)
Theorem find_duplicate_lines_reports_pairs (msp : modelspace)
    (precision : Z) :
  forallb has_endpoints
    (filter (is_type T_LINE) (get_flattend_entities (Some msp))) = true ->
  (find_duplicate_lines msp precision
   = Result OK "Nenhuma linha sobreposta encontrada." DNone
   \/ exists entities,
        find_duplicate_lines msp precision
        = Result ERRO
            ("Encontrada(s) " ++ str_of_nat (length entities)
             ++ " linha(s) envolvida(s) em duplicação.")%string
            (DEntities entities)
        /\ (2 <= length entities)%nat
        /\ forall e,
             In e entities ->
             In e (filter (is_type T_LINE)
                     (get_flattend_entities (Some msp))))
  /\ ((length (filter (is_type T_LINE) (get_flattend_entities (Some msp)))
       < 2)%nat ->
      find_duplicate_lines msp precision
      = Result OK "Nenhuma linha sobreposta encontrada." DNone).
Proof.
  intros Hwf.
  destruct (duplicate_line_indices_spec precision _ Hwf)
    as [flagged [Hf [Hnd Hin]]].
  assert (Hres : find_duplicate_lines msp precision
                 = if truthy flagged
                   then Result ERRO
                          ("Encontrada(s) " ++ str_of_nat (length flagged)
                           ++ " linha(s) envolvida(s) em duplicação.")%string
                          (DEntities
                             (map (item (filter (is_type T_LINE)
                                           (get_flattend_entities
                                              (Some msp))))
                                flagged))
                   else Result OK "Nenhuma linha sobreposta encontrada."
                          DNone).
  { unfold find_duplicate_lines. cbv zeta. rewrite Hf. reflexivity. }
  split.
  - destruct flagged as [|i rest] eqn:Hfl; [left; exact Hres|right].
    rewrite <- Hfl in *. eexists. split; [|split].
    + rewrite Hres, Hfl, length_map. reflexivity.
    + rewrite length_map.
      assert (Hi : In i flagged) by (rewrite Hfl; left; reflexivity).
      destruct (proj1 (Hin i) Hi) as [Hlt [j [Hj [Hne Hs]]]].
      apply (two_in_length flagged i j Hi); [|congruence].
      apply Hin. split; [exact Hj|]. exists i. split; [exact Hlt|].
      split; [congruence|]. rewrite same_signature_sym. exact Hs.
    + intros e He. apply in_map_iff in He as [k [<- Hk]].
      apply nth_In. apply (proj1 (Hin k) Hk).
  - intros Hlen. rewrite Hres.
    destruct flagged as [|i rest]; [reflexivity|exfalso].
    destruct (proj1 (Hin i) (or_introl eq_refl)) as [Hi [j [Hj [Hne _]]]].
    lia.
Qed.

Lemma find_duplicate_lines_reports_pairs_witness :
  (find_duplicate_lines near_reversed_lines 4
   = Result OK "Nenhuma linha sobreposta encontrada." DNone
   \/ exists entities,
        find_duplicate_lines near_reversed_lines 4
        = Result ERRO
            ("Encontrada(s) " ++ str_of_nat (length entities)
             ++ " linha(s) envolvida(s) em duplicação.")%string
            (DEntities entities)
        /\ (2 <= length entities)%nat
        /\ forall e,
             In e entities ->
             In e (filter (is_type T_LINE)
                     (get_flattend_entities (Some near_reversed_lines))))
  /\ ((length (filter (is_type T_LINE)
                 (get_flattend_entities (Some near_reversed_lines)))
       < 2)%nat ->
      find_duplicate_lines near_reversed_lines 4
      = Result OK "Nenhuma linha sobreposta encontrada." DNone).
Proof.
  apply (find_duplicate_lines_reports_pairs near_reversed_lines 4).
  reflexivity.
Defined.
